(** * AutoNav: the runtime core of [traffic.py]

    A shallow embedding of the control loop of the CARLA traffic demo
    ([src/traffic.py]): the camera callback and its sampling predicate, the
    telemetry ring ([collections.deque] with [maxlen]), the watchdog, the
    jaywalker staging and trigger steps, the background image saver and the
    cleanup phase.

    Conventions.
    - Python [float] values (wall-clock readings, distances, kinematics) are
      idealised as rationals [Q]; Python [int] as [Z].
    - Answers of the simulator, of pygame and of [random] are inputs of the
      model: every tick receives a record with what each external call
      returned or whether it raised.
    - Calls issued to the outside (simulator commands, sleeps, waits, files)
      are recorded, in program order, in a list of events.
    - The camera callbacks and the saver thread run between the passes of
      the control loop, as occurrences interleaved with them; the saver's
      loop is taken statement by statement (loop test, [get], save and
      [task_done]), so that a callback or a loop test may fall between any
      two of them.
    - The model starts where the [while] loop is entered (line 296); the
      set-up before it fixes the initial locals. An exception that leaves
      the loop body uncaught ([KeyboardInterrupt], pygame errors) is outside
      the model. *)

From Stdlib Require Import String Ascii Init.Byte Decimal DecimalString.
From Stdlib Require Import DecimalFacts DecimalN.
From Stdlib Require Import ZArith QArith Bool Arith Lia List.
Import ListNotations.

Set Implicit Arguments.

(* ====================================================================== *)
(** * Python exceptions as results *)

Inductive exn : Type :=
| AttributeError | ValueError | RuntimeError | NameError | IndexError
| TypeError | QueueEmpty.

Inductive result (A : Type) : Type :=
| Ok (a : A)
| Raise (e : exn).
Arguments Ok {A} a.
Arguments Raise {A} e.

(* ====================================================================== *)
(** * [collections.deque(maxlen=n)] *)

Module Deque.

Record t (A : Type) : Type := mk { maxlen : nat; items : list A }.
Arguments mk {A} maxlen items.

(** [deque(maxlen=n)]: an empty deque of capacity [n]. *)
Definition empty {A : Type} (n : nat) : t A := mk n [].

(** [d.append(x)]: the item is added on the right and, when the length then
    exceeds [maxlen], one item is discarded on the left (with [maxlen = 0]
    the new item itself). *)
Definition append {A : Type} (d : t A) (x : A) : t A :=
  let l := items d ++ [x] in
  mk (maxlen d) (if maxlen d <? length l then tl l else l).

Definition appends {A : Type} (d : t A) (xs : list A) : t A :=
  fold_left append xs d.

(** [len(d)], [list(d)] and [bool(d)]. *)
Definition len {A : Type} (d : t A) : nat := length (items d).
Definition to_list {A : Type} (d : t A) : list A := items d.
Definition truthy {A : Type} (d : t A) : bool :=
  match items d with [] => false | _ => true end.

(** [d.name = v]: [deque] is a built-in type whose instances carry no
    [__dict__]; binding any attribute on an instance raises
    [AttributeError] (for a method name such as [append]: "object
    attribute 'append' is read-only"). The deque itself is untouched. *)
Definition setattr {A V : Type} (d : t A) (name : string) (v : V)
  : result unit := Raise AttributeError.

End Deque.

(* ====================================================================== *)
(** * [queue.Queue()] *)

Module PyQueue.

Record t (A : Type) : Type := mk { items : list A; unfinished_tasks : nat }.
Arguments mk {A} items unfinished_tasks.

Definition empty {A : Type} : t A := mk [] 0.

(** [q.put(x)] on an unbounded queue never blocks. *)
Definition put {A : Type} (q : t A) (x : A) : t A :=
  mk (items q ++ [x]) (S (unfinished_tasks q)).

(** [q.get(timeout=...)]: the oldest item, or [queue.Empty] once the
    timeout has passed on an empty queue. *)
Definition get {A : Type} (q : t A) : result (A * t A) :=
  match items q with
  | [] => Raise QueueEmpty
  | x :: rest => Ok (x, mk rest (unfinished_tasks q))
  end.

(** [q.task_done()] raises [ValueError] when called more often than there
    were items. *)
Definition task_done {A : Type} (q : t A) : result (t A) :=
  match unfinished_tasks q with
  | O => Raise ValueError
  | S n => Ok (mk (items q) n)
  end.

Definition qsize {A : Type} (q : t A) : nat := length (items q).

(** [q.join()] returns when the count of unfinished tasks is zero; it
    takes no timeout. *)
Definition join_returns {A : Type} (q : t A) : bool :=
  match unfinished_tasks q with O => true | S _ => false end.

End PyQueue.

(* ====================================================================== *)
(** * Defaults / Config *)

Definition os_sep : string := "/".

(** [os.path.join(a, b)] for two components. *)
Definition starts_with_sep (s : string) : bool :=
  match s with
  | String c _ => Ascii.eqb c "/"%char
  | EmptyString => false
  end.

Fixpoint ends_with_sep (s : string) : bool :=
  match s with
  | EmptyString => false
  | String c EmptyString => Ascii.eqb c "/"%char
  | String _ rest => ends_with_sep rest
  end.

Definition os_path_join (a b : string) : string :=
  if starts_with_sep b then b
  else match a with
       | EmptyString => b
       | _ => if ends_with_sep a then (a ++ b)%string
              else (a ++ os_sep ++ b)%string
       end.

Definition OUT_DIR : string := "carla_dataset".
Definition FRONT_DIR : string := os_path_join OUT_DIR "front_camera".
Definition THIRD_DIR : string := os_path_join OUT_DIR "third_person_camera".

Definition CAM_SAVE_EVERY_N_default : Z := 60.
Definition SIM_FPS : Z := 10.
Definition MAX_OTHER_VEHICLES : nat := 6.
Definition MAX_CROSSERS : nat := 2.
Definition JAYWALK_STAGING_DISTANCE : Q := 30.
Definition JAYWALK_TRIGGER_DISTANCE : Q := 12.
Definition NO_FRAME_TIMEOUT : Q := 10.
#[warnings="-abstract-large-number"]
Definition MAX_TELEMETRY_ROWS : nat := 20000.

(* ====================================================================== *)
(** * Camera frames *)

Inductive store_name : Type := front | third.

(** [carla.Image]: the simulator's frame number, the size and the BGRA
    buffer. *)
Record Image : Type := mkImage {
  frame : Z;
  width : nat;
  height : nat;
  raw_data : list byte
}.

Record Surface : Type := mkSurface {
  surf_w : nat;
  surf_h : nat;
  surf_rgb : list (byte * byte * byte)
}.

(** [arr.reshape((h, w, 4))[:, :, :3][:, :, ::-1]]: groups of four bytes
    B, G, R, A become R, G, B. *)
Fixpoint bgra_to_rgb (bs : list byte) : list (byte * byte * byte) :=
  match bs with
  | b :: g :: r :: _ :: rest => (r, g, b) :: bgra_to_rgb rest
  | _ => []
  end.

(** [to_surface_from_image]: [reshape] raises [ValueError] when the buffer
    does not hold [height * width * 4] bytes. *)
Definition to_surface_from_image (image : Image) : result Surface :=
  if length (raw_data image) =? height image * width image * 4
  then Ok (mkSurface (width image) (height image) (bgra_to_rgb (raw_data image)))
  else Raise ValueError.

(** [f"{n:06d}"]: decimal, zero-filled to width six, the sign first. *)
Fixpoint zeros (n : nat) : string :=
  match n with
  | O => EmptyString
  | S k => String "0"%char (zeros k)
  end.

Definition digits_of (n : N) : string := NilZero.string_of_uint (N.to_uint n).

Definition format_06d (z : Z) : string :=
  let ds := digits_of (Z.abs_N z) in
  if (z <? 0)%Z
  then String "-"%char (zeros (5 - String.length ds) ++ ds)%string
  else (zeros (6 - String.length ds) ++ ds)%string.

(** What a camera delivers: the buffer holds [height * width] BGRA
    pixels. *)
Definition image_well_formed (image : Image) : Prop :=
  length (raw_data image) = (height image * width image * 4)%nat.

(** Where the saver thread stands in [image_saver]: at the loop test of
    line 65, inside [save_queue.get(timeout=0.5)] of line 67, or past it,
    with a task taken from the queue and [task_done] not yet called (lines
    71-77). A thread that has left the loop is one that stands at the test
    with the stop event set. *)
Inductive saver_at : Type :=
| AtStopTest
| InGet
| Saving (task : string * Image).

(** The state the threads share: the module globals read and written by
    the camera callbacks and, with [save_queue], the place of the saver
    thread that takes from it. *)
Record Globals : Type := mkGlobals {
  front_image : option Surface;
  third_image : option Surface;
  _last_frame_time : Q;
  _frame_counter : Z;
  save_queue : PyQueue.t (string * Image);
  CAM_SAVE_EVERY_N : Z;
  saver : saver_at
}.

Definition set_last_frame_time (g : Globals) (t : Q) : Globals :=
  mkGlobals (front_image g) (third_image g) t (_frame_counter g)
            (save_queue g) (CAM_SAVE_EVERY_N g) (saver g).

Definition set_CAM_SAVE_EVERY_N (g : Globals) (n : Z) : Globals :=
  mkGlobals (front_image g) (third_image g) (_last_frame_time g)
            (_frame_counter g) (save_queue g) n (saver g).

Definition target_dir (s : store_name) : string :=
  match s with front => FRONT_DIR | third => THIRD_DIR end.

Definition png_path (s : store_name) (image : Image) : string :=
  os_path_join (target_dir s) (format_06d (frame image) ++ ".png")%string.

(** The body of [callback] inside its [try]: global writes made before an
    exception stay. [now] is the reading of [time.time()]. The result is the
    globals and whether the body raised. *)
Definition callback_body (s : store_name) (now : Q) (image : Image)
                         (g : Globals) : Globals * result unit :=
  let g1 := mkGlobals (front_image g) (third_image g) now
                      (_frame_counter g + 1)%Z (save_queue g)
                      (CAM_SAVE_EVERY_N g) (saver g) in
  match to_surface_from_image image with
  | Raise e => (g1, Raise e)
  | Ok surf =>
      let g2 :=
        match s with
        | front => mkGlobals (Some surf) (third_image g1) (_last_frame_time g1)
                             (_frame_counter g1) (save_queue g1)
                             (CAM_SAVE_EVERY_N g1) (saver g1)
        | third => mkGlobals (front_image g1) (Some surf) (_last_frame_time g1)
                             (_frame_counter g1) (save_queue g1)
                             (CAM_SAVE_EVERY_N g1) (saver g1)
        end in
      if ((0 <? CAM_SAVE_EVERY_N g2)%Z
          && (frame image mod CAM_SAVE_EVERY_N g2 =? 0)%Z)%bool
      then (mkGlobals (front_image g2) (third_image g2) (_last_frame_time g2)
                      (_frame_counter g2)
                      (PyQueue.put (save_queue g2) (png_path s image, image))
                      (CAM_SAVE_EVERY_N g2) (saver g2),
            Ok tt)
      else (g2, Ok tt)
  end.

(** [make_camera_callback(store_name)]: the exception is logged at debug
    level and swallowed. *)
Definition make_camera_callback (s : store_name) (now : Q) (image : Image)
                                (g : Globals) : Globals :=
  fst (callback_body s now image g).

(** Command-line flags. *)
Record Args : Type := mkArgs {
  no_save : bool;
  no_walkers : bool;
  lowres : bool;
  tm_off : bool;
  quality_low : bool
}.

(** [main], lines 134-135: [--no-save] sets the interval to zero. *)
Definition apply_no_save (args : Args) (g : Globals) : Globals :=
  if no_save args then set_CAM_SAVE_EVERY_N g 0 else g.

(** The globals as the module sets them, the saver thread just started
    (line 144). *)
Definition initial_globals (t0 : Q) : Globals :=
  mkGlobals None None t0 0 PyQueue.empty CAM_SAVE_EVERY_N_default AtStopTest.

(* ====================================================================== *)
(** * The background image saver *)

Definition set_save_queue (g : Globals) (q : PyQueue.t (string * Image))
  : Globals :=
  mkGlobals (front_image g) (third_image g) (_last_frame_time g)
            (_frame_counter g) q (CAM_SAVE_EVERY_N g) (saver g).

Definition set_saver (g : Globals) (at_ : saver_at) : Globals :=
  mkGlobals (front_image g) (third_image g) (_last_frame_time g)
            (_frame_counter g) (save_queue g) (CAM_SAVE_EVERY_N g) at_.

(** [image_saver], statement by statement; the other threads may run
    between any two of these steps. Each step acts only when the thread
    stands where the step begins.

    Line 65, [while not stop_event.is_set()]: with the event set the thread
    leaves the loop, else it enters [get]. *)
Definition image_saver_test (stop_event : bool) (g : Globals) : Globals :=
  match saver g with
  | AtStopTest => if stop_event then g else set_saver g InGet
  | _ => g
  end.

(** Lines 66-69, [save_queue.get(timeout=0.5)] returns: with the oldest
    task, or, the queue still empty when the timeout is over, with
    [queue.Empty] and [continue]. The stop event is not looked at here. *)
Definition image_saver_get (g : Globals) : Globals :=
  match saver g with
  | InGet =>
      match PyQueue.get (save_queue g) with
      | Ok (task, q) => set_saver (set_save_queue g q) (Saving task)
      | Raise _ => set_saver g AtStopTest
      end
  | _ => g
  end.

(** Lines 70-79: [image.save_to_disk(path)], whose exception is logged and
    swallowed ([saved] is what it did), and [task_done] in the [finally]
    either way, its own exception swallowed too. *)
Definition image_saver_finish (saved : result unit) (g : Globals) : Globals :=
  match saver g with
  | Saving _ =>
      let q := match PyQueue.task_done (save_queue g) with
               | Ok q => q
               | Raise _ => save_queue g
               end in
      set_saver (set_save_queue g q) AtStopTest
  | _ => g
  end.

(** What the other threads do between two steps of the control thread: a
    camera callback runs, or the saver thread makes a step. [SaverPass] is
    the saver running on, with no other thread in between, to the end of
    the pass of its loop. *)
Inductive background : Type :=
| CameraFrame (s : store_name) (now : Q) (image : Image)
| SaverTest
| SaverGet
| SaverFinish (saved : result unit)
| SaverPass (saved : result unit).

(** [stop_event]: whether [stop_saver] is set when the step runs. *)
Definition background_step (stop_event : bool) (b : background) (g : Globals)
  : Globals :=
  match b with
  | CameraFrame s now image => make_camera_callback s now image g
  | SaverTest => image_saver_test stop_event g
  | SaverGet => image_saver_get g
  | SaverFinish saved => image_saver_finish saved g
  | SaverPass saved =>
      image_saver_finish saved (image_saver_get (image_saver_test stop_event g))
  end.

(** [save_queue.join()] in the cleanup: the control thread is blocked while
    the other threads run; it resumes at the first moment at which no task
    is unfinished. [None]: still blocked when the given steps are over. *)
Fixpoint queue_join (bs : list background) (g : Globals) : option Globals :=
  if PyQueue.join_returns (save_queue g) then Some g
  else match bs with
       | [] => None
       | b :: rest => queue_join rest (background_step false b g)
       end.

(** The same wait against an unending schedule of the other threads: the
    globals after [n] of its steps, and whether [join] has returned by
    then. *)
Fixpoint globals_after (sched : nat -> background) (n : nat) (g : Globals)
  : Globals :=
  match n with
  | O => g
  | S k => background_step false (sched k) (globals_after sched k g)
  end.

Definition join_returned_by (sched : nat -> background) (n : nat)
                            (g : Globals) : bool :=
  existsb (fun k => PyQueue.join_returns (save_queue (globals_after sched k g)))
          (seq 0 (S n)).

(* ====================================================================== *)
(** * The simulator's data *)

(** A [carla.Actor] handle, identified by its id. *)
Definition actor : Type := Z.

Record Location : Type := mkLocation { loc_x : Q; loc_y : Q; loc_z : Q }.
Record Vector3D : Type := mkVector3D { vec_x : Q; vec_y : Q; vec_z : Q }.
Record VehicleControl : Type := mkControl { steer : Q; throttle : Q; brake : Q }.

(** [world.get_snapshot()]: [snap.frame] and
    [snap.timestamp.elapsed_seconds]. *)
Record Snapshot : Type := mkSnapshot { snap_frame : Z; elapsed_seconds : Q }.

(** A [carla.Waypoint]: the location of its transform and the right vector
    of that transform. *)
Record Waypoint : Type := mkWaypoint {
  wp_location : Location;
  wp_right : Vector3D
}.

(** [v * k] and [loc += v]. *)
Definition vec_scale (v : Vector3D) (k : Q) : Vector3D :=
  mkVector3D (vec_x v * k) (vec_y v * k) (vec_z v * k).

Definition loc_add (p : Location) (v : Vector3D) : Location :=
  mkLocation (loc_x p + vec_x v) (loc_y p + vec_y v) (loc_z p + vec_z v).

(** One telemetry row:
    [[frame, time_s, speed_kmh, steer, throttle, brake, x, y, z]]. *)
Record TelemetryRow : Type := mkRow {
  row_frame : Z;
  row_time_s : Q;
  row_speed_kmh : Q;
  row_steer : Q;
  row_throttle : Q;
  row_brake : Q;
  row_x : Q;
  row_y : Q;
  row_z : Q
}.

(** An entry of [staged_walkers]: [(walker, ctrl, destination, trig)]. *)
Record StagedWalker : Type := mkStaged {
  sw_walker : actor;
  sw_ctrl : actor;
  sw_destination : Location;
  sw_trig : Q
}.

(** [carla.WorldSettings], as far as the script sets it. *)
Record WorldSettings : Type := mkSettings {
  synchronous_mode : bool;
  fixed_delta_seconds : Q
}.

(* ====================================================================== *)
(** * Calls to the outside, in program order *)

Inductive level : Type := DEBUG | INFO | WARNING | ERROR.

Inductive event : Type :=
| Log (lvl : level) (msg : string)
| Sleep (seconds : Q)                       (* time.sleep *)
| TrySpawnWalker (at_ : Location)           (* world.try_spawn_actor *)
| SpawnController (parent : actor)          (* world.spawn_actor, attach_to *)
| Destroy (a : actor)                       (* actor.destroy() *)
| CtrlStart (c : actor)
| CtrlGoTo (c : actor) (dest : Location)
| CtrlSetMaxSpeed (c : actor) (speed : Q)
| DisplayFill
| Blit (s : store_name)
| HudText (frame_no : Z) (n_walkers : nat) (queued_saves : nat)
| DisplayFlip
| ClockTick (fps : Z)
| WriteTelemetryCsv (rows : list TelemetryRow)
| QueueJoin                                 (* save_queue.join() *)
| StopSaverSet                              (* stop_saver.set() *)
| ThreadJoin (timeout : Q)                  (* saver_thread.join(timeout=) *)
| ApplyBatchSync (ids : list actor)         (* DestroyActor commands *)
| ApplySettings (s : WorldSettings)
| PygameQuit
| SensorStop (s : actor).                   (* sensor.stop(): never issued *)

(** pygame events. *)
Inductive pg_event : Type :=
| QUIT
| KEYDOWN (key : Z)
| OtherEvent.

Definition K_ESCAPE : Z := 27.

Definition is_quit (e : pg_event) : bool :=
  match e with
  | QUIT => true
  | KEYDOWN k => (k =? K_ESCAPE)%Z
  | OtherEvent => false
  end.

(** [safe_is_alive(actor)]: [getattr(actor, "is_alive", True)] is the
    actor's [is_alive], or [True] when reading it raises [AttributeError];
    any other exception of the read reaches the handler of line 114 and
    makes the function return [False]. *)
Definition safe_is_alive (is_alive : actor -> result bool) (a : actor) : bool :=
  match is_alive a with
  | Ok b => b
  | Raise AttributeError => true
  | Raise _ => false
  end.

(* ====================================================================== *)
(** * The locals of [main] *)

Record Locals : Type := mkLocals {
  args : Args;
  original_settings : option WorldSettings;
  sensors : list actor;
  vehicles : list actor;
  walkers : list actor;
  walker_controllers : list actor;
  telemetry : Deque.t TelemetryRow;
  running : bool;
  staged_walkers : list StagedWalker;
  spawn_attempts : nat;
  ego_location : option Location       (* [None]: name not bound yet *)
}.

Definition set_running (l : Locals) (b : bool) : Locals :=
  mkLocals (args l) (original_settings l) (sensors l) (vehicles l) (walkers l)
           (walker_controllers l) (telemetry l) b (staged_walkers l)
           (spawn_attempts l) (ego_location l).

Definition set_ego_location (l : Locals) (p : Location) : Locals :=
  mkLocals (args l) (original_settings l) (sensors l) (vehicles l) (walkers l)
           (walker_controllers l) (telemetry l) (running l) (staged_walkers l)
           (spawn_attempts l) (Some p).

Definition set_telemetry (l : Locals) (d : Deque.t TelemetryRow) : Locals :=
  mkLocals (args l) (original_settings l) (sensors l) (vehicles l) (walkers l)
           (walker_controllers l) d (running l) (staged_walkers l)
           (spawn_attempts l) (ego_location l).

Definition stage_walker (l : Locals) (sw : StagedWalker) : Locals :=
  mkLocals (args l) (original_settings l) (sensors l) (vehicles l) (walkers l)
           (walker_controllers l) (telemetry l) (running l)
           (staged_walkers l ++ [sw]) (S (spawn_attempts l)) (ego_location l).

Definition set_crossers (l : Locals) (ws cs : list actor)
                        (staged : list StagedWalker) : Locals :=
  mkLocals (args l) (original_settings l) (sensors l) (vehicles l) ws cs
           (telemetry l) (running l) staged (spawn_attempts l)
           (ego_location l).

(** The locals when the [while] loop is entered (lines 187-192 and
    288-291); [capacity] is [MAX_TELEMETRY_ROWS] in the script. *)
Definition initial_locals (a : Args) (orig : option WorldSettings)
                          (ss vs : list actor) (capacity : nat) : Locals :=
  mkLocals a orig ss vs [] [] (Deque.empty capacity) true [] 0 None.

(** ** A [try] block over the locals

    A statement sequence inside [try]: each statement runs on the locals
    and either goes on or raises; what was assigned before the exception
    stays assigned. *)
Definition block (A : Type) : Type := Locals -> Locals * result A.

Definition bind {A B : Type} (m : block A) (k : A -> block B) : block B :=
  fun l => match m l with
           | (l', Ok a) => k a l'
           | (l', Raise e) => (l', Raise e)
           end.

(** An external call, with what it answered. *)
Definition call {A : Type} (r : result A) : block A := fun l => (l, r).

(** An assignment to locals. *)
Definition assign (f : Locals -> Locals) : block unit :=
  fun l => (f l, Ok tt).

(** [try: body / except Exception: pass]. *)
Definition try_pass (body : block unit) (l : Locals) : Locals := fst (body l).

Declare Scope py_scope.
Delimit Scope py_scope with py.
Notation "x <- c ;; k" := (bind c (fun x => k))
  (at level 61, c at next level, right associativity) : py_scope.
Notation "c ;;; k" := (bind c (fun _ => k))
  (at level 61, right associativity) : py_scope.

(* ====================================================================== *)
(** * What the outside answers during one tick *)

(** The staging step, lines 337-370. *)
Record StagingIn : Type := mkStagingIn {
  (* carla_map.get_waypoint(ego_location) *)
  in_ego_wp : Location -> result Waypoint;
  (* ego_wp.next(JAYWALK_STAGING_DISTANCE) *)
  in_future : Waypoint -> Q -> result (list Waypoint);
  in_side : Z;                             (* random.choice([-1, 1]) *)
  in_offset : Q;                           (* random.uniform(3.0, 4.0) *)
  in_offset_raises : bool;                 (* spawn_tf.location += ... *)
  (* carla_map.get_waypoint(spawn_tf.location, project_to_road=True, ...) *)
  in_spawn_wp : Location -> result (option Waypoint);
  in_walker_bp : result unit;              (* random.choice(walker_bps) *)
  (* world.try_spawn_actor(walker_bp, st) *)
  in_try_spawn : Location -> result (option actor);
  (* world.spawn_actor(walker_controller_bp, ..., attach_to=walker) *)
  in_spawn_ctrl : actor -> result actor;
  in_dest_offset : result Q                (* dest += -side * rv * uniform *)
}.

Record TickIn : Type := mkTickIn {
  in_events : list pg_event;               (* pygame.event.get() *)
  in_snapshot : result (option Snapshot);  (* world.get_snapshot() *)
  in_now : Q;                              (* time.time(), line 316 *)
  in_transform : result Location;          (* ego.get_transform().location *)
  in_velocity : result Vector3D;           (* ego.get_velocity() *)
  in_control : result VehicleControl;      (* ego.get_control() *)
  in_staging : StagingIn;
  (* walker.get_location().distance(ego_location) *)
  in_distance : actor -> Location -> result Q;
  in_ctrl_start : actor -> result unit;    (* ctrl.start() *)
  in_ctrl_go : actor -> result unit;       (* ctrl.go_to_location(...) *)
  in_ctrl_speed : actor -> result unit;    (* ctrl.set_max_speed(...) *)
  in_speed : actor -> Q;                   (* random.uniform(1.0, 2.0) *)
  in_walker_alive : actor -> result bool;  (* walker.is_alive *)
  in_hud : result unit                     (* pygame.font.Font / render *)
}.

(** How a pass through the loop body ends. *)
Inductive flow : Type :=
| Fallthrough       (* the end of the body, or of the step, is reached *)
| Continue          (* [continue] *)
| Break.            (* [break] *)

(** The watchdog comparison, line 316:
    [time.time() - _last_frame_time > NO_FRAME_TIMEOUT]. *)
Definition watchdog_stalled (threshold now last : Q) : bool :=
  negb (Qle_bool (now - last) threshold).

(* ====================================================================== *)
(** * Staging a jaywalker, lines 336-374 *)

(** The body of the [try] of the staging step. [Raise]: an exception
    reached the handler of line 373, with the calls issued before it. *)
Definition stage_body (si : StagingIn) (l : Locals)
  : result (Locals * list event * flow) * list event :=
  match ego_location l with
  | None => (Raise NameError, [])
  | Some ego_loc =>
  match in_ego_wp si ego_loc with
  | Raise e => (Raise e, [])
  | Ok ego_wp =>
  match in_future si ego_wp JAYWALK_STAGING_DISTANCE with
  | Raise e => (Raise e, [])
  | Ok [] => (Ok (l, [], Fallthrough), [])
  | Ok (future_wp :: _) =>
      let side := in_side si in
      let rv := wp_right future_wp in
      let spawn_loc :=
        if in_offset_raises si then wp_location future_wp
        else loc_add (wp_location future_wp)
                     (vec_scale rv (in_offset si * inject_Z side)) in
      let spawn_wp :=
        match in_spawn_wp si spawn_loc with
        | Raise _ => None
        | Ok w => w
        end in
      match spawn_wp with
      | None => (Ok (l, [], Fallthrough), [])
      | Some w =>
          let st := mkLocation (loc_x (wp_location w)) (loc_y (wp_location w))
                               (loc_z (wp_location w) + 1) in
          match in_walker_bp si with
          | Raise e => (Raise e, [])
          | Ok _ =>
          match in_try_spawn si st with
          | Raise e => (Raise e, [TrySpawnWalker st])
          | Ok None => (Ok (l, [TrySpawnWalker st], Fallthrough), [])
          | Ok (Some walker) =>
              match in_spawn_ctrl si walker with
              | Raise _ =>
                  (* lines 363-368: [walker.destroy()], whose own exception
                     is swallowed, then [continue] *)
                  (Ok (l, [TrySpawnWalker st; SpawnController walker;
                           Destroy walker], Continue), [])
              | Ok ctrl =>
                  match in_dest_offset si with
                  | Raise e =>
                      (Raise e, [TrySpawnWalker st; SpawnController walker])
                  | Ok u =>
                      let dest :=
                        loc_add (wp_location future_wp)
                                (vec_scale rv (inject_Z (- side) * u)) in
                      (Ok (stage_walker l (mkStaged walker ctrl dest
                                             JAYWALK_TRIGGER_DISTANCE),
                           [TrySpawnWalker st; SpawnController walker],
                           Fallthrough), [])
                  end
              end
          end
          end
      end
  end
  end
  end.

(** The staging step with its handler: the exception is logged at debug
    level and the tick goes on. *)
Definition stage (si : StagingIn) (l : Locals) : Locals * list event * flow :=
  match stage_body si l with
  | (Ok r, _) => r
  | (Raise _, issued) =>
      (l, issued ++ [Log DEBUG "walker staging error"], Fallthrough)
  end.

(** [len(walkers) + len(staged_walkers)]: the walkers that are triggered
    and those that wait for their trigger. *)
Definition crossers (l : Locals) : nat :=
  length (walkers l) + length (staged_walkers l).

(** The guard of line 335. *)
Definition staging_due (l : Locals) (snap : Snapshot) : bool :=
  negb (no_walkers (args l))
  && (40 <? snap_frame snap)%Z
  && (snap_frame snap mod 200 =? 0)%Z
  && (crossers l <? MAX_CROSSERS).

(* ====================================================================== *)
(** * Triggering staged walkers, lines 377-398 *)

(** The lists a pass of the [for] loop works on: [walkers],
    [walker_controllers], and the new list [remaining]. *)
Record Trig : Type := mkTrig {
  t_walkers : list actor;
  t_controllers : list actor;
  t_remaining : list StagedWalker;
  t_events : list event
}.

(** The three controller commands of lines 382-384; the first that raises
    ends them, and the exception is logged. *)
Definition controller_commands (i : TickIn) (sw : StagedWalker) : list event :=
  let c := sw_ctrl sw in
  match in_ctrl_start i c with
  | Raise _ => [CtrlStart c; Log DEBUG "controller command failed"]
  | Ok _ =>
      match in_ctrl_go i c with
      | Raise _ => [CtrlStart c; CtrlGoTo c (sw_destination sw);
                    Log DEBUG "controller command failed"]
      | Ok _ =>
          match in_ctrl_speed i c with
          | Raise _ => [CtrlStart c; CtrlGoTo c (sw_destination sw);
                        CtrlSetMaxSpeed c (in_speed i c);
                        Log DEBUG "controller command failed"]
          | Ok _ => [CtrlStart c; CtrlGoTo c (sw_destination sw);
                     CtrlSetMaxSpeed c (in_speed i c)]
          end
      end
  end.

(** One pass of the [for] loop over [staged_walkers]. *)
Definition trigger_one (i : TickIn) (el : option Location)
                       (t : Trig) (sw : StagedWalker) : Trig :=
  let distance :=
    match el with
    | None => Raise NameError
    | Some p => in_distance i (sw_walker sw) p
    end in
  match distance with
  | Ok d =>
      if negb (Qle_bool (sw_trig sw) d)          (* d < trig *)
      then mkTrig (t_walkers t ++ [sw_walker sw])
                  (t_controllers t ++ [sw_ctrl sw])
                  (t_remaining t)
                  (t_events t ++ controller_commands i sw
                     ++ [Log INFO "Triggered walker"])
      else mkTrig (t_walkers t) (t_controllers t) (t_remaining t ++ [sw])
                  (t_events t)
  | Raise _ =>
      mkTrig (t_walkers t) (t_controllers t) (t_remaining t)
             (t_events t ++ if safe_is_alive (in_walker_alive i) (sw_walker sw)
                            then [Destroy (sw_walker sw)] else [])
  end.

Definition trigger_loop (i : TickIn) (el : option Location)
                        (t : Trig) (todo : list StagedWalker) : Trig :=
  fold_left (trigger_one i el) todo t.

(** Lines 377-398: the loop, then [staged_walkers = remaining]. *)
Definition trigger (i : TickIn) (l : Locals) : Locals * list event :=
  let t := trigger_loop i (ego_location l)
             (mkTrig (walkers l) (walker_controllers l) [] [])
             (staged_walkers l) in
  (set_crossers l (t_walkers t) (t_controllers t) (t_remaining t), t_events t).

(** Lines 400-420. *)
Definition render (g : Globals) (i : TickIn) (l : Locals) (snap : Snapshot)
  : list event :=
  [DisplayFill]
  ++ (match third_image g with Some _ => [Blit third] | None => [] end)
  ++ (match front_image g with Some _ => [Blit front] | None => [] end)
  ++ (match in_hud i with
      | Ok _ => [HudText (snap_frame snap) (length (walkers l))
                         (PyQueue.qsize (save_queue g))]
      | Raise _ => []
      end)
  ++ [DisplayFlip; ClockTick SIM_FPS].

(* ====================================================================== *)
(** * Cleanup, lines 428-484 *)

Record CleanupIn : Type := mkCleanupIn {
  in_csv : result unit;                    (* open / csv.writer *)
  in_alive : actor -> result bool;         (* a.is_alive, line 455 *)
  in_batch : result unit;                  (* client.apply_batch_sync *)
  in_alive_again : actor -> result bool;   (* a.is_alive, line 470 *)
  in_settings : result unit                (* world.apply_settings *)
}.

Definition tracked_actors (l : Locals) : list actor :=
  sensors l ++ walker_controllers l ++ walkers l ++ vehicles l.

(** Up to and including the call of [save_queue.join()]. *)
Definition cleanup_until_join (ci : CleanupIn) (l : Locals) : list event :=
  [Log INFO "Cleanup starting..."]
  ++ (if Deque.truthy (telemetry l)
      then WriteTelemetryCsv (Deque.to_list (telemetry l))
           :: match in_csv ci with
              | Ok _ => [Log INFO "Telemetry saved"]
              | Raise _ => [Log WARNING "Telemetry save failed"]
              end
      else [])
  ++ [QueueJoin].

(** After [save_queue.join()] has returned. When the batch raises, the
    fallback of lines 468-474 goes through the lists once more and asks
    each actor again whether it is alive. *)
Definition cleanup_after_join (ci : CleanupIn) (l : Locals) : list event :=
  let all_ids := filter (safe_is_alive (in_alive ci)) (tracked_actors l) in
  [StopSaverSet; ThreadJoin 1]
  ++ (match all_ids with
      | [] => []
      | _ => ApplyBatchSync all_ids
             :: match in_batch ci with
                | Ok _ => []
                | Raise _ =>
                    Log WARNING "Batch destroy failed"
                    :: map Destroy
                         (filter (safe_is_alive (in_alive_again ci))
                                 (tracked_actors l))
                end
      end)
  ++ (match original_settings l with
      | Some orig => [ApplySettings orig]
      | None => []
      end)
  ++ [PygameQuit; Log INFO "Cleanup complete."].

(** The calls of a cleanup whose [join] returned. *)
Definition cleanup (ci : CleanupIn) (l : Locals) : list event :=
  cleanup_until_join ci l ++ cleanup_after_join ci l.

(** Classes of cleanup calls. *)
Definition is_sensor_stop (e : event) : bool :=
  match e with SensorStop _ => true | _ => false end.

Definition is_drain (e : event) : bool :=
  match e with QueueJoin => true | _ => false end.

Definition is_destroy (e : event) : bool :=
  match e with
  | ApplyBatchSync _ => true
  | Destroy _ => true
  | _ => false
  end.

Definition is_restore (e : event) : bool :=
  match e with ApplySettings _ => true | _ => false end.

Definition is_log (e : event) : bool :=
  match e with Log _ _ => true | _ => false end.

(** No call of class [p] comes after a call of class [q]. *)
Fixpoint all_before (p q : event -> bool) (tr : list event) : bool :=
  match tr with
  | [] => true
  | e :: rest =>
      (if q e then negb (existsb p rest) else true) && all_before p q rest
  end.

(** The order "stop listening on the sensors, wait for the queue to drain,
    destroy the tracked actors, restore the settings": each step is there
    and none comes after a later one. *)
Definition stop_drain_destroy_restore (tr : list event) : bool :=
  existsb is_sensor_stop tr && existsb is_drain tr
  && existsb is_destroy tr && existsb is_restore tr
  && all_before is_sensor_stop is_drain tr
  && all_before is_drain is_destroy tr
  && all_before is_destroy is_restore tr.

(** The blocking waits of the script and the bound each one is given. *)
Definition wait_bound (e : event) : option (option Q) :=
  match e with
  | Sleep s => Some (Some s)
  | ThreadJoin t => Some (Some t)
  | QueueJoin => Some None
  | _ => None
  end.

Definition is_unbounded_wait (e : event) : bool :=
  match wait_bound e with
  | Some None => true
  | _ => false
  end.

(* ====================================================================== *)
(** * The control loop *)

(** Lines 299-301: a quit event clears [running]; the pass goes on. *)
Definition process_events (evs : list pg_event) (l : Locals) : Locals :=
  if existsb is_quit evs then set_running l false else l.

(** Lines 304-308: an exception of [get_snapshot] is logged and leaves
    [snap = None]. *)
Definition poll_snapshot (i : TickIn) : option Snapshot * list event :=
  match in_snapshot i with
  | Raise _ => (None, [Log WARNING "get_snapshot() failed"])
  | Ok s => (s, [])
  end.

Inductive occurrence : Type :=
| Background (b : background)
| LoopTick (i : TickIn).

Inductive loop_state : Type :=
| Looping            (* the given occurrences are over, the loop is not *)
| QuitRequested      (* [running] was false at the loop test *)
| WatchdogStalled.   (* [break] of line 318 *)

(** The parts of what the loop returns. *)
Definition loop_globals (r : Globals * Locals * list event * loop_state)
  : Globals := fst (fst (fst r)).
Definition loop_locals (r : Globals * Locals * list event * loop_state)
  : Locals := snd (fst (fst r)).
Definition loop_trace (r : Globals * Locals * list event * loop_state)
  : list event := snd (fst r).
Definition loop_status (r : Globals * Locals * list event * loop_state)
  : loop_state := snd r.

(** A pass on which no snapshot is obtained. *)
Definition snapshot_failed (i : TickIn) : bool :=
  match fst (poll_snapshot i) with
  | None => true
  | Some _ => false
  end.

Definition all_polls_fail (occ : list occurrence) : bool :=
  forallb (fun o => match o with
                    | LoopTick i => snapshot_failed i
                    | Background _ => true
                    end) occ.

Definition quit_seen (occ : list occurrence) : bool :=
  existsb (fun o => match o with
                    | LoopTick i => existsb is_quit (in_events i)
                    | Background _ => false
                    end) occ.

(** Neither list of crossing walkers holds [w]. *)
Definition untracked (w : actor) (l : Locals) : Prop :=
  ~ In w (walkers l) /\ ~ In w (map sw_walker (staged_walkers l)).

(** In the passes of [occ], every controller request for the walker [w]
    was refused. *)
Definition attach_always_fails (w : actor) (occ : list occurrence) : Prop :=
  forall i, In (LoopTick i) occ ->
            exists e, in_spawn_ctrl (in_staging i) w = Raise e.

(** In the passes of [occ], every distance query of the trigger loop is
    answered. *)
Definition distances_answered (occ : list occurrence) : Prop :=
  forall i, In (LoopTick i) occ ->
            forall w p, exists d, in_distance i w p = Ok d.

(** What a pass without a snapshot issues: the warning and the sleep. *)
Definition is_poll_event (e : event) : bool :=
  match e with
  | Sleep _ => true
  | Log WARNING _ => true
  | _ => false
  end.

Section ControlLoop.

(** Python's [x ** y] on floats. *)
Variable float_pow : Q -> Q -> Q.

(** Line 326. *)
Definition speed_kmh (vel : Vector3D) : Q :=
  (36 # 10) * float_pow (float_pow (vec_x vel) 2 + float_pow (vec_y vel) 2
                         + float_pow (vec_z vel) 2) (1 # 2).

(** Lines 321-332, statement by statement; the handler is [pass]. Line 327
    binds an attribute on the deque. *)
Definition telemetry_block (snap : Snapshot) (i : TickIn) : Locals -> Locals :=
  try_pass
    (ego_loc <- call (in_transform i) ;;
     assign (fun l => set_ego_location l ego_loc) ;;;
     vel <- call (in_velocity i) ;;
     ctrl <- call (in_control i) ;;
     let speed := speed_kmh vel in
     (fun l => (l, Deque.setattr (telemetry l) "append" tt)) ;;;
     assign (fun l =>
               set_telemetry l
                 (Deque.append (telemetry l)
                    (mkRow (snap_frame snap) (elapsed_seconds snap) speed
                           (steer ctrl) (throttle ctrl) (brake ctrl)
                           (loc_x ego_loc) (loc_y ego_loc) (loc_z ego_loc)))))%py.

(** One pass through the body of [while running], lines 299-420. *)
Definition tick (g : Globals) (i : TickIn) (l : Locals)
  : Locals * list event * flow :=
  let l0 := process_events (in_events i) l in
  let ev0 := snd (poll_snapshot i) in
  match fst (poll_snapshot i) with
  | None => (l0, ev0 ++ [Sleep (5 # 100)], Continue)
  | Some snap =>
      if watchdog_stalled NO_FRAME_TIMEOUT (in_now i) (_last_frame_time g)
      then (l0, ev0 ++ [Log ERROR "No camera frames -> exiting (watchdog)."],
            Break)
      else
        let l1 := telemetry_block snap i l0 in
        let '(l2, ev2, fl) :=
          if staging_due l1 snap then stage (in_staging i) l1
          else (l1, [], Fallthrough) in
        match fl with
        | Fallthrough =>
            let '(l3, ev3) := trigger i l2 in
            (l3, ev0 ++ ev2 ++ ev3 ++ render g i l3 snap, Fallthrough)
        | other => (l2, ev0 ++ ev2, other)
        end
  end.

(** The ways through the loop body, as a relation between the pass and
    its result. *)
Inductive tick_outcome (g : Globals) (i : TickIn) (l : Locals)
  : Locals * list event * flow -> Prop :=
| tick_no_snapshot :
    fst (poll_snapshot i) = None ->
    tick_outcome g i l
      (process_events (in_events i) l,
       snd (poll_snapshot i) ++ [Sleep (5 # 100)], Continue)
| tick_stalled snap :
    fst (poll_snapshot i) = Some snap ->
    watchdog_stalled NO_FRAME_TIMEOUT (in_now i) (_last_frame_time g) = true ->
    tick_outcome g i l
      (process_events (in_events i) l,
       snd (poll_snapshot i)
         ++ [Log ERROR "No camera frames -> exiting (watchdog)."], Break)
| tick_not_due snap l1 :
    fst (poll_snapshot i) = Some snap ->
    watchdog_stalled NO_FRAME_TIMEOUT (in_now i) (_last_frame_time g) = false ->
    l1 = telemetry_block snap i (process_events (in_events i) l) ->
    staging_due l1 snap = false ->
    tick_outcome g i l
      (fst (trigger i l1),
       snd (poll_snapshot i) ++ [] ++ snd (trigger i l1)
         ++ render g i (fst (trigger i l1)) snap, Fallthrough)
| tick_staged snap l1 l2 ev2 :
    fst (poll_snapshot i) = Some snap ->
    watchdog_stalled NO_FRAME_TIMEOUT (in_now i) (_last_frame_time g) = false ->
    l1 = telemetry_block snap i (process_events (in_events i) l) ->
    staging_due l1 snap = true ->
    stage (in_staging i) l1 = (l2, ev2, Fallthrough) ->
    tick_outcome g i l
      (fst (trigger i l2),
       snd (poll_snapshot i) ++ ev2 ++ snd (trigger i l2)
         ++ render g i (fst (trigger i l2)) snap, Fallthrough)
| tick_stage_left snap l1 l2 ev2 fl :
    fst (poll_snapshot i) = Some snap ->
    watchdog_stalled NO_FRAME_TIMEOUT (in_now i) (_last_frame_time g) = false ->
    l1 = telemetry_block snap i (process_events (in_events i) l) ->
    staging_due l1 snap = true ->
    stage (in_staging i) l1 = (l2, ev2, fl) ->
    fl <> Fallthrough ->
    tick_outcome g i l (l2, snd (poll_snapshot i) ++ ev2, fl).

(** The [while running] loop against a sequence of occurrences: camera
    callbacks and saver passes in between the ticks. The loop test is made
    after each pass; [running] is true when the loop is entered. *)
Fixpoint main_loop (occ : list occurrence) (g : Globals) (l : Locals)
                   (tr : list event)
  : Globals * Locals * list event * loop_state :=
  match occ with
  | [] => (g, l, tr, Looping)
  | Background b :: rest => main_loop rest (background_step false b g) l tr
  | LoopTick i :: rest =>
      let '(l', ev, fl) := tick g i l in
      match fl with
      | Break => (g, l', tr ++ ev, WatchdogStalled)
      | _ => if running l' then main_loop rest g l' (tr ++ ev)
             else (g, l', tr ++ ev, QuitRequested)
      end
  end.

(** [main] from line 296 on: the watchdog baseline, the loop, and, once the
    loop is left, the cleanup; [during_join] is what the other threads do
    while [save_queue.join()] blocks. [None]: the loop has not ended, or
    the cleanup is still blocked in [join]. *)
Definition main (t0 : Q) (occ : list occurrence)
                (during_join : list background) (ci : CleanupIn)
                (g : Globals) (l : Locals) : option (list event) :=
  let '(g1, l1, tr, st) := main_loop occ (set_last_frame_time g t0) l [] in
  match st with
  | Looping => None
  | _ =>
      match queue_join during_join g1 with
      | None => None
      | Some _ => Some (tr ++ cleanup ci l1)
      end
  end.

End ControlLoop.

(* ====================================================================== *)
(** * Set-up, lines 160-282 *)

(** Calls of the set-up. *)
Inductive setup_call : Type :=
| TmSetSynchronous (b : bool)            (* tm.set_synchronous_mode *)
| TmSetLeadingDistance (d : Q)           (* tm.set_global_distance_... *)
| TrySpawnVehicle                        (* world.try_spawn_actor *)
| SetAutopilot (v : actor) (with_tm_port : bool).

(** Lines 161-173: whether [tm] is bound to a traffic manager afterwards.
    [got] is [client.get_trafficmanager(8000)], [sync] and [dist] the two
    settings; an exception of the first setting is swallowed, any other
    leaves [tm = None]. *)
Definition setup_tm (a : Args) (got sync dist : result unit)
  : bool * list setup_call :=
  if tm_off a then (false, [])
  else match got with
       | Raise _ => (false, [])
       | Ok _ =>
           match dist with
           | Ok _ => (true, [TmSetSynchronous false;
                             TmSetLeadingDistance (25 # 10)])
           | Raise _ => (false, [TmSetSynchronous false;
                                 TmSetLeadingDistance (25 # 10)])
           end
       end.

(** Lines 176-185: the settings saved for the cleanup. The two
    [get_settings] calls and [apply_settings] are inputs; any exception
    leaves [original_settings = None]. *)
Definition setup_settings (got again : result WorldSettings)
                          (applied : result unit)
  : option WorldSettings * list event :=
  match got with
  | Raise _ => (None, [Log WARNING "Failed to set server settings"])
  | Ok orig =>
      match again with
      | Raise _ => (None, [Log WARNING "Failed to set server settings"])
      | Ok _ =>
          match applied with
          | Ok _ => (Some orig,
                     [ApplySettings (mkSettings false 0);
                      Log INFO "Applied asynchronous server settings."])
          | Raise _ => (None,
                        [ApplySettings (mkSettings false 0);
                         Log WARNING "Failed to set server settings"])
          end
      end
  end.

(** Lines 214-220 and 275-281: autopilot through the traffic manager's port
    when there is one; when that raises, once more without a port, and an
    exception of the second call is not caught. *)
Definition set_autopilot (tm : bool) (v : actor) (first fallback : result unit)
  : list setup_call * result unit :=
  match first with
  | Ok _ => ([SetAutopilot v tm], Ok tt)
  | Raise _ =>
      match fallback with
      | Ok _ => ([SetAutopilot v tm; SetAutopilot v false], Ok tt)
      | Raise e => ([SetAutopilot v tm; SetAutopilot v false], Raise e)
      end
  end.

(** Lines 204-208, [for _ in range(6)]: [spawn k] is what the [k]-th call
    of [try_spawn_actor] returned. The result and the number of calls
    made. *)
Fixpoint try_spawn_ego (attempts_left k : nat) (spawn : nat -> option actor)
  : option actor * nat :=
  match attempts_left with
  | O => (None, k)
  | S n =>
      match spawn k with
      | Some ego => (Some ego, S k)
      | None => try_spawn_ego n (S k) spawn
      end
  end.

(** Lines 196-211: the blueprint lists of the two filters, the number of
    spawn points of the map, and the spawn answers. *)
Definition spawn_ego (tesla all_vehicles : list string) (n_points : nat)
                     (spawn : nat -> option actor) : result actor * nat :=
  let veh_bps := match tesla with [] => all_vehicles | _ => tesla end in
  match veh_bps with
  | [] => (Raise RuntimeError, 0%nat)
  | _ =>
      if (n_points =? 0)%nat then (Raise IndexError, 0%nat)
      else match try_spawn_ego 6 0 spawn with
           | (Some ego, k) => (Ok ego, k)
           | (None, k) => (Raise RuntimeError, k)
           end
  end.

(** What the simulator answers at one spawn point of lines 262-281. *)
Record SpawnPoint : Type := mkSpawnPoint {
  sp_distance : result Q;        (* sp.location.distance(ego.get_location()) *)
  sp_spawn : option actor;       (* world.try_spawn_actor(bp, sp) *)
  sp_autopilot : result unit;
  sp_autopilot_fallback : result unit
}.

(** Line 266: the point is skipped when it is closer than 8 m to the ego
    vehicle; when the distance cannot be read the point is used. *)
Definition too_close (sp : SpawnPoint) : bool :=
  match sp_distance sp with
  | Ok d => negb (Qle_bool 8 d)
  | Raise _ => false
  end.

(** Lines 262-281: the loop over the shuffled spawn points. The result is
    [vehicles], [spawned_other], the calls made, and whether an exception
    left the loop. *)
Fixpoint spawn_other_vehicles (tm : bool) (points : list SpawnPoint)
                              (vehicles : list actor) (spawned_other : nat)
  : list actor * nat * list setup_call * result unit :=
  match points with
  | [] => (vehicles, spawned_other, [], Ok tt)
  | sp :: rest =>
      if (MAX_OTHER_VEHICLES <=? spawned_other)%nat
      then (vehicles, spawned_other, [], Ok tt)
      else if too_close sp
      then spawn_other_vehicles tm rest vehicles spawned_other
      else
        match sp_spawn sp with
        | None =>
            let '(vs, n, calls, r) :=
              spawn_other_vehicles tm rest vehicles spawned_other in
            (vs, n, TrySpawnVehicle :: calls, r)
        | Some v =>
            let '(auto, r) := set_autopilot tm v (sp_autopilot sp)
                                            (sp_autopilot_fallback sp) in
            match r with
            | Raise e =>
                (vehicles ++ [v], S spawned_other, TrySpawnVehicle :: auto,
                 Raise e)
            | Ok _ =>
                let '(vs, n, calls, r') :=
                  spawn_other_vehicles tm rest (vehicles ++ [v])
                                       (S spawned_other) in
                (vs, n, TrySpawnVehicle :: auto ++ calls, r')
            end
        end
  end.

(** What the simulator answers in the sensor set-up, lines 225-255. *)
Record SensorsIn : Type := mkSensorsIn {
  in_collision_spawn : result actor;  (* find the blueprint, spawn_actor *)
  in_collision_listen : result unit;  (* cs.listen(on_collision) *)
  in_camera_bps : result unit;        (* find and set_attribute, 239-247 *)
  in_cam_front : result actor;        (* world.spawn_actor, line 250 *)
  in_cam_third : result actor;        (* world.spawn_actor, line 251 *)
  in_front_listen : result unit;      (* cam_front.listen, line 254 *)
  in_third_listen : result unit       (* cam_third.listen, line 255 *)
}.

(** Lines 225-255: [sensors] afterwards, the sensors the simulator has
    spawned, in order, and whether an exception leaves the set-up. The
    [try] around the collision sensor swallows its exceptions; those of the
    cameras are not caught here. *)
Definition setup_sensors (si : SensorsIn)
  : list actor * list actor * result unit :=
  let sensors0 :=
    match in_collision_spawn si with
    | Ok cs => [cs]
    | Raise _ => []
    end in
  match in_camera_bps si with
  | Raise e => (sensors0, sensors0, Raise e)
  | Ok _ =>
  match in_cam_front si with
  | Raise e => (sensors0, sensors0, Raise e)
  | Ok cam_front =>
  match in_cam_third si with
  | Raise e => (sensors0, sensors0 ++ [cam_front], Raise e)
  | Ok cam_third =>
      let sensors1 := sensors0 ++ [cam_front; cam_third] in
      match in_front_listen si with
      | Raise e => (sensors1, sensors1, Raise e)
      | Ok _ =>
          match in_third_listen si with
          | Raise e => (sensors1, sensors1, Raise e)
          | Ok _ => (sensors1, sensors1, Ok tt)
          end
      end
  end
  end
  end.

Definition is_try_spawn_vehicle (c : setup_call) : bool :=
  match c with TrySpawnVehicle => true | _ => false end.

(** The spawn points that are not skipped by line 266. *)
Definition usable_points (points : list SpawnPoint) : list SpawnPoint :=
  filter (fun sp => negb (too_close sp)) points.

(** The vehicle the simulator returns at a point, if any. *)
Definition point_vehicle (sp : SpawnPoint) : list actor :=
  match sp_spawn sp with
  | Some v => [v]
  | None => []
  end.

(** The calls made at a point where the simulator is asked: the spawn
    request and, for a vehicle, the autopilot requests. *)
Definition point_calls (tm : bool) (sp : SpawnPoint) : list setup_call :=
  TrySpawnVehicle
  :: match sp_spawn sp with
     | None => []
     | Some v =>
         SetAutopilot v tm
         :: match sp_autopilot sp with
            | Ok _ => []
            | Raise _ => [SetAutopilot v false]
            end
     end.

(** The point gives a vehicle whose two autopilot requests both raise. *)
Definition autopilot_fails_at (sp : SpawnPoint) (e : exn) : Prop :=
  (exists v, sp_spawn sp = Some v)
  /\ (exists e0, sp_autopilot sp = Raise e0)
  /\ sp_autopilot_fallback sp = Raise e.

(* ====================================================================== *)
(** * Notions used in the properties *)

(** The image a stream's callback stores into. *)
Definition stored (s : store_name) (g : Globals) : option Surface :=
  match s with front => front_image g | third => third_image g end.

(** The size test of [reshape]. *)
Definition image_ok (image : Image) : bool :=
  (length (raw_data image) =? height image * width image * 4)%nat.

(** Whether the callback enqueues the frame, with the interval [N]. *)
Definition enqueued_with (N : Z) (f : store_name * Q * Image) : bool :=
  (0 <? N)%Z && (frame (snd f) mod N =? 0)%Z && image_ok (snd f).

Definition task_of (f : store_name * Q * Image) : string * Image :=
  (png_path (fst (fst f)) (snd f), snd f).

(** A run of steps of the other threads. *)
Definition background_steps (stop_event : bool) (bs : list background)
                            (g : Globals) : Globals :=
  fold_left (fun g b => background_step stop_event b g) bs g.

(** The camera frames among the steps of the other threads. *)
Definition camera_frames (bs : list background)
  : list (store_name * Q * Image) :=
  flat_map (fun b => match b with
                     | CameraFrame s now image => [(s, now, image)]
                     | _ => []
                     end) bs.

(** The tasks the saver thread has taken and not finished: one while it
    stands between [get] and [task_done]. *)
Definition saver_holds (g : Globals) : nat :=
  match saver g with Saving _ => 1 | _ => 0 end.

(** The tasks the saver thread can still take once the stop event is set:
    one when it is inside [get], which does not look at the event. *)
Definition saver_may_take (g : Globals) : nat :=
  match saver g with InGet => 1 | _ => 0 end.

(** Every unfinished task is in the queue or in the saver's hands. *)
Definition queue_balanced (g : Globals) : Prop :=
  PyQueue.unfinished_tasks (save_queue g)
  = (length (PyQueue.items (save_queue g)) + saver_holds g)%nat.

(** Whether a call destroys the actor [a]: [a.destroy()], or a batch of
    [DestroyActor] commands that names it. *)
Definition destroys (a : actor) (e : event) : bool :=
  match e with
  | Destroy b => (a =? b)%Z
  | ApplyBatchSync ids => existsb (Z.eqb a) ids
  | _ => false
  end.

(** The calls that concern a crossing walker or its controller. *)
Definition is_walker_call (e : event) : bool :=
  match e with
  | TrySpawnWalker _ => true
  | SpawnController _ => true
  | Destroy _ => true
  | CtrlStart _ => true
  | CtrlGoTo _ _ => true
  | CtrlSetMaxSpeed _ _ => true
  | _ => false
  end.

(** The verdict of the trigger loop on one entry, lines 380-397. *)
Definition is_near (i : TickIn) (p : Location) (sw : StagedWalker) : bool :=
  match in_distance i (sw_walker sw) p with
  | Ok d => negb (Qle_bool (sw_trig sw) d)
  | Raise _ => false
  end.

Definition is_far (i : TickIn) (p : Location) (sw : StagedWalker) : bool :=
  match in_distance i (sw_walker sw) p with
  | Ok d => Qle_bool (sw_trig sw) d
  | Raise _ => false
  end.

(** The calls of the cleanup that the loop has no statement for. *)
Definition is_cleanup_call (e : event) : bool :=
  match e with
  | WriteTelemetryCsv _ => true
  | QueueJoin => true
  | StopSaverSet => true
  | ThreadJoin _ => true
  | ApplyBatchSync _ => true
  | ApplySettings _ => true
  | PygameQuit => true
  | _ => false
  end.

(** What the set-up hands to the loop and the cleanup reads again. *)
Definition setup_state (l : Locals)
  : Args * option WorldSettings * list actor * list actor :=
  (args l, original_settings l, sensors l, vehicles l).

(** The calls that make the control thread wait: [time.sleep] and
    [clock.tick]. *)
Definition is_pacing (e : event) : bool :=
  match e with
  | Sleep _ => true
  | ClockTick _ => true
  | _ => false
  end.

(** The calls on the display, lines 400-419. *)
Definition is_render (e : event) : bool :=
  match e with
  | DisplayFill => true
  | Blit _ => true
  | HudText _ _ _ => true
  | DisplayFlip => true
  | _ => false
  end.

(** The calls of the snapshot poll, the staging step and the trigger
    loop. *)
Definition is_step_call (e : event) : bool :=
  match e with
  | Log _ _ => true
  | TrySpawnWalker _ => true
  | SpawnController _ => true
  | Destroy _ => true
  | CtrlStart _ => true
  | CtrlGoTo _ _ => true
  | CtrlSetMaxSpeed _ _ => true
  | _ => false
  end.

(** Saving is off and nothing is queued. *)
Definition saving_off (g : Globals) : Prop :=
  CAM_SAVE_EVERY_N g = 0%Z /\ save_queue g = PyQueue.empty.

(* ====================================================================== *)
(** * Sample data *)

(** A run of camera callbacks, one after the other. *)
Definition camera_callbacks (frames : list (store_name * Q * Image))
                            (g : Globals) : Globals :=
  fold_left (fun g f => make_camera_callback (fst (fst f)) (snd (fst f))
                                             (snd f) g) frames g.

(** A 1x1 BGRA frame with the given frame number. *)
Definition pixel_image (n : Z) : Image :=
  mkImage n 1 1 [x00; x00; xff; xff]%byte.

(** Frames [0 .. n-1] of the front camera. *)
Definition front_frames (n : nat) : list (store_name * Q * Image) :=
  map (fun k => (front, 0, pixel_image (Z.of_nat k))) (seq 0 n).

(** A staging step whose waypoint lookup finds nothing ahead. *)
Definition staging_nothing_ahead : StagingIn :=
  mkStagingIn (fun p => Ok (mkWaypoint p (mkVector3D 0 1 0)))
              (fun _ _ => Ok []) 1 3 false (fun _ => Ok None) (Ok tt)
              (fun _ => Ok None) (fun _ => Raise RuntimeError) (Ok 3).

(** A staging step in which the simulator spawns [walker] ahead of the ego
    vehicle and answers the controller request with [ctrl]. *)
Definition staging_spawns (walker : actor) (ctrl : result actor) : StagingIn :=
  mkStagingIn (fun p => Ok (mkWaypoint p (mkVector3D 0 1 0)))
              (fun wp d =>
                 Ok [mkWaypoint (loc_add (wp_location wp) (mkVector3D d 0 0))
                                (wp_right wp)])
              1 3 false
              (fun p => Ok (Some (mkWaypoint p (mkVector3D 0 1 0)))) (Ok tt)
              (fun _ => Ok (Some walker)) (fun _ => ctrl) (Ok 3).

(** A pass with a snapshot of the given frame at wall-clock time [now]: no
    pygame event, the ego queries answered, and each staged walker at the
    distance [dist] tells. *)
Definition sample_tick (frame_no : Z) (now : Q) (si : StagingIn)
                       (dist : actor -> result Q) : TickIn :=
  mkTickIn [] (Ok (Some (mkSnapshot frame_no (inject_Z frame_no / 10)))) now
           (Ok (mkLocation 0 0 0)) (Ok (mkVector3D 5 0 0))
           (Ok (mkControl 0 (1 # 2) 0)) si (fun w _ => dist w)
           (fun _ => Ok tt) (fun _ => Ok tt) (fun _ => Ok tt) (fun _ => 1)
           (fun _ => Ok true) (Ok tt).

(** A pass whose snapshot poll raises, with the given pygame events. *)
Definition failed_poll_tick (evs : list pg_event) (now : Q) : TickIn :=
  mkTickIn evs (Raise RuntimeError) now
           (Ok (mkLocation 0 0 0)) (Ok (mkVector3D 5 0 0))
           (Ok (mkControl 0 (1 # 2) 0)) staging_nothing_ahead
           (fun _ _ => Ok 100) (fun _ => Ok tt) (fun _ => Ok tt)
           (fun _ => Ok tt) (fun _ => 1) (fun _ => Ok true) (Ok tt).

(** The locals at loop entry of a run with two cameras and a collision
    sensor, the ego vehicle, and the script's telemetry capacity. *)
Definition sample_locals : Locals :=
  initial_locals (mkArgs false false false false false)
                 (Some (mkSettings true (1 # 20))) [11; 12; 13]%Z [1]%Z
                 MAX_TELEMETRY_ROWS.

Definition sample_cleanup_in : CleanupIn :=
  mkCleanupIn (Ok tt) (fun _ => Ok true) (Ok tt) (fun _ => Ok true) (Ok tt).

(** A stand-in for the float power, for runs that are evaluated. *)
Definition sample_pow (x y : Q) : Q := x.

(** The globals after one sampled frame of the front camera: one task is
    queued. *)
Definition one_task_queued : Globals :=
  make_camera_callback front 0 (pixel_image 0) (initial_globals 0).

(** An unending schedule of the other threads: a sampled camera frame
    (its number a multiple of the interval), then a pass of the saver, and
    so on. *)
Definition busy_schedule (k : nat) : background :=
  if Nat.even k
  then CameraFrame front 0 (pixel_image (60 * Z.of_nat k))
  else SaverPass (Ok tt).

(** Two walkers are staged at the frames 200 and 400 and stay far away; at
    frame 600 the simulator would spawn a third. *)
Definition run_to_cap : list occurrence :=
  [LoopTick (sample_tick 200 0 (staging_spawns 101%Z (Ok 201%Z))
                         (fun _ => Ok 100));
   LoopTick (sample_tick 400 0 (staging_spawns 102%Z (Ok 202%Z))
                         (fun _ => Ok 100));
   LoopTick (sample_tick 600 0 (staging_spawns 103%Z (Ok 203%Z))
                         (fun _ => Ok 100))].

(** Then the distance query of walker 101 raises at frame 601, and at frame
    800 the simulator spawns walker 103. *)
Definition drop_then_stage : list occurrence :=
  [LoopTick (sample_tick 601 0 staging_nothing_ahead
                         (fun w => if (w =? 101)%Z then Raise RuntimeError
                                   else Ok 100));
   LoopTick (sample_tick 800 0 (staging_spawns 103%Z (Ok 203%Z))
                         (fun _ => Ok 100))].

(** Two walkers are staged and triggered one after the other; later
    passes offer further walkers at the frames 600 and 800. *)
Definition run_two_triggered : list occurrence :=
  [LoopTick (sample_tick 200 0 (staging_spawns 101%Z (Ok 201%Z))
                         (fun _ => Ok 5));
   LoopTick (sample_tick 400 0 (staging_spawns 102%Z (Ok 202%Z))
                         (fun _ => Ok 5))].

Definition later_offers : list occurrence :=
  [LoopTick (sample_tick 600 0 (staging_spawns 103%Z (Ok 203%Z))
                         (fun _ => Ok 100));
   LoopTick (sample_tick 800 0 (staging_spawns 104%Z (Ok 204%Z))
                         (fun _ => Ok 100))].

(** Telemetry rows told apart by their frame number. *)
Definition sample_row (n : Z) : TelemetryRow := mkRow n 0 0 0 0 0 0 0 0.

(* ====================================================================== *)
(** * Properties *)

Local Open Scope nat_scope.

(** ** The telemetry ring *)

Module DequeFacts.

Lemma maxlen_append {A : Type} (d : Deque.t A) (x : A) :
  Deque.maxlen (Deque.append d x) = Deque.maxlen d.
Proof. reflexivity. Qed.

(** One append keeps the last [maxlen] items of what was there plus the
    new one, provided the deque was within its capacity. *)
Lemma items_append {A : Type} (d : Deque.t A) (x : A) :
  length (Deque.items d) <= Deque.maxlen d ->
  Deque.items (Deque.append d x)
  = skipn (length (Deque.items d ++ [x]) - Deque.maxlen d)
          (Deque.items d ++ [x]).
Proof.
  intros Hle. unfold Deque.append. cbn [Deque.items Deque.maxlen].
  rewrite length_app. cbn [length].
  destruct (Nat.ltb_spec (Deque.maxlen d) (length (Deque.items d) + 1))
    as [Hlt|Hge].
  - replace (length (Deque.items d) + 1 - Deque.maxlen d) with 1 by lia.
    destruct (Deque.items d ++ [x]); reflexivity.
  - replace (length (Deque.items d) + 1 - Deque.maxlen d) with 0 by lia.
    reflexivity.
Qed.

Lemma length_append {A : Type} (d : Deque.t A) (x : A) :
  length (Deque.items d) <= Deque.maxlen d ->
  length (Deque.items (Deque.append d x)) <= Deque.maxlen d.
Proof.
  intros Hle. rewrite items_append by exact Hle.
  rewrite length_skipn, length_app. cbn [length]. lia.
Qed.

(** Appending [xs] to a deque holding [pre], from within capacity: the
    last [maxlen] items of [pre ++ xs] are kept. *)
Lemma items_appends {A : Type} (xs : list A) :
  forall d : Deque.t A,
    length (Deque.items d) <= Deque.maxlen d ->
    Deque.items (Deque.appends d xs)
    = skipn (length (Deque.items d ++ xs) - Deque.maxlen d)
            (Deque.items d ++ xs)
    /\ length (Deque.items (Deque.appends d xs)) <= Deque.maxlen d.
Proof.
  induction xs as [|x xs IH]; intros d Hle.
  - cbn [Deque.appends fold_left]. rewrite app_nil_r.
    replace (length (Deque.items d) - Deque.maxlen d) with 0 by lia.
    split; [reflexivity | exact Hle].
  - change (Deque.appends d (x :: xs))
      with (Deque.appends (Deque.append d x) xs).
    pose proof (length_append d x Hle) as Hle'.
    rewrite <- (maxlen_append d x) in Hle'.
    destruct (IH _ Hle') as [Hit Hlen].
    rewrite maxlen_append in Hit, Hlen. split; [|exact Hlen].
    rewrite Hit, (items_append d x Hle).
    set (l := Deque.items d ++ [x]).
    set (c := Deque.maxlen d).
    replace (Deque.items d ++ x :: xs) with (l ++ xs)
      by (unfold l; rewrite <- app_assoc; reflexivity).
    assert (Hk : skipn (length l - c) l ++ xs
                 = skipn (length l - c) (l ++ xs)).
    { rewrite skipn_app.
      replace (length l - c - length l) with 0 by lia. reflexivity. }
    rewrite Hk, skipn_skipn. f_equal.
    rewrite length_skipn, !length_app. lia.
Qed.

End DequeFacts.

(** C3. For every capacity [C] and every sequence [rs] of appends to the
    telemetry ring [deque(maxlen=C)], starting empty: after any number of
    the appends the ring holds at most [C] rows, and after all of them it
    holds the last [C] rows of [rs] in append order. When [rs] has [C + 1]
    rows, the ring holds exactly the [C] rows after the first one, in
    order, and the first row is gone (it does not occur in the ring, the rows
    being distinct). *)
Theorem telemetry_ring_keeps_most_recent (C : nat) (rs : list TelemetryRow) :
  let ring := fun xs => Deque.appends (Deque.empty C) xs in
  (forall n, Deque.len (ring (firstn n rs)) <= C)
  /\ Deque.to_list (ring rs) = skipn (length rs - C) rs
  /\ (length rs = C + 1 ->
      Deque.to_list (ring rs) = tl rs
      /\ Deque.len (ring rs) = C
      /\ (NoDup rs -> forall r0, hd_error rs = Some r0 ->
                                 ~ In r0 (Deque.to_list (ring rs)))).
Proof.
  intros ring.
  assert (Hall : forall xs,
             Deque.items (ring xs) = skipn (length xs - C) xs
             /\ length (Deque.items (ring xs)) <= C).
  { intros xs. unfold ring.
    destruct (@DequeFacts.items_appends _ xs (Deque.empty C)) as [H1 H2];
      [cbn; lia | exact (conj H1 H2)]. }
  split; [intros n; apply (Hall (firstn n rs)) |].
  split; [apply (Hall rs) |].
  intros Hlen.
  assert (Htl : Deque.to_list (ring rs) = tl rs).
  { unfold Deque.to_list. rewrite (proj1 (Hall rs)).
    replace (length rs - C) with 1 by lia.
    destruct rs; reflexivity. }
  split; [exact Htl |].
  split.
  - unfold Deque.len. fold (Deque.to_list (ring rs)). rewrite Htl.
    destruct rs; cbn in *; lia.
  - intros Hnd r0 Hhd. rewrite Htl.
    destruct rs as [|r rs']; [discriminate|].
    cbn in Hhd. injection Hhd as <-. cbn.
    inversion Hnd; assumption.
Qed.

Lemma telemetry_ring_keeps_most_recent_witness :
  Deque.to_list (Deque.appends (Deque.empty 3)
                   [sample_row 1; sample_row 2; sample_row 3; sample_row 4])
  = [sample_row 2; sample_row 3; sample_row 4]
  /\ ~ In (sample_row 1)
         (Deque.to_list (Deque.appends (Deque.empty 3)
            [sample_row 1; sample_row 2; sample_row 3; sample_row 4])).
Proof.
  pose proof (telemetry_ring_keeps_most_recent 3
                [sample_row 1; sample_row 2; sample_row 3; sample_row 4]) as H.
  cbv zeta in H. destruct H as (_ & _ & H).
  destruct (H eq_refl) as (Htl & _ & Hnd).
  split; [exact Htl |].
  apply Hnd; [| reflexivity].
  repeat constructor; cbn; intros Hin;
    repeat (destruct Hin as [Hin|Hin]; [discriminate Hin |]); exact Hin.
Defined.

(** ** The camera callback *)

Lemma string_length_app (a b : string) :
  String.length (a ++ b) = String.length a + String.length b.
Proof. induction a as [|c a IH]; cbn; [reflexivity | now rewrite IH]. Qed.

Lemma length_zeros (n : nat) : String.length (zeros n) = n.
Proof. induction n as [|n IH]; cbn; [reflexivity | now rewrite IH]. Qed.

Lemma format_06d_width (z : Z) : 6 <= String.length (format_06d z).
Proof.
  unfold format_06d. destruct (z <? 0)%Z; cbn [String.length];
    rewrite string_length_app, length_zeros; lia.
Qed.

Lemma callback_keeps_interval s now image g :
  CAM_SAVE_EVERY_N (make_camera_callback s now image g) = CAM_SAVE_EVERY_N g.
Proof.
  unfold make_camera_callback, callback_body.
  destruct (to_surface_from_image image); [|reflexivity].
  destruct s; cbn;
    match goal with |- context [if ?c then _ else _] => destruct c end;
    reflexivity.
Qed.

Lemma callback_keeps_saver s now image g :
  saver (make_camera_callback s now image g) = saver g.
Proof.
  unfold make_camera_callback, callback_body.
  destruct (to_surface_from_image image); [|reflexivity].
  destruct s; cbn;
    match goal with |- context [if ?c then _ else _] => destruct c end;
    reflexivity.
Qed.

Lemma callback_interval_zero s now image g :
  CAM_SAVE_EVERY_N g = 0%Z ->
  save_queue (make_camera_callback s now image g) = save_queue g.
Proof.
  intros HN. unfold make_camera_callback, callback_body.
  destruct (to_surface_from_image image); [|reflexivity].
  destruct s; cbn; rewrite HN; reflexivity.
Qed.

Lemma callbacks_interval_zero frames :
  forall g, CAM_SAVE_EVERY_N g = 0%Z ->
            save_queue (camera_callbacks frames g) = save_queue g.
Proof.
  induction frames as [|[[s now] image] frames IH]; intros g HN;
    [reflexivity|].
  unfold camera_callbacks in *. cbn [fold_left fst snd].
  rewrite IH by (rewrite callback_keeps_interval; exact HN).
  apply callback_interval_zero, HN.
Qed.

Lemma list_ascii_of_string_app (a b : string) :
  list_ascii_of_string (a ++ b)
  = list_ascii_of_string a ++ list_ascii_of_string b.
Proof. induction a as [|c a IH]; cbn; [reflexivity | now rewrite IH]. Qed.

Lemma string_app_inv_tail (x y t : string) :
  (x ++ t)%string = (y ++ t)%string -> x = y.
Proof.
  intros H. apply (f_equal list_ascii_of_string) in H.
  rewrite !list_ascii_of_string_app in H. apply app_inv_tail in H.
  rewrite <- (string_of_list_ascii_of_string x),
          <- (string_of_list_ascii_of_string y), H.
  reflexivity.
Qed.

Lemma string_app_inv_head (h x y : string) :
  (h ++ x)%string = (h ++ y)%string -> x = y.
Proof.
  induction h as [|c h IH]; cbn; intros H; [exact H|].
  injection H as H. exact (IH H).
Qed.

Lemma uint_of_zeros (k : nat) (t : string) :
  NilEmpty.uint_of_string (zeros k ++ t)
  = option_map (Nat.iter k D0) (NilEmpty.uint_of_string t).
Proof.
  induction k as [|k IH]; cbn [zeros String.append Nat.iter].
  - destruct (NilEmpty.uint_of_string t); reflexivity.
  - cbn [NilEmpty.uint_of_string]. rewrite IH.
    destruct (NilEmpty.uint_of_string t); reflexivity.
Qed.

Lemma of_uint_leading_zeros (k : nat) (d : uint) :
  N.of_uint (Nat.iter k D0 d) = N.of_uint d.
Proof. induction k as [|k IH]; [reflexivity | exact IH]. Qed.

Lemma uint_of_digits (n : N) :
  option_map N.of_uint (NilEmpty.uint_of_string (digits_of n)) = Some n.
Proof.
  unfold digits_of, NilZero.string_of_uint.
  pose proof (DecimalN.Unsigned.of_to n) as Hn.
  destruct (N.to_uint n) eqn:Hd;
    try (rewrite NilEmpty.usu; cbn [option_map]; now rewrite Hn).
  cbn. now rewrite <- Hn.
Qed.

(** Reading the digits of [f"{z:06d}"] back gives [z], for [z >= 0]. *)
Lemma format_06d_read_back (z : Z) :
  (0 <= z)%Z ->
  option_map N.of_uint (NilEmpty.uint_of_string (format_06d z))
  = Some (Z.to_N z).
Proof.
  intros Hz. unfold format_06d.
  destruct (Z.ltb_spec z 0) as [Hneg|_]; [lia|].
  rewrite uint_of_zeros.
  pose proof (uint_of_digits (Z.abs_N z)) as Hd.
  destruct (NilEmpty.uint_of_string (digits_of (Z.abs_N z))) as [d|];
    [|discriminate].
  cbn [option_map] in *. rewrite of_uint_leading_zeros.
  injection Hd as ->. f_equal. destruct z; try reflexivity. lia.
Qed.

Lemma format_06d_no_sep (z : Z) (t : string) :
  starts_with_sep (format_06d z ++ t) = false.
Proof.
  unfold format_06d. destruct (z <? 0)%Z; [reflexivity|].
  destruct (6 - String.length (digits_of (Z.abs_N z))) as [|k];
    [|reflexivity].
  cbn [zeros String.append]. unfold digits_of, NilZero.string_of_uint.
  destruct (N.to_uint (Z.abs_N z)); reflexivity.
Qed.

Lemma png_path_parts (s : store_name) (image : Image) :
  png_path s image
  = (target_dir s ++ "/" ++ format_06d (frame image) ++ ".png")%string.
Proof.
  unfold png_path, os_path_join. rewrite format_06d_no_sep.
  destruct s; reflexivity.
Qed.

(** [N.to_uint] writes no leading zero. *)
Lemma to_uint_no_leading_zero (n : N) (d : uint) :
  N.to_uint n = D0 d -> d = Nil.
Proof.
  intros H.
  assert (Hnorm : unorm (N.to_uint n) = N.to_uint n)
    by (rewrite <- Unsigned.to_of, Unsigned.of_to; reflexivity).
  rewrite H, unorm_D0 in Hnorm.
  destruct d; [reflexivity | | | | | | | | | |];
    match goal with
    | H : unorm ?u = _ |- _ =>
        pose proof (@nb_digits_unorm u ltac:(discriminate)) as Hle;
        rewrite H in Hle; cbn [nb_digits] in Hle; lia
    end.
Qed.

(** [f"{z:06d}"] pads to six characters and no further: a longer string
    does not begin with a zero. *)
Lemma format_06d_minimal (z : Z) :
  (0 <= z)%Z ->
  String.length (format_06d z) = 6
  \/ String.get 0 (format_06d z) <> Some "0"%char.
Proof.
  intros Hz. unfold format_06d.
  destruct (Z.ltb_spec z 0) as [Hneg|_]; [lia|].
  destruct (le_lt_dec (String.length (digits_of (Z.abs_N z))) 6) as [Hle|Hgt].
  - left. rewrite string_length_app, length_zeros. lia.
  - right. replace (6 - String.length (digits_of (Z.abs_N z))) with 0 by lia.
    cbn [zeros String.append]. revert Hgt.
    unfold digits_of, NilZero.string_of_uint.
    destruct (N.to_uint (Z.abs_N z)) as [|d|d|d|d|d|d|d|d|d|d] eqn:Hd;
      cbn [NilEmpty.string_of_uint String.get String.length];
      try discriminate; try (intros Hgt; lia).
    apply to_uint_no_leading_zero in Hd. subst d. cbn. lia.
Qed.

(** C2. With a sampling interval [N > 0], the callback of a stream enqueues
    the frame with number [s] exactly when [s mod N = 0], and then as one
    task for one file: its path is [carla_dataset/front_camera] for the
    front stream and [carla_dataset/third_person_camera] for the other, a
    separator, the file name and [.png]. The file name has at least six
    characters and, for a frame number that is not negative, is its decimal
    numeral filled with zeros on the left to six characters and no
    further: it reads back as the frame number, and it is six characters
    long or does not begin with a zero. With [N = 0] no callback enqueues
    anything, and [--no-save] makes [N] zero. *)
Theorem camera_frame_enqueued_iff_sampled
    (s : store_name) (now : Q) (image : Image) (g : Globals) (a : Args) :
  image_well_formed image ->
  let N := CAM_SAVE_EVERY_N g in
  let q' := save_queue (make_camera_callback s now image g) in
  let dir := match s with
             | front => "carla_dataset/front_camera"%string
             | third => "carla_dataset/third_person_camera"%string
             end in
  ((0 < N)%Z ->
     ((frame image mod N = 0)%Z
      /\ exists digits,
           q' = PyQueue.put (save_queue g)
                  ((dir ++ "/" ++ digits ++ ".png")%string, image)
           /\ 6 <= String.length digits
           /\ ((0 <= frame image)%Z ->
               option_map N.of_uint (NilEmpty.uint_of_string digits)
               = Some (Z.to_N (frame image))
               /\ (String.length digits = 6
                   \/ String.get 0 digits <> Some "0"%char)))
     \/ ((frame image mod N <> 0)%Z /\ q' = save_queue g))
  /\ (N = 0%Z ->
      forall frames, save_queue (camera_callbacks frames g) = save_queue g)
  /\ (no_save a = true -> CAM_SAVE_EVERY_N (apply_no_save a g) = 0%Z).
Proof.
  intros Hwf N q' dir. split; [|split].
  - intros HN. subst q'. unfold make_camera_callback, callback_body.
    unfold to_surface_from_image. red in Hwf. rewrite Hwf, Nat.eqb_refl.
    assert (Hpos : (0 <? N)%Z = true) by (apply Z.ltb_lt; exact HN).
    destruct (Z.eqb_spec (frame image mod N) 0) as [Hmod|Hmod].
    + left. split; [exact Hmod|].
      exists (format_06d (frame image)).
      split; [|split; [apply format_06d_width|]].
      * replace (dir ++ "/" ++ format_06d (frame image) ++ ".png")%string
          with (png_path s image)
          by (rewrite png_path_parts; subst dir; destruct s; reflexivity).
        destruct s; cbn; fold N; rewrite Hpos, Hmod; reflexivity.
      * intros Hz. split;
          [apply format_06d_read_back, Hz | apply format_06d_minimal, Hz].
    + right. split; [exact Hmod|].
      apply Z.eqb_neq in Hmod.
      destruct s; cbn; fold N; rewrite Hpos, Hmod; reflexivity.
  - intros HN frames. apply callbacks_interval_zero, HN.
  - intros Hns. unfold apply_no_save. rewrite Hns. reflexivity.
Qed.

Lemma camera_frame_enqueued_iff_sampled_witness :
  (exists digits,
      save_queue (make_camera_callback third 0 (pixel_image 1234560)
                    (initial_globals 0))
      = PyQueue.put PyQueue.empty
          (("carla_dataset/third_person_camera" ++ "/" ++ digits ++ ".png")
             %string, pixel_image 1234560)
      /\ option_map N.of_uint (NilEmpty.uint_of_string digits)
         = Some 1234560%N)
  /\ (exists digits,
        save_queue (make_camera_callback front 0 (pixel_image 120)
                      (initial_globals 0))
        = PyQueue.put PyQueue.empty
            (("carla_dataset/front_camera" ++ "/" ++ digits ++ ".png")
               %string, pixel_image 120)
        /\ String.length digits = 6)
  /\ save_queue (make_camera_callback front 0 (pixel_image 61)
                   (initial_globals 0))
     = PyQueue.empty
  /\ CAM_SAVE_EVERY_N
       (apply_no_save (mkArgs true false false false false)
                      (initial_globals 0)) = 0%Z.
Proof.
  assert (Hwf : forall n, image_well_formed (pixel_image n))
    by (intros n; reflexivity).
  split; [|split; [|split]].
  - destruct (camera_frame_enqueued_iff_sampled third 0 (initial_globals 0)
                (mkArgs true false false false false) (Hwf 1234560%Z))
      as (H & _ & _).
    destruct (H eq_refl) as [(_ & digits & Hq & _ & Hd) | (Hmod & _)].
    + exists digits. split; [exact Hq|].
      apply Hd. discriminate.
    + exfalso. apply Hmod. reflexivity.
  - destruct (camera_frame_enqueued_iff_sampled front 0 (initial_globals 0)
                (mkArgs true false false false false) (Hwf 120%Z))
      as (H & _ & _).
    destruct (H eq_refl) as [(_ & digits & Hq & _ & Hd) | (Hmod & _)].
    + exists digits. split; [exact Hq|].
      destruct Hd as [Hback [Hlen|Hnz]]; [discriminate | exact Hlen |].
      exfalso. apply Hnz.
      apply (f_equal (fun q => map fst (PyQueue.items q))) in Hq.
      vm_compute in Hq. injection Hq as Hq.
      destruct digits as [|c digits]; [discriminate Hq|].
      injection Hq as <- _. reflexivity.
    + exfalso. apply Hmod. reflexivity.
  - destruct (camera_frame_enqueued_iff_sampled front 0 (initial_globals 0)
                (mkArgs true false false false false) (Hwf 61%Z))
      as (H & _ & _).
    destruct (H eq_refl) as [(Hmod & _) | (_ & Hq)].
    + discriminate Hmod.
    + exact Hq.
  - apply (camera_frame_enqueued_iff_sampled front 0 (initial_globals 0)
             (mkArgs true false false false false) (Hwf 0%Z)).
    reflexivity.
Defined.

Example png_path_front_60 :
  png_path front (pixel_image 60) = "carla_dataset/front_camera/000060.png"%string.
Proof. reflexivity. Qed.

Example png_path_third_1234560 :
  png_path third (pixel_image 1234560)
  = "carla_dataset/third_person_camera/1234560.png"%string.
Proof. reflexivity. Qed.

(** Interval 60, frames 0..179 on the front stream: three tasks, for the
    frames 0, 60 and 120. *)
Example front_frames_180_sampled :
  map fst (PyQueue.items
             (save_queue (camera_callbacks (front_frames 180)
                                           (initial_globals 0))))
  = ["carla_dataset/front_camera/000000.png";
     "carla_dataset/front_camera/000060.png";
     "carla_dataset/front_camera/000120.png"]%string.
Proof. vm_compute. reflexivity. Qed.

(** ** Steps of the loop body *)

Ltac destruct_match :=
  match goal with
  | |- context [match ?x with _ => _ end] =>
      lazymatch x with
      | context [match _ with _ => _ end] => fail
      | _ => destruct x eqn:?
      end
  end.

(** The calls only the staging step issues. *)
Definition is_staging_call (e : event) : bool :=
  match e with
  | TrySpawnWalker _ => true
  | SpawnController _ => true
  | _ => false
  end.

Lemma process_events_fields evs l :
  let l' := process_events evs l in
  walkers l' = walkers l /\ walker_controllers l' = walker_controllers l
  /\ staged_walkers l' = staged_walkers l /\ telemetry l' = telemetry l
  /\ spawn_attempts l' = spawn_attempts l /\ args l' = args l
  /\ ego_location l' = ego_location l.
Proof.
  unfold process_events. destruct (existsb is_quit evs); cbn; repeat split.
Qed.

Lemma process_events_running evs l :
  running (process_events evs l)
  = if existsb is_quit evs then false else running l.
Proof. unfold process_events. destruct (existsb is_quit evs); reflexivity. Qed.

(** The staging step changes nothing, or appends one entry: the walker the
    simulator spawned, with the controller it attached. *)
Lemma stage_cases si l :
  forall l' ev fl, stage si l = (l', ev, fl) ->
    l' = l
    \/ (exists sw, l' = stage_walker l sw /\ fl = Fallthrough
                   /\ in_spawn_ctrl si (sw_walker sw) = Ok (sw_ctrl sw)).
Proof.
  intros l' ev fl. unfold stage, stage_body.
  repeat destruct_match; intros H; inversion H; subst; auto.
  all: right; eexists; split; [reflexivity|]; split; [reflexivity|];
    cbn; assumption.
Qed.

(** One pass of the trigger loop moves the entry to [walkers], keeps it in
    [remaining], or drops it. *)
Lemma trigger_one_cases i el t sw :
  let t' := trigger_one i el t sw in
  (t_walkers t' = t_walkers t ++ [sw_walker sw]
   /\ t_controllers t' = t_controllers t ++ [sw_ctrl sw]
   /\ t_remaining t' = t_remaining t)
  \/ (t_walkers t' = t_walkers t /\ t_controllers t' = t_controllers t
      /\ t_remaining t' = t_remaining t ++ [sw])
  \/ (t_walkers t' = t_walkers t /\ t_controllers t' = t_controllers t
      /\ t_remaining t' = t_remaining t
      /\ (el = None \/ exists p e, el = Some p
                                   /\ in_distance i (sw_walker sw) p = Raise e)).
Proof.
  unfold trigger_one. destruct el as [p|].
  - destruct (in_distance i (sw_walker sw) p) as [d|e] eqn:Hd.
    + destruct (negb (Qle_bool (sw_trig sw) d)); cbn; auto.
    + cbn. right. right. repeat split. right. eauto.
  - cbn. right. right. repeat split. left. reflexivity.
Qed.

(** After the loop: [walkers] has grown by some of the walkers of the
    entries, [remaining] by some of the entries, and none was counted
    twice. *)
Lemma trigger_loop_spec i el todo :
  forall t, let t' := trigger_loop i el t todo in
    exists ws rem,
      t_walkers t' = t_walkers t ++ ws
      /\ t_remaining t' = t_remaining t ++ rem
      /\ length ws + length rem <= length todo
      /\ incl ws (map sw_walker todo)
      /\ incl rem todo.
Proof.
  induction todo as [|sw todo IH]; intros t; cbn zeta.
  - exists [], []. cbn. rewrite !app_nil_r.
    repeat split; auto using incl_nil_l.
  - change (trigger_loop i el t (sw :: todo))
      with (trigger_loop i el (trigger_one i el t sw) todo).
    destruct (IH (trigger_one i el t sw)) as (ws & rem & Hw & Hr & Hlen & Hiw & Hir).
    destruct (trigger_one_cases i el t sw)
      as [(Ew & _ & Er) | [(Ew & _ & Er) | (Ew & _ & Er & _)]];
      rewrite Ew in Hw; rewrite Er in Hr.
    + exists (sw_walker sw :: ws), rem. rewrite <- app_assoc in Hw.
      repeat split; try assumption; cbn; try lia.
      * apply incl_cons; [left; reflexivity | apply incl_tl, Hiw].
      * apply incl_tl, Hir.
    + exists ws, (sw :: rem). rewrite <- app_assoc in Hr.
      repeat split; try assumption; cbn; try lia.
      * apply incl_tl, Hiw.
      * apply incl_cons; [left; reflexivity | apply incl_tl, Hir].
    + exists ws, rem.
      repeat split; try assumption; cbn; try lia.
      * apply incl_tl, Hiw.
      * apply incl_tl, Hir.
Qed.

Lemma trigger_fields i l :
  let l' := fst (trigger i l) in
  telemetry l' = telemetry l /\ spawn_attempts l' = spawn_attempts l
  /\ args l' = args l /\ running l' = running l
  /\ ego_location l' = ego_location l.
Proof. cbn. repeat split. Qed.

Lemma trigger_crossers i l :
  let l' := fst (trigger i l) in
  exists ws rem,
    walkers l' = walkers l ++ ws /\ staged_walkers l' = rem
    /\ length ws + length rem <= length (staged_walkers l)
    /\ incl ws (map sw_walker (staged_walkers l))
    /\ incl rem (staged_walkers l).
Proof.
  cbn zeta. unfold trigger. cbn [fst set_crossers walkers staged_walkers].
  destruct (trigger_loop_spec i (ego_location l) (staged_walkers l)
              (mkTrig (walkers l) (walker_controllers l) [] []))
    as (ws & rem & Hw & Hr & Hlen & Hiw & Hir).
  cbn in Hw, Hr. exists ws, rem. auto.
Qed.

Lemma trigger_one_no_spawn i el t sw :
  forallb (fun e => negb (is_staging_call e)) (t_events t) = true ->
  forallb (fun e => negb (is_staging_call e))
          (t_events (trigger_one i el t sw)) = true.
Proof.
  intros H. unfold trigger_one, controller_commands.
  repeat destruct_match; cbn [t_events];
    rewrite ?forallb_app, ?H; reflexivity.
Qed.

Lemma trigger_loop_no_spawn i el todo :
  forall t,
    forallb (fun e => negb (is_staging_call e)) (t_events t) = true ->
    forallb (fun e => negb (is_staging_call e))
            (t_events (trigger_loop i el t todo)) = true.
Proof.
  induction todo as [|sw todo IH]; intros t H; [exact H|].
  change (trigger_loop i el t (sw :: todo))
    with (trigger_loop i el (trigger_one i el t sw) todo).
  apply IH, trigger_one_no_spawn, H.
Qed.

Lemma trigger_no_spawn i l :
  forallb (fun e => negb (is_staging_call e)) (snd (trigger i l)) = true.
Proof.
  unfold trigger. cbn [snd]. apply trigger_loop_no_spawn. reflexivity.
Qed.

Lemma render_no_spawn g i l snap :
  forallb (fun e => negb (is_staging_call e)) (render g i l snap) = true.
Proof.
  unfold render. repeat destruct_match; reflexivity.
Qed.

Section LoopFacts.

Variable float_pow : Q -> Q -> Q.

(** Line 327 raises on every pass: the block changes [ego_location] at
    most. *)
Lemma telemetry_block_cases snap i l :
  telemetry_block float_pow snap i l = l
  \/ exists p, telemetry_block float_pow snap i l = set_ego_location l p.
Proof.
  unfold telemetry_block, try_pass, bind, call, assign.
  destruct (in_transform i) as [p|]; [|left; reflexivity].
  right. exists p.
  destruct (in_velocity i); [|reflexivity].
  destruct (in_control i); reflexivity.
Qed.

Lemma telemetry_block_fields snap i l :
  let l' := telemetry_block float_pow snap i l in
  walkers l' = walkers l /\ walker_controllers l' = walker_controllers l
  /\ staged_walkers l' = staged_walkers l /\ telemetry l' = telemetry l
  /\ spawn_attempts l' = spawn_attempts l /\ args l' = args l
  /\ running l' = running l.
Proof.
  cbn zeta. destruct (telemetry_block_cases snap i l) as [-> | [p ->]];
    repeat split.
Qed.

Lemma tick_outcome_holds g i l :
  tick_outcome float_pow g i l (tick float_pow g i l).
Proof.
  unfold tick.
  destruct (fst (poll_snapshot i)) as [snap|] eqn:Hs;
    [| apply tick_no_snapshot; exact Hs].
  destruct (watchdog_stalled NO_FRAME_TIMEOUT (in_now i) (_last_frame_time g))
    eqn:Hw; [eapply tick_stalled; eassumption |].
  set (l1 := telemetry_block float_pow snap i (process_events (in_events i) l)).
  destruct (staging_due l1 snap) eqn:Hd.
  - destruct (stage (in_staging i) l1) as [[l2 ev2] fl] eqn:Hst.
    destruct fl.
    + destruct (trigger i l2) as [l3 ev3] eqn:Ht.
      replace l3 with (fst (trigger i l2)) by (rewrite Ht; reflexivity).
      replace ev3 with (snd (trigger i l2)) by (rewrite Ht; reflexivity).
      eapply tick_staged; eauto.
    + eapply tick_stage_left; eauto. discriminate.
    + eapply tick_stage_left; eauto. discriminate.
  - destruct (trigger i l1) as [l3 ev3] eqn:Ht.
    replace l3 with (fst (trigger i l1)) by (rewrite Ht; reflexivity).
    replace ev3 with (snd (trigger i l1)) by (rewrite Ht; reflexivity).
    eapply tick_not_due; eauto.
Qed.

(** A property of the locals that every pass keeps holds after the loop. *)
Lemma main_loop_invariant (P : Locals -> Prop) (occ : list occurrence) :
  (forall g i l, In (LoopTick i) occ -> P l ->
                 P (fst (fst (tick float_pow g i l)))) ->
  forall g l tr, P l -> P (loop_locals (main_loop float_pow occ g l tr)).
Proof.
  induction occ as [|o occ IH]; intros Hstep g l tr HP; [exact HP|].
  assert (Hrest : forall g i l, In (LoopTick i) occ -> P l ->
                                P (fst (fst (tick float_pow g i l))))
    by (intros; apply Hstep; [right|]; assumption).
  destruct o as [b|i]; cbn [main_loop]; [apply IH; assumption|].
  specialize (Hstep g i l (or_introl eq_refl) HP).
  destruct (tick float_pow g i l) as [[l' ev] fl]. cbn in Hstep.
  destruct fl; try (destruct (running l'); [apply IH; assumption|]);
    exact Hstep.
Qed.

End LoopFacts.

(** ** Telemetry *)

Lemma tick_telemetry float_pow g i l :
  telemetry (fst (fst (tick float_pow g i l))) = telemetry l.
Proof.
  destruct (process_events_fields (in_events i) l)
    as (_ & _ & _ & Hev & _).
  cbv zeta in Hev.
  assert (H1 : forall snap,
             telemetry (telemetry_block float_pow snap i
                          (process_events (in_events i) l)) = telemetry l).
  { intros snap.
    destruct (telemetry_block_fields float_pow snap i
                (process_events (in_events i) l)) as (_ & _ & _ & -> & _).
    exact Hev. }
  assert (H2 : forall snap l2 ev2 fl,
             stage (in_staging i)
                   (telemetry_block float_pow snap i
                      (process_events (in_events i) l)) = (l2, ev2, fl) ->
             telemetry l2 = telemetry l).
  { intros snap l2 ev2 fl Hst.
    destruct (stage_cases _ _ Hst) as [-> | (sw & -> & _)]; apply H1. }
  generalize (tick_outcome_holds float_pow g i l).
  generalize (tick float_pow g i l). intros r H.
  destruct H as [Hs | snap Hs Hw | snap l1 Hs Hw Hl1 Hd
                 | snap l1 l2 ev2 Hs Hw Hl1 Hd Hst
                 | snap l1 l2 ev2 fl Hs Hw Hl1 Hd Hst Hfl];
    cbn [fst]; try exact Hev; try subst l1.
  - destruct (trigger_fields i (telemetry_block float_pow snap i
                                  (process_events (in_events i) l)))
      as (-> & _). apply H1.
  - destruct (trigger_fields i l2) as (-> & _). exact (H2 _ _ _ _ Hst).
  - exact (H2 _ _ _ _ Hst).
Qed.

(** C1 (the code departs from it). No pass through the loop body appends
    to the telemetry ring, not even one with a snapshot, a passing watchdog
    check and every ego query answered: the attribute assignment of line
    327 raises [AttributeError] on the deque, the handler of lines 331-332
    swallows it, and the [append] of line 328 is never reached. Over a whole
    run the ring is as empty as at loop entry, and the cleanup writes no
    telemetry file. *)
Theorem tick_appends_no_telemetry (float_pow : Q -> Q -> Q) :
  (forall g i l, telemetry (fst (fst (tick float_pow g i l))) = telemetry l)
  /\ (forall occ g a orig ss vs capacity tr ci,
        let l := loop_locals (main_loop float_pow occ g
                                (initial_locals a orig ss vs capacity) tr) in
        telemetry l = Deque.empty capacity
        /\ forall rows, ~ In (WriteTelemetryCsv rows) (cleanup ci l)).
Proof.
  split; [exact (tick_telemetry float_pow)|].
  intros occ g a orig ss vs capacity tr ci l.
  assert (Hl : telemetry l = Deque.empty capacity).
  { subst l. apply (main_loop_invariant float_pow
                      (fun l => telemetry l = Deque.empty capacity)).
    - intros g' i l' _ Hl'. rewrite tick_telemetry. exact Hl'.
    - reflexivity. }
  split; [exact Hl|]. intros rows Hin.
  unfold cleanup, cleanup_until_join, cleanup_after_join in Hin.
  rewrite Hl in Hin. cbn [Deque.truthy Deque.empty Deque.items] in Hin.
  repeat (apply in_app_or in Hin; destruct Hin as [Hin|Hin]);
    repeat (destruct Hin as [Hin|Hin]; try discriminate Hin);
    try contradiction.
  - destruct (filter _ _) as [|a0 al]; [contradiction|].
    destruct Hin as [Hin|Hin]; [discriminate|].
    destruct (in_batch ci); [contradiction|].
    destruct Hin as [Hin|Hin]; [discriminate|].
    apply in_map_iff in Hin. destruct Hin as (x & Hx & _). discriminate.
  - destruct (original_settings _); [|contradiction].
    destruct Hin as [Hin|[]]. discriminate.
Qed.

(** A pass at frame 1 with a fresh camera frame and all ego queries
    answered: the ring is still empty afterwards. *)
Example tick_frame_1_appends_nothing :
  Deque.to_list
    (telemetry (fst (fst (tick sample_pow (initial_globals 0)
                            (sample_tick 1 0 staging_nothing_ahead
                                         (fun _ => Ok 100%Q))
                            sample_locals))))
  = [].
Proof. reflexivity. Qed.

(** ** The watchdog *)

Lemma watchdog_stalled_iff (threshold now last : Q) :
  watchdog_stalled threshold now last = true <-> (threshold < now - last)%Q.
Proof.
  unfold watchdog_stalled. rewrite negb_true_iff. split.
  - intros Hb. apply Qnot_le_lt. intros Hle.
    apply Qle_bool_iff in Hle. congruence.
  - intros Hlt. destruct (Qle_bool (now - last) threshold) eqn:Hb;
      [|reflexivity].
    apply Qle_bool_iff in Hb. exfalso. exact (Qlt_not_le _ _ Hlt Hb).
Qed.

Lemma stage_never_breaks si l : snd (stage si l) <> Break.
Proof.
  unfold stage, stage_body. repeat destruct_match; cbn; discriminate.
Qed.


Lemma tick_breaks_iff float_pow g i l :
  snd (tick float_pow g i l) = Break
  <-> snapshot_failed i = false
      /\ watchdog_stalled NO_FRAME_TIMEOUT (in_now i) (_last_frame_time g)
         = true.
Proof.
  unfold snapshot_failed.
  generalize (tick_outcome_holds float_pow g i l).
  generalize (tick float_pow g i l). intros r H.
  destruct H as [Hs | snap Hs Hw | snap l1 Hs Hw Hl1 Hd
                 | snap l1 l2 ev2 Hs Hw Hl1 Hd Hst
                 | snap l1 l2 ev2 fl Hs Hw Hl1 Hd Hst Hfl];
    cbn [snd]; rewrite Hs; split;
    try (intros Hb; discriminate Hb);
    try (intros [Ha Hb]; congruence);
    try (intros _; split; [reflexivity | assumption]).
  intros ->. exfalso.
  pose proof (stage_never_breaks (in_staging i) l1) as Hnb.
  rewrite Hst in Hnb. apply Hnb. reflexivity.
Qed.




(** ** Passes without a snapshot *)

Lemma tick_without_snapshot float_pow g i l :
  snapshot_failed i = true ->
  tick float_pow g i l
  = (process_events (in_events i) l,
     snd (poll_snapshot i) ++ [Sleep (5 # 100)], Continue).
Proof.
  unfold snapshot_failed, tick.
  destruct (fst (poll_snapshot i)); [discriminate | reflexivity].
Qed.

Lemma poll_snapshot_events i :
  forallb is_poll_event (snd (poll_snapshot i)) = true.
Proof. unfold poll_snapshot. destruct (in_snapshot i); reflexivity. Qed.

(** C9. A pass whose snapshot poll fails sleeps and goes back to the loop
    test without making the watchdog comparison. Through any sequence of
    such passes, whatever the clock readings and however old the last
    camera frame, the loop is never left by the watchdog: it is left exactly
    when one of the passes saw a quit event, and the passes issue nothing
    but the poll warning and the sleep. *)
Theorem failed_polls_never_trip_watchdog
    (float_pow : Q -> Q -> Q) (occ : list occurrence)
    (g : Globals) (l : Locals) (tr : list event) :
  all_polls_fail occ = true ->
  running l = true ->
  let r := main_loop float_pow occ g l tr in
  loop_status r = (if quit_seen occ then QuitRequested else Looping)
  /\ loop_status r <> WatchdogStalled
  /\ (exists evs, loop_trace r = tr ++ evs
                  /\ forallb is_poll_event evs = true)
  /\ (forall i, In (LoopTick i) occ ->
        forall g' l',
          tick float_pow g' i l'
          = (process_events (in_events i) l',
             snd (poll_snapshot i) ++ [Sleep (5 # 100)], Continue)).
Proof.
  intros Hall Hrun r.
  assert (Hticks : forall i, In (LoopTick i) occ -> snapshot_failed i = true).
  { intros i Hin. unfold all_polls_fail in Hall.
    rewrite forallb_forall in Hall. exact (Hall _ Hin). }
  assert (Hmain : loop_status r = (if quit_seen occ then QuitRequested
                                   else Looping)
                  /\ exists evs, loop_trace r = tr ++ evs
                                 /\ forallb is_poll_event evs = true).
  { subst r. clear Hticks. revert g l tr Hall Hrun.
    induction occ as [|o occ IH]; intros g l tr Hall Hrun.
    - cbn. split; [reflexivity|]. exists []. rewrite app_nil_r. auto.
    - cbn [all_polls_fail forallb] in Hall.
      apply andb_true_iff in Hall. destruct Hall as [Ho Hall].
      destruct o as [b|i].
      + cbn [main_loop quit_seen existsb orb]. apply IH; assumption.
      + cbn [main_loop]. rewrite (tick_without_snapshot float_pow g i l Ho).
        rewrite process_events_running, Hrun.
        cbn [quit_seen existsb].
        destruct (existsb is_quit (in_events i)) eqn:Hq; cbn [orb].
        * cbn. split; [reflexivity|]. eexists. split; [reflexivity|].
          rewrite forallb_app, poll_snapshot_events. reflexivity.
        * destruct (IH g (process_events (in_events i) l)
                       (tr ++ snd (poll_snapshot i) ++ [Sleep (5 # 100)])
                       Hall)
            as (Hst & evs & Htr & Hevs).
          { rewrite process_events_running, Hq. exact Hrun. }
          split; [exact Hst|].
          exists ((snd (poll_snapshot i) ++ [Sleep (5 # 100)]) ++ evs).
          split; [rewrite Htr, <- !app_assoc; reflexivity|].
          rewrite !forallb_app, poll_snapshot_events, Hevs. reflexivity. }
  destruct Hmain as (Hst & Hevs).
  split; [exact Hst|]. split; [|split; [exact Hevs|]].
  - rewrite Hst. destruct (quit_seen occ); discriminate.
  - intros i Hin g' l'. apply tick_without_snapshot, Hticks, Hin.
Qed.

Lemma failed_polls_never_trip_watchdog_witness :
  loop_status
    (main_loop sample_pow
       [LoopTick (failed_poll_tick [] 100);
        LoopTick (failed_poll_tick [OtherEvent] 1000);
        LoopTick (failed_poll_tick [KEYDOWN K_ESCAPE] 5000);
        LoopTick (failed_poll_tick [] 6000)]
       (initial_globals 0) sample_locals [])
  = QuitRequested
  /\ loop_status
       (main_loop sample_pow
          [LoopTick (failed_poll_tick [] 100);
           LoopTick (failed_poll_tick [OtherEvent] 1000000)]
          (initial_globals 0) sample_locals [])
     = Looping.
Proof.
  split.
  - apply (failed_polls_never_trip_watchdog sample_pow
             [LoopTick (failed_poll_tick [] 100);
              LoopTick (failed_poll_tick [OtherEvent] 1000);
              LoopTick (failed_poll_tick [KEYDOWN K_ESCAPE] 5000);
              LoopTick (failed_poll_tick [] 6000)]
             (initial_globals 0) sample_locals []); reflexivity.
  - apply (failed_polls_never_trip_watchdog sample_pow
             [LoopTick (failed_poll_tick [] 100);
              LoopTick (failed_poll_tick [OtherEvent] 1000000)]
             (initial_globals 0) sample_locals []); reflexivity.
Defined.

(** ** The cap on crossing walkers *)

Lemma staging_due_below_cap l snap :
  staging_due l snap = true -> crossers l < MAX_CROSSERS.
Proof.
  unfold staging_due. rewrite !andb_true_iff.
  intros (_ & H). apply Nat.ltb_lt, H.
Qed.

Lemma crossers_process_events evs l :
  crossers (process_events evs l) = crossers l.
Proof.
  unfold crossers.
  destruct (process_events_fields evs l) as (-> & _ & -> & _). reflexivity.
Qed.

Lemma crossers_telemetry_block float_pow snap i l :
  crossers (telemetry_block float_pow snap i l) = crossers l.
Proof.
  unfold crossers.
  destruct (telemetry_block_fields float_pow snap i l) as (-> & _ & -> & _).
  reflexivity.
Qed.

Lemma crossers_stage si l :
  crossers (fst (fst (stage si l))) <= S (crossers l).
Proof.
  destruct (stage si l) as [[l' ev] fl] eqn:Hst. cbn [fst].
  destruct (stage_cases _ _ Hst) as [-> | (sw & -> & _)]; [lia|].
  unfold crossers. cbn. rewrite length_app. cbn. lia.
Qed.

Lemma crossers_trigger i l : crossers (fst (trigger i l)) <= crossers l.
Proof.
  destruct (trigger_crossers i l) as (ws & rem & Hw & Hr & Hlen & _).
  cbv zeta in Hw, Hr. unfold crossers. rewrite Hw, Hr, length_app. lia.
Qed.

(** Inside the trigger loop, after the entries [done] and before the
    entries [todo]: the walkers triggered so far, those kept so far and
    those not looked at yet are no more than were there at the start. *)
Lemma crossers_inside_trigger_loop i el ws cs done todo :
  let t := trigger_loop i el (mkTrig ws cs [] []) done in
  length (t_walkers t) + length (t_remaining t) + length todo
  <= length ws + length (done ++ todo).
Proof.
  cbn zeta.
  destruct (trigger_loop_spec i el done (mkTrig ws cs [] []))
    as (ws' & rem & Hw & Hr & Hlen & _).
  cbn in Hw, Hr. rewrite Hw, Hr, !length_app. lia.
Qed.

Lemma tick_keeps_cap float_pow g i l :
  crossers l <= MAX_CROSSERS ->
  crossers (fst (fst (tick float_pow g i l))) <= MAX_CROSSERS.
Proof.
  intros Hcap.
  generalize (tick_outcome_holds float_pow g i l).
  generalize (tick float_pow g i l). intros r H.
  destruct H as [Hs | snap Hs Hw | snap l1 Hs Hw Hl1 Hd
                 | snap l1 l2 ev2 Hs Hw Hl1 Hd Hst
                 | snap l1 l2 ev2 fl Hs Hw Hl1 Hd Hst Hfl];
    cbn [fst]; rewrite ?crossers_process_events; try exact Hcap.
  - pose proof (crossers_trigger i l1) as Ht. subst l1.
    rewrite crossers_telemetry_block, crossers_process_events in Ht. lia.
  - pose proof (crossers_trigger i l2) as Ht.
    pose proof (crossers_stage (in_staging i) l1) as Hs2.
    rewrite Hst in Hs2. cbn [fst] in Hs2.
    apply staging_due_below_cap in Hd. lia.
  - pose proof (crossers_stage (in_staging i) l1) as Hs2.
    rewrite Hst in Hs2. cbn [fst] in Hs2.
    apply staging_due_below_cap in Hd. lia.
Qed.

(** C5. At every point of a run the walkers that wait for their trigger
    and the triggered ones are together at most [MAX_CROSSERS]: at every
    loop test, whatever the occurrences before it; and in the pass that
    follows, after the staging step and after each number [k] of entries
    the trigger loop has gone through ([done] behind it, [todo] ahead). *)
Theorem crossers_never_exceed_max
    (float_pow : Q -> Q -> Q) (occ : list occurrence) (g : Globals)
    (a : Args) (orig : option WorldSettings) (ss vs : list actor)
    (capacity : nat) (tr : list event) :
  let l := loop_locals (main_loop float_pow occ g
                          (initial_locals a orig ss vs capacity) tr) in
  crossers l <= MAX_CROSSERS
  /\ forall (i : TickIn) (snap : Snapshot),
       let l1 := telemetry_block float_pow snap i
                   (process_events (in_events i) l) in
       let l2 := if staging_due l1 snap
                 then fst (fst (stage (in_staging i) l1)) else l1 in
       crossers l2 <= MAX_CROSSERS
       /\ forall k,
            let done := firstn k (staged_walkers l2) in
            let todo := skipn k (staged_walkers l2) in
            let t := trigger_loop i (ego_location l2)
                       (mkTrig (walkers l2) (walker_controllers l2) [] [])
                       done in
            length (t_walkers t) + length (t_remaining t) + length todo
            <= MAX_CROSSERS.
Proof.
  intros l.
  assert (Hl : crossers l <= MAX_CROSSERS).
  { subst l. apply (main_loop_invariant float_pow
                      (fun l => crossers l <= MAX_CROSSERS)).
    - intros g' i l' _. apply tick_keeps_cap.
    - cbn. lia. }
  split; [exact Hl|]. intros i snap l1 l2.
  assert (Hl1 : crossers l1 = crossers l)
    by (subst l1; rewrite crossers_telemetry_block;
        apply crossers_process_events).
  assert (Hl2 : crossers l2 <= MAX_CROSSERS).
  { subst l2. destruct (staging_due l1 snap) eqn:Hd; [|lia].
    pose proof (crossers_stage (in_staging i) l1).
    apply staging_due_below_cap in Hd. lia. }
  split; [exact Hl2|]. intros k done todo t.
  pose proof (crossers_inside_trigger_loop i (ego_location l2) (walkers l2)
                (walker_controllers l2) done todo) as Hin.
  cbv zeta in Hin. fold t in Hin.
  replace (done ++ todo) with (staged_walkers l2) in Hin
    by (symmetry; apply firstn_skipn).
  unfold crossers in Hl2. lia.
Qed.


(** ** A walker whose controller cannot be attached *)

Lemma stage_attach_failure si l l' ev fl w e :
  stage si l = (l', ev, fl) ->
  In (SpawnController w) ev ->
  in_spawn_ctrl si w = Raise e ->
  l' = l /\ fl = Continue
  /\ exists st, ev = [TrySpawnWalker st; SpawnController w; Destroy w].
Proof.
  unfold stage, stage_body. intros Hst Hin Hfail.
  revert Hst Hin.
  repeat destruct_match; intros Hst Hin; inversion Hst; subst; cbn in Hin;
    repeat (destruct Hin as [Hin|Hin]; try discriminate Hin);
    try contradiction; injection Hin as <-; try congruence.
  all: repeat split; eexists; reflexivity.
Qed.

Lemma not_staging_call_not_in evs e :
  forallb (fun e => negb (is_staging_call e)) evs = true ->
  is_staging_call e = true -> ~ In e evs.
Proof.
  intros Hall He Hin. rewrite forallb_forall in Hall.
  specialize (Hall _ Hin). rewrite He in Hall. discriminate.
Qed.

Lemma poll_snapshot_no_staging_call i :
  forallb (fun e => negb (is_staging_call e)) (snd (poll_snapshot i)) = true.
Proof. unfold poll_snapshot. destruct (in_snapshot i); reflexivity. Qed.


Lemma staging_call_in_middle e pre mid post :
  In e (pre ++ mid ++ post) ->
  is_staging_call e = true ->
  forallb (fun e => negb (is_staging_call e)) pre = true ->
  forallb (fun e => negb (is_staging_call e)) post = true ->
  In e mid.
Proof.
  intros Hin He Hpre Hpost.
  apply in_app_or in Hin. destruct Hin as [Hin|Hin].
  - exfalso. exact (not_staging_call_not_in _ _ Hpre He Hin).
  - apply in_app_or in Hin. destruct Hin as [Hin|Hin]; [exact Hin|].
    exfalso. exact (not_staging_call_not_in _ _ Hpost He Hin).
Qed.

Lemma trigger_keeps_untracked i l w :
  untracked w l -> untracked w (fst (trigger i l)).
Proof.
  intros [Hw Hs].
  destruct (trigger_crossers i l) as (ws & rem & Ew & Er & _ & Hiw & Hir).
  cbv zeta in Ew, Er. unfold untracked. rewrite Ew, Er. split.
  - intros Hin. apply in_app_or in Hin. destruct Hin as [Hin|Hin]; auto.
  - intros Hin. apply Hs. apply in_map_iff in Hin.
    destruct Hin as (sw & Hsw & Hin). apply in_map_iff.
    exists sw. auto.
Qed.

Lemma stage_keeps_untracked si l l' ev fl w :
  (exists e, in_spawn_ctrl si w = Raise e) ->
  stage si l = (l', ev, fl) ->
  untracked w l -> untracked w l'.
Proof.
  intros [e Hfail] Hst [Hw Hs].
  destruct (stage_cases _ _ Hst) as [-> | (sw & -> & _ & Hctrl)];
    [split; assumption|].
  split; [exact Hw|]. cbn [staged_walkers stage_walker].
  rewrite map_app. intros Hin. apply in_app_or in Hin.
  destruct Hin as [Hin|[Hin|[]]]; [auto|].
  rewrite Hin in Hctrl. congruence.
Qed.

Lemma tick_keeps_untracked float_pow g i l w :
  (exists e, in_spawn_ctrl (in_staging i) w = Raise e) ->
  untracked w l -> untracked w (fst (fst (tick float_pow g i l))).
Proof.
  intros Hfail Hun.
  assert (H0 : untracked w (process_events (in_events i) l)).
  { unfold untracked.
    destruct (process_events_fields (in_events i) l) as (-> & _ & -> & _).
    exact Hun. }
  assert (H1 : forall snap, untracked w (telemetry_block float_pow snap i
                                           (process_events (in_events i) l))).
  { intros snap. unfold untracked.
    destruct (telemetry_block_fields float_pow snap i
                (process_events (in_events i) l)) as (-> & _ & -> & _).
    exact H0. }
  generalize (tick_outcome_holds float_pow g i l).
  generalize (tick float_pow g i l). intros r H.
  destruct H as [Hs | snap Hs Hw | snap l1 Hs Hw Hl1 Hd
                 | snap l1 l2 ev2 Hs Hw Hl1 Hd Hst
                 | snap l1 l2 ev2 fl Hs Hw Hl1 Hd Hst Hfl];
    cbn [fst]; try exact H0; subst l1.
  - apply trigger_keeps_untracked, H1.
  - apply trigger_keeps_untracked.
    exact (stage_keeps_untracked _ Hfail Hst (H1 snap)).
  - exact (stage_keeps_untracked _ Hfail Hst (H1 snap)).
Qed.

(** C6. When a pass has spawned a walker [w] and asked for its controller
    (the call [SpawnController w] is among the calls of the pass) and that
    request raised, then [walker.destroy()] is the last call of the pass,
    the pass ends there by [continue], and the lists of triggered walkers,
    of their controllers and of staged walkers and the attempt counter are
    as before the pass. Over a whole run, a walker whose controller
    requests were all refused is in neither list at any loop test. *)
Theorem failed_attach_destroys_walker (float_pow : Q -> Q -> Q) :
  (forall g i l l' ev fl w e,
      tick float_pow g i l = (l', ev, fl) ->
      In (SpawnController w) ev ->
      in_spawn_ctrl (in_staging i) w = Raise e ->
      fl = Continue
      /\ (exists pre st,
             ev = pre ++ [TrySpawnWalker st; SpawnController w; Destroy w])
      /\ walkers l' = walkers l
      /\ walker_controllers l' = walker_controllers l
      /\ staged_walkers l' = staged_walkers l
      /\ spawn_attempts l' = spawn_attempts l)
  /\ (forall occ g a orig ss vs capacity tr w,
        attach_always_fails w occ ->
        untracked w (loop_locals (main_loop float_pow occ g
                                    (initial_locals a orig ss vs capacity)
                                    tr))).
Proof.
  split.
  - intros g i l l' ev fl w e Htick Hin Hfail.
    assert (Hcall : is_staging_call (SpawnController w) = true)
      by reflexivity.
    assert (El : l' = fst (fst (tick float_pow g i l)))
      by (rewrite Htick; reflexivity).
    assert (Eev : ev = snd (fst (tick float_pow g i l)))
      by (rewrite Htick; reflexivity).
    assert (Efl : fl = snd (tick float_pow g i l))
      by (rewrite Htick; reflexivity).
    subst l' ev fl. clear Htick. revert Hin.
    generalize (tick_outcome_holds float_pow g i l).
    generalize (tick float_pow g i l). intros r H.
    destruct H as [Hs | snap Hs Hw | snap l1 Hs Hw Hl1 Hd
                   | snap l1 l2 ev2 Hs Hw Hl1 Hd Hst
                   | snap l1 l2 ev2 fl' Hs Hw Hl1 Hd Hst Hfl];
      cbn [fst snd]; intros Hin.
    + exfalso. revert Hin. apply not_staging_call_not_in; [|exact Hcall].
      rewrite forallb_app, poll_snapshot_no_staging_call. reflexivity.
    + exfalso. revert Hin. apply not_staging_call_not_in; [|exact Hcall].
      rewrite forallb_app, poll_snapshot_no_staging_call. reflexivity.
    + exfalso. revert Hin. apply not_staging_call_not_in; [|exact Hcall].
      rewrite !forallb_app, poll_snapshot_no_staging_call, trigger_no_spawn,
        render_no_spawn. reflexivity.
    + exfalso.
      apply staging_call_in_middle in Hin;
        [| exact Hcall | apply poll_snapshot_no_staging_call
         | rewrite forallb_app, trigger_no_spawn, render_no_spawn;
           reflexivity].
      destruct (@stage_attach_failure _ _ _ _ _ _ _ Hst Hin Hfail) as (_ & Hc & _).
      discriminate Hc.
    + rewrite <- (app_nil_r ev2) in Hin.
      apply staging_call_in_middle in Hin;
        [| exact Hcall | apply poll_snapshot_no_staging_call | reflexivity].
      destruct (@stage_attach_failure _ _ _ _ _ _ _ Hst Hin Hfail)
        as (-> & -> & st & ->).
      split; [reflexivity|].
      split; [exists (snd (poll_snapshot i)), st; reflexivity|].
      subst l1.
      destruct (telemetry_block_fields float_pow snap i
                  (process_events (in_events i) l))
        as (-> & -> & -> & _ & -> & _).
      destruct (process_events_fields (in_events i) l)
        as (-> & -> & -> & _ & -> & _).
      repeat split.
  - intros occ g a orig ss vs capacity tr w Hfail.
    apply (main_loop_invariant float_pow (untracked w)).
    + intros g' i l Hin. apply tick_keeps_untracked. exact (Hfail i Hin).
    + split; cbn; auto.
Qed.

Lemma failed_attach_destroys_walker_witness :
  let i := sample_tick 200 0 (staging_spawns 101%Z (Raise RuntimeError))
                       (fun _ => Ok 100%Q) in
  let r := tick sample_pow (initial_globals 0) i sample_locals in
  snd r = Continue
  /\ (exists pre st,
         snd (fst r)
         = pre ++ [TrySpawnWalker st; SpawnController 101%Z; Destroy 101%Z])
  /\ staged_walkers (fst (fst r)) = []
  /\ untracked 101%Z
       (loop_locals (main_loop sample_pow [LoopTick i] (initial_globals 0)
                       sample_locals [])).
Proof.
  intros i r.
  destruct (failed_attach_destroys_walker sample_pow) as [Hpass Hrun].
  destruct (Hpass (initial_globals 0) i sample_locals
              (fst (fst r)) (snd (fst r)) (snd r) 101%Z RuntimeError)
    as (Hfl & Hev & _ & _ & Hst & _).
  - reflexivity.
  - right. left. reflexivity.
  - reflexivity.
  - split; [exact Hfl|]. split; [exact Hev|]. split; [exact Hst|].
    apply (Hrun [LoopTick i] (initial_globals 0)
             (mkArgs false false false false false)
             (Some (mkSettings true (1 # 20))) [11; 12; 13]%Z [1]%Z
             MAX_TELEMETRY_ROWS [] 101%Z).
    intros i' [Hi | []]. injection Hi as <-.
    exists RuntimeError. reflexivity.
Defined.

(** ** The cleanup *)

(** C7 as stated fails: the cleanup of a run with three sensors, the ego
    vehicle and saved settings waits for the queue, stops the saver,
    destroys the actors in one batch and restores the settings; no call
    stops the sensors, before the wait or anywhere. *)
Lemma cleanup_does_not_stop_sensors_first :
  cleanup sample_cleanup_in sample_locals
  = [Log INFO "Cleanup starting..."; QueueJoin; StopSaverSet; ThreadJoin 1;
     ApplyBatchSync [11; 12; 13; 1]%Z;
     ApplySettings (mkSettings true (1 # 20));
     PygameQuit; Log INFO "Cleanup complete."]
  /\ stop_drain_destroy_restore (cleanup sample_cleanup_in sample_locals)
     = false.
Proof. split; reflexivity. Qed.

(** C7, amended. The cleanup issues no call that stops a sensor. Its calls
    are, in this order: what comes before the wait (the start message and
    the telemetry file), the wait for the save queue, the stop of the saver
    thread and the bounded wait for it, the destruction of the tracked
    actors, the restoration of the saved settings (when there are any), and
    the shutdown of pygame. The destruction is nothing when no tracked actor
    is alive; else it is one batch that names, in the order of [sensors],
    [walker_controllers], [walkers], [vehicles], the actors whose [is_alive]
    reads true or cannot be read for want of the attribute; and when the
    batch raises, a warning and one [destroy] for each tracked actor that is
    alive when asked again. *)
Theorem cleanup_drains_then_destroys_then_restores
    (ci : CleanupIn) (l : Locals) :
  let tr := cleanup ci l in
  let alive := filter (safe_is_alive (in_alive ci)) (tracked_actors l) in
  let alive_again :=
    filter (safe_is_alive (in_alive_again ci)) (tracked_actors l) in
  existsb is_sensor_stop tr = false
  /\ (forall a, In a alive
                <-> In a (tracked_actors l)
                    /\ (in_alive ci a = Ok true
                        \/ in_alive ci a = Raise AttributeError))
  /\ exists before destroying restoring,
       tr = before ++ [QueueJoin] ++ [StopSaverSet; ThreadJoin 1]
               ++ destroying ++ restoring
               ++ [PygameQuit; Log INFO "Cleanup complete."]
       /\ forallb (fun e => negb (is_drain e || is_destroy e || is_restore e))
                  before = true
       /\ forallb (fun e => is_destroy e || is_log e) destroying = true
       /\ destroying
          = match alive with
            | [] => []
            | _ :: _ =>
                ApplyBatchSync alive
                :: match in_batch ci with
                   | Ok _ => []
                   | Raise _ => Log WARNING "Batch destroy failed"
                                :: map Destroy alive_again
                   end
            end
       /\ restoring = match original_settings l with
                      | Some orig => [ApplySettings orig]
                      | None => []
                      end.
Proof.
  intros tr alive alive_again. subst tr.
  assert (Halive : forall a,
             In a alive
             <-> In a (tracked_actors l)
                 /\ (in_alive ci a = Ok true
                     \/ in_alive ci a = Raise AttributeError)).
  { intros a. unfold alive. rewrite filter_In. unfold safe_is_alive.
    destruct (in_alive ci a) as [[|]|[]]; split; intros [Hin H];
      (split; [exact Hin|]); auto;
      try discriminate H; destruct H as [H|H]; discriminate H. }
  unfold cleanup, cleanup_until_join, cleanup_after_join.
  fold alive. fold alive_again. clearbody alive alive_again.
  set (pre := if Deque.truthy (telemetry l)
              then WriteTelemetryCsv (Deque.to_list (telemetry l))
                   :: match in_csv ci with
                      | Ok _ => [Log INFO "Telemetry saved"]
                      | Raise _ => [Log WARNING "Telemetry save failed"]
                      end
              else []).
  set (destroying := match alive with
                     | [] => []
                     | _ :: _ =>
                         ApplyBatchSync alive
                         :: match in_batch ci with
                            | Ok _ => []
                            | Raise _ => Log WARNING "Batch destroy failed"
                                         :: map Destroy alive_again
                            end
                     end).
  set (restoring := match original_settings l with
                    | Some orig => [ApplySettings orig]
                    | None => []
                    end).
  assert (Hpre : forallb (fun e => negb (is_drain e || is_destroy e
                                         || is_restore e || is_sensor_stop e))
                         pre = true).
  { subst pre. destruct (Deque.truthy (telemetry l)), (in_csv ci);
      reflexivity. }
  assert (Hmap : forall ids,
             forallb (fun e => (is_destroy e || is_log e)
                               && negb (is_sensor_stop e))
                     (map Destroy ids) = true)
    by (induction ids; [reflexivity | assumption]).
  assert (Hdes : forallb (fun e => (is_destroy e || is_log e)
                                   && negb (is_sensor_stop e))
                         destroying = true).
  { subst destroying. destruct alive as [|a0 al]; [reflexivity|].
    destruct (in_batch ci); [reflexivity|]. apply (Hmap alive_again). }
  assert (Hres : existsb is_sensor_stop restoring = false)
    by (subst restoring; destruct (original_settings l); reflexivity).
  split; [|split; [exact Halive|]].
  - rewrite !existsb_app, Hres. cbn [existsb is_sensor_stop orb].
    rewrite !orb_false_r.
    assert (Hnone : forall (p : event -> bool) evs,
               forallb p evs = true ->
               (forall e, p e = true -> is_sensor_stop e = false) ->
               existsb is_sensor_stop evs = false).
    { intros p evs Hall Himp. induction evs as [|e evs IH]; [reflexivity|].
      cbn in *. apply andb_true_iff in Hall. destruct Hall as [He Hall].
      rewrite (Himp _ He), (IH Hall). reflexivity. }
    rewrite (Hnone _ _ Hpre), (Hnone _ _ Hdes); [reflexivity | |].
    + intros e He. apply andb_true_iff in He.
      destruct He as [_ He]. apply negb_true_iff, He.
    + intros e He. apply negb_true_iff in He.
      apply orb_false_iff in He. apply He.
  - exists ([Log INFO "Cleanup starting..."] ++ pre), destroying, restoring.
    split; [|split; [|split; [|split]]].
    + rewrite <- !app_assoc. reflexivity.
    + cbn [forallb app]. cbn [is_drain is_destroy is_restore orb negb andb].
      rewrite forallb_forall in Hpre. apply forallb_forall.
      intros e He. specialize (Hpre _ He).
      apply negb_true_iff in Hpre. apply negb_true_iff.
      apply orb_false_iff in Hpre. apply Hpre.
    + rewrite forallb_forall in Hdes. apply forallb_forall.
      intros e He. specialize (Hdes _ He).
      apply andb_true_iff in Hdes. apply Hdes.
    + reflexivity.
    + reflexivity.
Qed.

(** A run whose sensor 12 has lost its [is_alive] attribute and whose
    batch raises: the batch names sensor 12 with the others, and the
    fallback destroys, one by one, the actors that are alive when asked
    again. *)
Lemma cleanup_drains_then_destroys_then_restores_witness :
  let ci := mkCleanupIn (Ok tt)
              (fun a => if (a =? 12)%Z then Raise AttributeError
                        else if (a =? 13)%Z then Raise RuntimeError
                        else Ok true)
              (Raise RuntimeError)
              (fun a => if (a =? 11)%Z then Ok false else Ok true)
              (Ok tt) in
  cleanup ci sample_locals
  = [Log INFO "Cleanup starting..."; QueueJoin; StopSaverSet; ThreadJoin 1;
     ApplyBatchSync [11; 12; 1]%Z; Log WARNING "Batch destroy failed";
     Destroy 12%Z; Destroy 13%Z; Destroy 1%Z;
     ApplySettings (mkSettings true (1 # 20));
     PygameQuit; Log INFO "Cleanup complete."]
  /\ existsb is_sensor_stop (cleanup ci sample_locals) = false.
Proof.
  intros ci. split; [reflexivity|].
  apply (cleanup_drains_then_destroys_then_restores ci sample_locals).
Defined.

(** ** Waiting for the save queue *)

Lemma saver_pass_takes_one (r : result unit) (g : Globals) (n : nat) :
  PyQueue.unfinished_tasks (save_queue g) = S n ->
  S n <= length (PyQueue.items (save_queue g)) ->
  let g' := background_step false (SaverPass r) g in
  PyQueue.unfinished_tasks (save_queue g') = n
  /\ n <= length (PyQueue.items (save_queue g')).
Proof.
  intros Hu Hi.
  destruct g as [fi ti lt fc [its u] N sv]. cbn in Hu, Hi. subst u.
  destruct sv as [| |task]; destruct its as [|[path image] rest];
    cbn in Hi |- *; try lia; split; lia.
Qed.

(** A pass that starts at the loop test with every unfinished task queued
    takes the oldest task and is back at the test. *)
Lemma saver_pass_from_test (r : result unit) (g : Globals) (n : nat) :
  saver g = AtStopTest ->
  PyQueue.unfinished_tasks (save_queue g) = S n ->
  length (PyQueue.items (save_queue g)) = S n ->
  let g' := background_step false (SaverPass r) g in
  PyQueue.unfinished_tasks (save_queue g') = n
  /\ length (PyQueue.items (save_queue g')) = n
  /\ saver g' = AtStopTest
  /\ CAM_SAVE_EVERY_N g' = CAM_SAVE_EVERY_N g.
Proof.
  intros Hs Hu Hi.
  destruct g as [fi ti lt fc [its u] N sv]. cbn in Hs, Hu, Hi. subst u sv.
  destruct its as [|[path image] rest]; cbn in Hi |- *; [lia|].
  repeat split. lia.
Qed.

Lemma queue_join_saver_passes (passes : list (result unit)) :
  forall g,
    PyQueue.unfinished_tasks (save_queue g)
    <= length (PyQueue.items (save_queue g)) ->
    (queue_join (map SaverPass passes) g <> None
     <-> PyQueue.unfinished_tasks (save_queue g) <= length passes).
Proof.
  induction passes as [|r passes IH]; intros g Hcons.
  - cbn. unfold PyQueue.join_returns.
    destruct (PyQueue.unfinished_tasks (save_queue g)); split;
      intros H; try lia; try discriminate; try congruence.
  - cbn [map queue_join length]. unfold PyQueue.join_returns.
    destruct (PyQueue.unfinished_tasks (save_queue g)) as [|n] eqn:Hu.
    + split; intros; [lia | discriminate].
    + destruct (saver_pass_takes_one r g Hu Hcons) as [Hu' Hi'].
      cbv zeta in Hu', Hi'.
      rewrite IH by (rewrite Hu'; exact Hi').
      rewrite Hu'. lia.
Qed.

Lemma callback_enqueues_multiple (k : Z) (g : Globals) :
  CAM_SAVE_EVERY_N g = 60%Z ->
  let g' := make_camera_callback front 0 (pixel_image (60 * k)) g in
  save_queue g'
  = PyQueue.put (save_queue g)
      (png_path front (pixel_image (60 * k)), pixel_image (60 * k))
  /\ CAM_SAVE_EVERY_N g' = 60%Z.
Proof.
  intros HN. cbv zeta. split.
  - unfold make_camera_callback, callback_body.
    change (to_surface_from_image (pixel_image (60 * k)))
      with (Ok (mkSurface 1 1 [(xff, x00, x00)%byte])).
    cbn [fst save_queue CAM_SAVE_EVERY_N frame pixel_image].
    rewrite HN. change (0 <? 60)%Z with true. cbn [andb].
    rewrite Z.mul_comm, Z.mod_mul by discriminate. reflexivity.
  - rewrite callback_keeps_interval. exact HN.
Qed.

(** Under the busy schedule the count of unfinished tasks goes from one to
    two and back, and never to zero. *)
Lemma busy_schedule_unfinished (n : nat) :
  let g := globals_after busy_schedule n one_task_queued in
  CAM_SAVE_EVERY_N g = 60%Z
  /\ length (PyQueue.items (save_queue g))
     = PyQueue.unfinished_tasks (save_queue g)
  /\ PyQueue.unfinished_tasks (save_queue g) = (if Nat.even n then 1 else 2)
  /\ saver g = AtStopTest.
Proof.
  induction n as [|n IH]; [repeat split|].
  cbv zeta in IH. destruct IH as (HN & Hcons & Hu & Hs).
  cbn [globals_after]. rewrite Nat.even_succ, <- Nat.negb_even.
  set (g := globals_after busy_schedule n one_task_queued) in *.
  destruct (Nat.even n) eqn:He; cbn [negb].
  - assert (Hb : busy_schedule n
                 = CameraFrame front 0 (pixel_image (60 * Z.of_nat n)))
      by (unfold busy_schedule; rewrite He; reflexivity).
    rewrite Hb. cbn [background_step].
    destruct (callback_enqueues_multiple (Z.of_nat n) g HN) as [Hq HN'].
    cbv zeta in Hq, HN'. rewrite Hq, HN', callback_keeps_saver.
    cbn [PyQueue.put PyQueue.items PyQueue.unfinished_tasks].
    rewrite length_app, Hcons, Hu. cbn [length]. repeat split; try lia.
    exact Hs.
  - assert (Hb : busy_schedule n = SaverPass (Ok tt))
      by (unfold busy_schedule; rewrite He; reflexivity).
    rewrite Hb. rewrite Hu in Hcons.
    destruct (saver_pass_from_test (Ok tt) g Hs Hu Hcons)
      as (Hu' & Hi' & Hs' & HN').
    cbv zeta in Hu', Hi', Hs', HN'. rewrite Hu', Hi', Hs', HN'.
    repeat split. exact HN.
Qed.

(** C8 as stated fails: the cleanup waits for the save queue with
    [save_queue.join()], which carries no timeout; the cameras are still
    listening, and when a sampled frame is enqueued between any two passes
    of the saver, starting with one task queued, [join] has returned after
    no number of steps. *)
Lemma queue_join_can_wait_forever :
  In QueueJoin (cleanup sample_cleanup_in sample_locals)
  /\ wait_bound QueueJoin = Some None
  /\ forall n, join_returned_by busy_schedule n one_task_queued = false.
Proof.
  split; [right; left; reflexivity|]. split; [reflexivity|].
  intros n. unfold join_returned_by.
  destruct (existsb _ (seq 0 (S n))) eqn:Hex; [|reflexivity].
  apply existsb_exists in Hex. destruct Hex as (k & _ & Hk).
  destruct (busy_schedule_unfinished k) as (_ & _ & Hu & _).
  cbv zeta in Hu. unfold PyQueue.join_returns in Hk. rewrite Hu in Hk.
  destruct (Nat.even k); discriminate.
Qed.

(** C8, amended. Of the waits of the cleanup only the one for the save
    queue has no timeout; the wait for the saver thread is bounded by one
    second. The wait for the queue ends by itself when nothing is enqueued
    meanwhile: with every unfinished task still queued and the other
    threads making saver passes only, [join] returns within the given passes
    exactly when they are at least as many as the unfinished tasks, whatever
    each save did. *)
Theorem only_queue_join_waits_without_timeout
    (ci : CleanupIn) (l : Locals) (g : Globals)
    (passes : list (result unit)) :
  length (PyQueue.items (save_queue g))
  = PyQueue.unfinished_tasks (save_queue g) ->
  (forall e, In e (cleanup ci l) -> is_unbounded_wait e = true -> e = QueueJoin)
  /\ In (ThreadJoin 1) (cleanup ci l)
  /\ wait_bound (ThreadJoin 1) = Some (Some 1%Q)
  /\ (queue_join (map SaverPass passes) g <> None
      <-> PyQueue.unfinished_tasks (save_queue g) <= length passes).
Proof.
  intros Hcons. split; [|split; [|split]].
  - intros e _ He. destruct e; try discriminate He. reflexivity.
  - unfold cleanup, cleanup_after_join. apply in_or_app. right.
    right. left. reflexivity.
  - reflexivity.
  - apply queue_join_saver_passes. rewrite Hcons. apply le_n.
Qed.

Lemma only_queue_join_waits_without_timeout_witness :
  queue_join [SaverPass (Ok tt)] one_task_queued <> None
  /\ PyQueue.unfinished_tasks (save_queue one_task_queued) = 1.
Proof.
  split; [|reflexivity].
  apply (only_queue_join_waits_without_timeout sample_cleanup_in
           sample_locals one_task_queued [Ok tt]).
  - reflexivity.
  - apply le_n.
Defined.

(** ** Triggered walkers and the staging guard *)

(** A property of the locals that every pass keeps, and a class of calls
    every pass stays within, hold for the loop. *)
Lemma main_loop_trace_invariant float_pow (P : Locals -> Prop)
      (allowed : event -> bool) (occ : list occurrence) :
  (forall g i l, In (LoopTick i) occ -> P l ->
                 P (fst (fst (tick float_pow g i l)))
                 /\ forallb allowed (snd (fst (tick float_pow g i l))) = true) ->
  forall g l tr,
    P l ->
    P (loop_locals (main_loop float_pow occ g l tr))
    /\ exists evs, loop_trace (main_loop float_pow occ g l tr) = tr ++ evs
                   /\ forallb allowed evs = true.
Proof.
  induction occ as [|o occ IH]; intros Hstep g l tr HP.
  - split; [exact HP|]. exists []. rewrite app_nil_r. auto.
  - assert (Hrest : forall g i l, In (LoopTick i) occ -> P l ->
               P (fst (fst (tick float_pow g i l)))
               /\ forallb allowed (snd (fst (tick float_pow g i l))) = true)
      by (intros; apply Hstep; [right|]; assumption).
    destruct o as [b|i]; cbn [main_loop]; [apply (IH Hrest), HP|].
    destruct (Hstep g i l (or_introl eq_refl) HP) as [HP' Hev].
    destruct (tick float_pow g i l) as [[l' ev] fl]. cbn [fst snd] in *.
    assert (Hstop : forall st,
               P (loop_locals (g, l', tr ++ ev, st))
               /\ exists evs, loop_trace (g, l', tr ++ ev, st) = tr ++ evs
                              /\ forallb allowed evs = true)
      by (intros st; split; [exact HP' | exists ev; auto]).
    assert (Hgo : P (loop_locals (main_loop float_pow occ g l' (tr ++ ev)))
                  /\ exists evs,
                       loop_trace (main_loop float_pow occ g l' (tr ++ ev))
                       = tr ++ evs
                       /\ forallb allowed evs = true).
    { destruct (IH Hrest g l' (tr ++ ev) HP') as (HP'' & evs & Htr & Hevs).
      split; [exact HP''|]. exists (ev ++ evs).
      rewrite Htr, app_assoc, forallb_app, Hev, Hevs. auto. }
    destruct fl; try (destruct (running l'); [exact Hgo|]); apply Hstop.
Qed.

(** A pass that starts with the guard count at the cap does not stage; it
    only adds to [walkers]. *)
Lemma tick_at_cap float_pow g i l :
  MAX_CROSSERS <= crossers l ->
  let r := tick float_pow g i l in
  spawn_attempts (fst (fst r)) = spawn_attempts l
  /\ forallb (fun e => negb (is_staging_call e)) (snd (fst r)) = true
  /\ exists ws, walkers (fst (fst r)) = walkers l ++ ws.
Proof.
  intros Hcap. cbv zeta.
  assert (H0 : spawn_attempts (process_events (in_events i) l)
               = spawn_attempts l
               /\ walkers (process_events (in_events i) l) = walkers l).
  { destruct (process_events_fields (in_events i) l)
      as (-> & _ & _ & _ & -> & _). auto. }
  destruct H0 as [Hsp0 Hw0].
  assert (Hdue : forall snap,
             staging_due (telemetry_block float_pow snap i
                            (process_events (in_events i) l)) snap = false).
  { intros snap. destruct (staging_due _ snap) eqn:Hd; [|reflexivity].
    apply staging_due_below_cap in Hd.
    rewrite crossers_telemetry_block, crossers_process_events in Hd. lia. }
  generalize (tick_outcome_holds float_pow g i l).
  generalize (tick float_pow g i l). intros r H.
  destruct H as [Hs | snap Hs Hw | snap l1 Hs Hw Hl1 Hd
                 | snap l1 l2 ev2 Hs Hw Hl1 Hd Hst
                 | snap l1 l2 ev2 fl Hs Hw Hl1 Hd Hst Hfl];
    cbn [fst snd]; try (subst l1; rewrite Hdue in Hd; discriminate Hd).
  - rewrite forallb_app, poll_snapshot_no_staging_call.
    repeat split; [exact Hsp0|]. exists []. rewrite app_nil_r. exact Hw0.
  - rewrite forallb_app, poll_snapshot_no_staging_call.
    repeat split; [exact Hsp0|]. exists []. rewrite app_nil_r. exact Hw0.
  - rewrite !forallb_app, poll_snapshot_no_staging_call, trigger_no_spawn,
      render_no_spawn.
    destruct (trigger_fields i l1) as (_ & -> & _).
    destruct (trigger_crossers i l1) as (ws & rem & -> & _).
    subst l1.
    destruct (telemetry_block_fields float_pow snap i
                (process_events (in_events i) l))
      as (-> & _ & _ & _ & -> & _).
    rewrite Hw0. repeat split; [exact Hsp0|]. exists ws. reflexivity.
Qed.

(** Every pass only adds to [walkers]. *)
Lemma tick_walkers_grow float_pow g i l :
  exists ws, walkers (fst (fst (tick float_pow g i l))) = walkers l ++ ws.
Proof.
  assert (Hw0 : walkers (process_events (in_events i) l) = walkers l)
    by (destruct (process_events_fields (in_events i) l) as (-> & _); auto).
  assert (Hw1 : forall snap,
             walkers (telemetry_block float_pow snap i
                        (process_events (in_events i) l)) = walkers l).
  { intros snap.
    destruct (telemetry_block_fields float_pow snap i
                (process_events (in_events i) l)) as (-> & _). exact Hw0. }
  assert (Hw2 : forall snap l2 ev2 fl,
             stage (in_staging i)
                   (telemetry_block float_pow snap i
                      (process_events (in_events i) l)) = (l2, ev2, fl) ->
             walkers l2 = walkers l).
  { intros snap l2 ev2 fl Hst.
    destruct (stage_cases _ _ Hst) as [-> | (sw & -> & _)]; apply Hw1. }
  generalize (tick_outcome_holds float_pow g i l).
  generalize (tick float_pow g i l). intros r H.
  destruct H as [Hs | snap Hs Hw | snap l1 Hs Hw Hl1 Hd
                 | snap l1 l2 ev2 Hs Hw Hl1 Hd Hst
                 | snap l1 l2 ev2 fl Hs Hw Hl1 Hd Hst Hfl];
    cbn [fst]; try subst l1.
  - exists []. rewrite app_nil_r. exact Hw0.
  - exists []. rewrite app_nil_r. exact Hw0.
  - destruct (trigger_crossers i (telemetry_block float_pow snap i
                                    (process_events (in_events i) l)))
      as (ws & rem & -> & _).
    rewrite Hw1. exists ws. reflexivity.
  - destruct (trigger_crossers i l2) as (ws & rem & -> & _).
    rewrite (Hw2 _ _ _ _ Hst). exists ws. reflexivity.
  - exists []. rewrite app_nil_r. exact (Hw2 _ _ _ _ Hst).
Qed.

(** Without a failing distance query the trigger loop moves or keeps each
    entry: the guard count is the same after it. *)
Lemma trigger_loop_no_drop i p todo :
  (forall w, exists d, in_distance i w p = Ok d) ->
  forall t,
    let t' := trigger_loop i (Some p) t todo in
    length (t_walkers t') + length (t_remaining t')
    = length (t_walkers t) + length (t_remaining t) + length todo.
Proof.
  intros Hans. induction todo as [|sw todo IH]; intros t; cbn zeta.
  - cbn. lia.
  - change (trigger_loop i (Some p) t (sw :: todo))
      with (trigger_loop i (Some p) (trigger_one i (Some p) t sw) todo).
    rewrite IH.
    destruct (trigger_one_cases i (Some p) t sw)
      as [(-> & _ & ->) | [(-> & _ & ->) | (_ & _ & _ & Hdrop)]].
    + rewrite length_app. cbn. lia.
    + rewrite length_app. cbn. lia.
    + exfalso. destruct Hdrop as [Hn | (p' & e & Hp & Hr)];
        [discriminate Hn|].
      injection Hp as <-. destruct (Hans (sw_walker sw)) as [d Hd].
      congruence.
Qed.

Lemma trigger_no_drop i l p :
  ego_location l = Some p ->
  (forall w, exists d, in_distance i w p = Ok d) ->
  crossers (fst (trigger i l)) = crossers l.
Proof.
  intros Hp Hans. unfold trigger, crossers.
  cbn [fst set_crossers walkers staged_walkers]. rewrite Hp.
  pose proof (@trigger_loop_no_drop i p (staged_walkers l) Hans
                (mkTrig (walkers l) (walker_controllers l) [] [])) as H.
  cbv zeta in H. rewrite H. cbn. lia.
Qed.

(** At the cap, with the ego location bound and the distance queries of
    the pass answered, the pass ends at the cap. *)
Lemma tick_stays_at_cap float_pow g i l :
  MAX_CROSSERS <= crossers l ->
  ego_location l <> None ->
  (forall w p, exists d, in_distance i w p = Ok d) ->
  MAX_CROSSERS <= crossers (fst (fst (tick float_pow g i l)))
  /\ ego_location (fst (fst (tick float_pow g i l))) <> None.
Proof.
  intros Hcap Hego Hans.
  assert (H0 : crossers (process_events (in_events i) l) = crossers l
               /\ ego_location (process_events (in_events i) l) <> None).
  { split; [apply crossers_process_events|].
    destruct (process_events_fields (in_events i) l)
      as (_ & _ & _ & _ & _ & _ & ->). exact Hego. }
  destruct H0 as [Hc0 He0].
  assert (Hdue : forall snap,
             staging_due (telemetry_block float_pow snap i
                            (process_events (in_events i) l)) snap = false).
  { intros snap. destruct (staging_due _ snap) eqn:Hd; [|reflexivity].
    apply staging_due_below_cap in Hd.
    rewrite crossers_telemetry_block, crossers_process_events in Hd. lia. }
  generalize (tick_outcome_holds float_pow g i l).
  generalize (tick float_pow g i l). intros r H.
  destruct H as [Hs | snap Hs Hw | snap l1 Hs Hw Hl1 Hd
                 | snap l1 l2 ev2 Hs Hw Hl1 Hd Hst
                 | snap l1 l2 ev2 fl Hs Hw Hl1 Hd Hst Hfl];
    cbn [fst snd]; try (subst l1; rewrite Hdue in Hd; discriminate Hd);
    try (split; [lia | exact He0]).
  assert (He1 : ego_location l1 <> None).
  { subst l1.
    destruct (telemetry_block_cases float_pow snap i
                (process_events (in_events i) l)) as [-> | [p ->]];
      [exact He0 | discriminate]. }
  destruct (trigger_fields i l1) as (_ & _ & _ & _ & ->).
  split; [|exact He1].
  destruct (ego_location l1) as [p|] eqn:Hp; [|congruence].
  rewrite (@trigger_no_drop i l1 p Hp (fun w => Hans w p)). subst l1.
  rewrite crossers_telemetry_block. lia.
Qed.

(** C10 as stated fails: with two walkers staged the guard count is at
    [MAX_CROSSERS] and the pass at frame 600 stages nothing; then the
    distance query of the first staged walker raises, the walker is dropped
    from the staged list, the count is one again, and the pass at frame 800
    stages a third walker, although no walker was ever triggered. *)
Lemma dropped_walker_reopens_staging :
  let r1 := main_loop sample_pow run_to_cap (initial_globals 0)
                      sample_locals [] in
  let r2 := main_loop sample_pow (run_to_cap ++ drop_then_stage)
                      (initial_globals 0) sample_locals [] in
  crossers (loop_locals r1) = MAX_CROSSERS
  /\ spawn_attempts (loop_locals r1) = 2
  /\ map sw_walker (staged_walkers (loop_locals r1)) = [101; 102]%Z
  /\ spawn_attempts (loop_locals r2) = 3
  /\ map sw_walker (staged_walkers (loop_locals r2)) = [102; 103]%Z
  /\ walkers (loop_locals r2) = [].
Proof. repeat split. Qed.

(** C10, amended. The staging guard compares
    [len(walkers) + len(staged_walkers)] with [MAX_CROSSERS], and [walkers]
    only ever grows: a triggered walker stays counted until shutdown. A pass
    that starts with the count at the cap stages nothing. Once
    [MAX_CROSSERS] walkers have been triggered, no later pass of the run
    stages a walker or asks the simulator for one; and once the count is at
    the cap with walkers still staged, the same holds for as long as no
    staged walker is dropped, that is, while the distance queries of the
    trigger loop are answered. *)
Theorem triggered_walkers_close_staging
    (float_pow : Q -> Q -> Q) (occ : list occurrence)
    (g : Globals) (l : Locals) (tr : list event) :
  let r := main_loop float_pow occ g l tr in
  let nothing_staged :=
    spawn_attempts (loop_locals r) = spawn_attempts l
    /\ MAX_CROSSERS <= crossers (loop_locals r)
    /\ exists evs,
         loop_trace r = tr ++ evs
         /\ forallb (fun e => negb (is_staging_call e)) evs = true in
  (exists ws, walkers (loop_locals r) = walkers l ++ ws)
  /\ (forall l' snap,
        staging_due l' snap = true ->
        length (walkers l') + length (staged_walkers l') < MAX_CROSSERS)
  /\ (forall g' i,
        MAX_CROSSERS <= crossers l ->
        spawn_attempts (fst (fst (tick float_pow g' i l))) = spawn_attempts l
        /\ forallb (fun e => negb (is_staging_call e))
                   (snd (fst (tick float_pow g' i l))) = true)
  /\ (MAX_CROSSERS <= length (walkers l) -> nothing_staged)
  /\ (MAX_CROSSERS <= crossers l -> ego_location l <> None ->
      distances_answered occ -> nothing_staged).
Proof.
  intros r nothing_staged. split; [|split; [|split; [|split]]].
  - subst r.
    apply (main_loop_invariant float_pow
             (fun l' => exists ws, walkers l' = walkers l ++ ws)).
    + intros g' i l' _ [ws Hws].
      destruct (tick_walkers_grow float_pow g' i l') as [ws' Hws'].
      exists (ws ++ ws'). rewrite Hws', Hws, app_assoc. reflexivity.
    + exists []. rewrite app_nil_r. reflexivity.
  - intros l' snap Hd. exact (staging_due_below_cap _ _ Hd).
  - intros g' i Hcap.
    destruct (tick_at_cap float_pow g' i l Hcap) as (Hsp & Hev & _).
    auto.
  - intros Hfull. subst r nothing_staged.
    destruct (@main_loop_trace_invariant float_pow
                (fun l' => MAX_CROSSERS <= length (walkers l')
                           /\ spawn_attempts l' = spawn_attempts l)
                (fun e => negb (is_staging_call e)) occ) with
      (g := g) (l := l) (tr := tr)
      as ((Hlen & Hsp) & Hevs).
    + intros g' i l' _ [Hlen Hsp].
      assert (Hcap : MAX_CROSSERS <= crossers l')
        by (unfold crossers; lia).
      destruct (tick_at_cap float_pow g' i l' Hcap) as (Hsp' & Hev & ws & Hws).
      cbv zeta in Hsp', Hev, Hws.
      rewrite Hsp', Hws, length_app. repeat split; [lia | auto | exact Hev].
    + split; [exact Hfull | reflexivity].
    + unfold crossers. repeat split; [exact Hsp | lia | exact Hevs].
  - intros Hcap Hego Hans. subst r nothing_staged.
    destruct (@main_loop_trace_invariant float_pow
                (fun l' => MAX_CROSSERS <= crossers l'
                           /\ ego_location l' <> None
                           /\ spawn_attempts l' = spawn_attempts l)
                (fun e => negb (is_staging_call e)) occ) with
      (g := g) (l := l) (tr := tr)
      as ((Hc & _ & Hsp) & Hevs).
    + intros g' i l' Hin (Hc & He & Hsp).
      destruct (tick_at_cap float_pow g' i l' Hc) as (Hsp' & Hev & _).
      destruct (tick_stays_at_cap float_pow g' i l' Hc He (Hans i Hin))
        as (Hc' & He').
      cbv zeta in Hsp', Hev. rewrite Hsp'. auto.
    + auto.
    + auto.
Qed.

Lemma triggered_walkers_close_staging_witness :
  let l := loop_locals (main_loop sample_pow run_two_triggered
                          (initial_globals 0) sample_locals []) in
  let l' := loop_locals (main_loop sample_pow run_to_cap
                           (initial_globals 0) sample_locals []) in
  walkers l = [101; 102]%Z
  /\ spawn_attempts
       (loop_locals (main_loop sample_pow later_offers (initial_globals 0)
                       l []))
     = 2
  /\ spawn_attempts
       (loop_locals (main_loop sample_pow later_offers (initial_globals 0)
                       l' []))
     = 2.
Proof.
  intros l l'. split; [reflexivity|]. split.
  - destruct (triggered_walkers_close_staging sample_pow later_offers
                (initial_globals 0) l []) as (_ & _ & _ & H & _).
    destruct H as (Hsp & _); [apply le_n | exact Hsp].
  - destruct (triggered_walkers_close_staging sample_pow later_offers
                (initial_globals 0) l' []) as (_ & _ & _ & _ & H).
    destruct H as (Hsp & _); [apply le_n | discriminate | | exact Hsp].
    intros i [Hi | [Hi | []]] w p; injection Hi as <-; eexists;
      reflexivity.
Defined.

(* ====================================================================== *)
(** * Further properties of the code *)

(** ** Decoding a camera frame *)

Lemma bgra_to_rgb_pixels (n : nat) :
  forall bs : list byte,
    length bs = 4 * n ->
    length (bgra_to_rgb bs) = n
    /\ forall k d, k < n ->
         nth k (bgra_to_rgb bs) (d, d, d)
         = (nth (4 * k + 2) bs d, nth (4 * k + 1) bs d, nth (4 * k) bs d).
Proof.
  induction n as [|n IH]; intros bs Hlen.
  - destruct bs; [|discriminate]. split; [reflexivity|]. intros k d Hk. lia.
  - destruct bs as [|b [|g [|r [|a rest]]]]; cbn in Hlen; try lia.
    destruct (IH rest) as [Hl Hnth]; [lia|].
    cbn [bgra_to_rgb length]. split; [now rewrite Hl|].
    intros [|k] d Hk; [reflexivity|].
    replace (4 * S k + 2) with (S (S (S (S (4 * k + 2))))) by lia.
    replace (4 * S k + 1) with (S (S (S (S (4 * k + 1))))) by lia.
    replace (4 * S k) with (S (S (S (S (4 * k))))) by lia.
    cbn [nth]. apply Hnth. lia.
Qed.

(** X1. [to_surface_from_image] succeeds exactly on a buffer of
    [height * width * 4] bytes and raises [ValueError] on any other. The
    surface then has the image's size and one pixel per four bytes, and its
    [k]-th pixel is (R, G, B) taken from the bytes [4k+2], [4k+1], [4k] of
    the BGRA buffer; the alpha byte is dropped. *)
Theorem to_surface_reorders_bgra (image : Image) :
  (image_ok image = false -> to_surface_from_image image = Raise ValueError)
  /\ (image_ok image = true ->
      exists surf,
        to_surface_from_image image = Ok surf
        /\ surf_w surf = width image /\ surf_h surf = height image
        /\ length (surf_rgb surf) = height image * width image
        /\ forall k d, k < height image * width image ->
             nth k (surf_rgb surf) (d, d, d)
             = (nth (4 * k + 2) (raw_data image) d,
                nth (4 * k + 1) (raw_data image) d,
                nth (4 * k) (raw_data image) d)).
Proof.
  unfold image_ok, to_surface_from_image. split; intros Hok; rewrite Hok;
    [reflexivity|].
  eexists. split; [reflexivity|]. cbn [surf_w surf_h surf_rgb].
  apply Nat.eqb_eq in Hok.
  destruct (bgra_to_rgb_pixels (height image * width image) (raw_data image))
    as [Hl Hnth]; [lia|].
  auto.
Qed.

Lemma to_surface_reorders_bgra_witness :
  (exists surf,
      to_surface_from_image (pixel_image 7) = Ok surf
      /\ nth 0 (surf_rgb surf) (x00, x00, x00)%byte = (xff, x00, x00)%byte)
  /\ to_surface_from_image (mkImage 7 2 1 [x00; x00; xff; xff]%byte)
     = Raise ValueError.
Proof.
  destruct (to_surface_reorders_bgra (pixel_image 7)) as [_ Hok].
  destruct (to_surface_reorders_bgra (mkImage 7 2 1 [x00; x00; xff; xff]%byte))
    as [Hbad _].
  split; [|apply Hbad; reflexivity].
  destruct (Hok eq_refl) as (surf & Hs & _ & _ & _ & Hn).
  exists surf. split; [exact Hs|].
  apply (Hn 0 x00%byte). apply le_n.
Defined.

(** ** What a camera callback leaves behind *)

Lemma callback_cases s now image g :
  let g' := make_camera_callback s now image g in
  _last_frame_time g' = now
  /\ _frame_counter g' = (_frame_counter g + 1)%Z
  /\ CAM_SAVE_EVERY_N g' = CAM_SAVE_EVERY_N g
  /\ stored s g' = (if image_ok image
                    then match to_surface_from_image image with
                         | Ok surf => Some surf
                         | Raise _ => None
                         end
                    else stored s g)
  /\ (forall s', s' <> s -> stored s' g' = stored s' g)
  /\ save_queue g'
     = if enqueued_with (CAM_SAVE_EVERY_N g) (s, now, image)
       then PyQueue.put (save_queue g) (task_of (s, now, image))
       else save_queue g.
Proof.
  cbv zeta. unfold make_camera_callback, callback_body, enqueued_with,
    task_of, to_surface_from_image, image_ok.
  cbn [fst snd].
  destruct (length (raw_data image) =? height image * width image * 4);
    [|rewrite andb_false_r; repeat split;
      intros s' Hs'; destruct s', s; try reflexivity; congruence].
  rewrite andb_true_r.
  destruct s; cbn [CAM_SAVE_EVERY_N];
    destruct ((0 <? CAM_SAVE_EVERY_N g)%Z
              && (frame image mod CAM_SAVE_EVERY_N g =? 0)%Z);
    cbn; repeat split;
    intros s' Hs'; destruct s'; try reflexivity; congruence.
Qed.

Lemma camera_callbacks_snoc frames f g :
  camera_callbacks (frames ++ [f]) g
  = make_camera_callback (fst (fst f)) (snd (fst f)) (snd f)
                         (camera_callbacks frames g).
Proof. unfold camera_callbacks. rewrite fold_left_app. reflexivity. Qed.

Lemma camera_callbacks_cons f frames g :
  camera_callbacks (f :: frames) g
  = camera_callbacks frames
      (make_camera_callback (fst (fst f)) (snd (fst f)) (snd f) g).
Proof. reflexivity. Qed.

Lemma camera_callbacks_interval frames :
  forall g, CAM_SAVE_EVERY_N (camera_callbacks frames g) = CAM_SAVE_EVERY_N g.
Proof.
  induction frames as [|f frames IH]; intros g; [reflexivity|].
  rewrite camera_callbacks_cons, IH. apply callback_keeps_interval.
Qed.

(** X2. Every camera callback, of either stream and also one whose frame
    cannot be decoded, stamps the watchdog time with its clock reading and
    counts the frame. A pass of the loop that follows it is left by the
    watchdog exactly when it has its snapshot and its own clock reading is
    more than [NO_FRAME_TIMEOUT] after that stamp. After any run of
    callbacks the frame counter has grown by their number. *)
Theorem camera_frame_resets_watchdog
    (float_pow : Q -> Q -> Q) (s : store_name) (t : Q) (image : Image)
    (g : Globals) (i : TickIn) (l : Locals)
    (frames : list (store_name * Q * Image)) :
  let g' := make_camera_callback s t image g in
  _last_frame_time g' = t
  /\ _frame_counter g' = (_frame_counter g + 1)%Z
  /\ (snd (tick float_pow g' i l) = Break
      <-> snapshot_failed i = false /\ (NO_FRAME_TIMEOUT < in_now i - t)%Q)
  /\ _frame_counter (camera_callbacks frames g)
     = (_frame_counter g + Z.of_nat (length frames))%Z.
Proof.
  intros g'.
  destruct (callback_cases s t image g) as (Ht & Hc & _).
  cbv zeta in Ht, Hc. fold g' in Ht, Hc.
  split; [exact Ht|]. split; [exact Hc|]. split.
  - rewrite tick_breaks_iff, watchdog_stalled_iff, Ht. reflexivity.
  - clear. revert g. induction frames as [|f frames IH]; intros g.
    + cbn. lia.
    + rewrite camera_callbacks_cons, IH.
      destruct (callback_cases (fst (fst f)) (snd (fst f)) (snd f) g)
        as (_ & -> & _).
      cbn [length]. lia.
Qed.

(** X3. Each stream's callback stores into its own image only: a frame
    that decodes replaces the stored surface of its stream by its own, a
    frame that does not decode leaves it, and callbacks of the other
    stream, however many, never touch it. *)
Theorem frame_buffer_latest_wins
    (s : store_name) (now : Q) (image : Image) (g : Globals)
    (others : list (store_name * Q * Image)) :
  let g' := make_camera_callback s now image g in
  (forall surf, to_surface_from_image image = Ok surf ->
                stored s g' = Some surf)
  /\ (forall e, to_surface_from_image image = Raise e ->
                stored s g' = stored s g)
  /\ (forall s', s' <> s -> stored s' g' = stored s' g)
  /\ (Forall (fun f => fst (fst f) <> s) others ->
      stored s (camera_callbacks others g') = stored s g').
Proof.
  intros g'.
  destruct (callback_cases s now image g) as (_ & _ & _ & Hst & Hoth & _).
  cbv zeta in Hst, Hoth. fold g' in Hst, Hoth.
  split; [|split; [|split; [exact Hoth|]]].
  - intros surf Hs. rewrite Hst, Hs.
    unfold to_surface_from_image in Hs. unfold image_ok.
    destruct (_ =? _); [reflexivity | discriminate].
  - intros e Hs. rewrite Hst.
    unfold to_surface_from_image in Hs. unfold image_ok.
    destruct (_ =? _); [discriminate | reflexivity].
  - generalize g'. clear. induction others as [|f others IH]; intros g0 Hall;
      [reflexivity|].
    inversion Hall as [|f' others' Hf Hrest]; subst.
    rewrite camera_callbacks_cons, (IH _ Hrest).
    destruct (callback_cases (fst (fst f)) (snd (fst f)) (snd f) g0)
      as (_ & _ & _ & _ & Hoth & _).
    apply Hoth. congruence.
Qed.

Lemma frame_buffer_latest_wins_witness :
  stored front
    (camera_callbacks [(third, 2%Q, pixel_image 2); (third, 3%Q, pixel_image 3)]
       (make_camera_callback front 1 (pixel_image 1) (initial_globals 0)))
  = Some (mkSurface 1 1 [(xff, x00, x00)%byte]).
Proof.
  destruct (frame_buffer_latest_wins front 1 (pixel_image 1)
              (initial_globals 0)
              [(third, 2%Q, pixel_image 2); (third, 3%Q, pixel_image 3)])
    as (Hok & _ & _ & Hoth).
  rewrite Hoth.
  - apply Hok. reflexivity.
  - repeat constructor; discriminate.
Defined.

(** ** The save queue *)

Lemma camera_callbacks_queue frames :
  forall g,
    let tasks := map task_of (filter (enqueued_with (CAM_SAVE_EVERY_N g))
                                     frames) in
    PyQueue.items (save_queue (camera_callbacks frames g))
    = PyQueue.items (save_queue g) ++ tasks
    /\ PyQueue.unfinished_tasks (save_queue (camera_callbacks frames g))
       = PyQueue.unfinished_tasks (save_queue g) + length tasks.
Proof.
  induction frames as [|f frames IH]; intros g; cbv zeta.
  - cbn. rewrite app_nil_r. split; [reflexivity | lia].
  - rewrite camera_callbacks_cons.
    destruct (IH (make_camera_callback (fst (fst f)) (snd (fst f)) (snd f) g))
      as [Hi Hu].
    cbv zeta in Hi, Hu. rewrite Hi, Hu, callback_keeps_interval.
    destruct (callback_cases (fst (fst f)) (snd (fst f)) (snd f) g)
      as (_ & _ & _ & _ & _ & ->).
    destruct f as [[s now] image]. cbn [fst snd filter].
    destruct (enqueued_with (CAM_SAVE_EVERY_N g) (s, now, image)).
    + cbn [PyQueue.put PyQueue.items PyQueue.unfinished_tasks map length].
      rewrite <- app_assoc. split; [reflexivity | lia].
    + split; reflexivity.
Qed.

(** One step of the other threads with the stop event set: what was queued
    and what the step queues is what the saver takes in the step and what
    is queued after it. *)
Lemma stopped_step_queue b g :
  let g' := background_step true b g in
  exists taken,
    PyQueue.items (save_queue g)
      ++ map task_of (filter (enqueued_with (CAM_SAVE_EVERY_N g))
                             (camera_frames [b]))
    = taken ++ PyQueue.items (save_queue g')
    /\ length taken + saver_may_take g' <= saver_may_take g
    /\ CAM_SAVE_EVERY_N g' = CAM_SAVE_EVERY_N g.
Proof.
  cbv zeta. destruct b as [s now image | | | saved | saved].
  - exists []. cbn [background_step camera_frames flat_map app filter].
    unfold saver_may_take.
    rewrite callback_keeps_interval, callback_keeps_saver.
    destruct (callback_cases s now image g) as (_ & _ & _ & _ & _ & ->).
    destruct (enqueued_with (CAM_SAVE_EVERY_N g) (s, now, image));
      cbn; rewrite ?app_nil_r; auto.
  - exists []. destruct g as [fi ti lt fc [its u] N sv].
    destruct sv; cbn; rewrite app_nil_r; auto.
  - destruct g as [fi ti lt fc [its u] N sv].
    destruct sv; [exists [] | | exists []];
      try (cbn; rewrite app_nil_r; auto).
    destruct its as [|x rest]; [exists [] | exists [x]]; cbn; auto.
  - exists []. destruct g as [fi ti lt fc [its u] N sv].
    destruct sv; cbn; rewrite app_nil_r; auto.
    destruct u; cbn; auto.
  - destruct g as [fi ti lt fc [its u] N sv].
    destruct sv; [exists [] | | exists []];
      try (cbn; rewrite app_nil_r; auto).
    + destruct its as [|x rest]; [exists [] | exists [x]]; cbn; auto.
      destruct u; cbn; auto.
    + destruct u; cbn; auto.
Qed.

Lemma stopped_steps_queue bs :
  forall g,
    exists taken,
      PyQueue.items (save_queue g)
        ++ map task_of (filter (enqueued_with (CAM_SAVE_EVERY_N g))
                               (camera_frames bs))
      = taken ++ PyQueue.items (save_queue (background_steps true bs g))
      /\ length taken + saver_may_take (background_steps true bs g)
         <= saver_may_take g
      /\ CAM_SAVE_EVERY_N (background_steps true bs g) = CAM_SAVE_EVERY_N g.
Proof.
  induction bs as [|b bs IH]; intros g.
  - exists []. cbn. rewrite app_nil_r. auto.
  - destruct (stopped_step_queue b g) as (t1 & H1 & L1 & N1).
    cbv zeta in H1, L1, N1.
    destruct (IH (background_step true b g)) as (t2 & H2 & L2 & N2).
    rewrite N1 in H2.
    exists (t1 ++ t2).
    change (background_steps true (b :: bs) g)
      with (background_steps true bs (background_step true b g)).
    assert (Hc : camera_frames (b :: bs)
                 = camera_frames [b] ++ camera_frames bs)
      by (unfold camera_frames; cbn [flat_map]; rewrite app_nil_r;
          reflexivity).
    rewrite Hc, filter_app, map_app, app_assoc, H1, <- app_assoc, H2,
      app_assoc, length_app.
    split; [reflexivity|]. split; [lia | congruence].
Qed.

(** X4. After any run of camera callbacks the save queue holds, behind
    what it held before and in arrival order, one task for every frame that
    passes the callback's test (interval positive, frame number a multiple
    of it, buffer of the right size) and nothing else, and the count of
    unfinished tasks has grown by their number. Once the saver's stop event
    is set, the frames that still arrive are queued in the same way, and
    the saver takes at most one more task, the oldest, and only if it was
    inside [save_queue.get] when the event was set: everything else stays
    queued, whatever steps the threads make. *)
Theorem sampled_frames_are_queued_in_order
    (frames : list (store_name * Q * Image)) (bs : list background)
    (g : Globals) :
  let N := CAM_SAVE_EVERY_N g in
  let tasks := map task_of (filter (enqueued_with N) frames) in
  PyQueue.items (save_queue (camera_callbacks frames g))
  = PyQueue.items (save_queue g) ++ tasks
  /\ PyQueue.unfinished_tasks (save_queue (camera_callbacks frames g))
     = PyQueue.unfinished_tasks (save_queue g) + length tasks
  /\ exists taken,
       PyQueue.items (save_queue g)
         ++ map task_of (filter (enqueued_with N) (camera_frames bs))
       = taken ++ PyQueue.items (save_queue (background_steps true bs g))
       /\ length taken <= saver_may_take g
       /\ (saver g <> InGet -> taken = []).
Proof.
  intros N tasks.
  destruct (camera_callbacks_queue frames g) as [Hi Hu].
  destruct (stopped_steps_queue bs g) as (taken & Hs & Hl & _).
  split; [exact Hi|]. split; [exact Hu|].
  exists taken. split; [exact Hs|]. split; [lia|].
  intros Hget. unfold saver_may_take in Hl.
  destruct (saver g); try contradiction;
    (destruct taken; [reflexivity | cbn in Hl; lia]).
Qed.

Lemma callback_balanced s now image g :
  queue_balanced g -> queue_balanced (make_camera_callback s now image g).
Proof.
  unfold queue_balanced, saver_holds. intros Hb.
  rewrite callback_keeps_saver.
  destruct (callback_cases s now image g) as (_ & _ & _ & _ & _ & ->).
  destruct (enqueued_with _ _); [|exact Hb].
  cbn. rewrite length_app, Hb. cbn. lia.
Qed.

Lemma image_saver_test_balanced stop g :
  queue_balanced g -> queue_balanced (image_saver_test stop g).
Proof.
  unfold queue_balanced, saver_holds.
  destruct g as [fi ti lt fc [its u] N sv].
  destruct sv, stop; cbn; auto.
Qed.

Lemma image_saver_get_balanced g :
  queue_balanced g -> queue_balanced (image_saver_get g).
Proof.
  unfold queue_balanced, saver_holds.
  destruct g as [fi ti lt fc [its u] N sv].
  destruct sv; cbn; auto.
  destruct its as [|x rest]; cbn; intros ->; lia.
Qed.

Lemma image_saver_finish_balanced saved g :
  queue_balanced g -> queue_balanced (image_saver_finish saved g).
Proof.
  unfold queue_balanced, saver_holds.
  destruct g as [fi ti lt fc [its u] N sv].
  destruct sv; cbn; auto.
  intros ->. rewrite Nat.add_1_r. cbn. lia.
Qed.

Lemma background_step_balanced stop b g :
  queue_balanced g -> queue_balanced (background_step stop b g).
Proof.
  intros Hb. destruct b as [s now image | | | saved | saved];
    cbn [background_step].
  - apply callback_balanced, Hb.
  - apply image_saver_test_balanced, Hb.
  - apply image_saver_get_balanced, Hb.
  - apply image_saver_finish_balanced, Hb.
  - apply image_saver_finish_balanced, image_saver_get_balanced,
      image_saver_test_balanced, Hb.
Qed.

Lemma background_steps_balanced stop bs :
  forall g, queue_balanced g -> queue_balanced (background_steps stop bs g).
Proof.
  induction bs as [|b bs IH]; intros g Hb; [exact Hb|].
  unfold background_steps in *. cbn [fold_left].
  apply IH, background_step_balanced, Hb.
Qed.

Lemma main_loop_globals_balanced float_pow occ :
  forall g l tr,
    queue_balanced g ->
    queue_balanced (loop_globals (main_loop float_pow occ g l tr)).
Proof.
  induction occ as [|o occ IH]; intros g l tr Hb; [exact Hb|].
  destruct o as [b|i]; cbn [main_loop].
  - apply IH, background_step_balanced, Hb.
  - destruct (tick float_pow g i l) as [[l' ev] fl].
    destruct fl; try (destruct (running l'); [apply IH, Hb|]); exact Hb.
Qed.

Lemma queue_join_drained bs :
  forall g g',
    queue_balanced g -> queue_join bs g = Some g' ->
    queue_balanced g'
    /\ PyQueue.unfinished_tasks (save_queue g') = 0.
Proof.
  induction bs as [|b bs IH]; intros g g' Hb Hj; cbn [queue_join] in Hj;
    unfold PyQueue.join_returns in Hj;
    destruct (PyQueue.unfinished_tasks (save_queue g)) eqn:Hu;
    try discriminate.
  - injection Hj as <-. auto.
  - injection Hj as <-. auto.
  - apply (IH _ _ (background_step_balanced false b Hb) Hj).
Qed.

(** X5. From the empty queue of the start, whatever the camera callbacks,
    the saver thread, step by step, and the passes of the loop do, every
    unfinished task is, at each loop test, either in the queue or the one
    the saver has taken and is saving; and when [save_queue.join()] returns
    in the cleanup, also with frames arriving during the wait, the queue is
    empty, the saver has no task in its hands and no task is unfinished. *)
Theorem join_returns_on_an_empty_queue
    (float_pow : Q -> Q -> Q) (occ : list occurrence) (t0 : Q) (l : Locals)
    (tr : list event) (during_join : list background) (g' : Globals) :
  let g := loop_globals (main_loop float_pow occ (initial_globals t0) l tr) in
  PyQueue.unfinished_tasks (save_queue g)
  = length (PyQueue.items (save_queue g)) + saver_holds g
  /\ saver_holds g <= 1
  /\ (queue_join during_join g = Some g' ->
      PyQueue.items (save_queue g') = []
      /\ saver_holds g' = 0
      /\ PyQueue.unfinished_tasks (save_queue g') = 0).
Proof.
  intros g.
  assert (Hb : queue_balanced g)
    by (apply main_loop_globals_balanced; reflexivity).
  split; [exact Hb|]. split.
  { unfold saver_holds. destruct (saver g); lia. }
  intros Hj.
  destruct (queue_join_drained _ Hb Hj) as [Hb' Hu].
  unfold queue_balanced in Hb'. rewrite Hu in Hb'.
  split; [|split; [lia | exact Hu]].
  destruct (PyQueue.items (save_queue g')); [reflexivity|].
  cbn in Hb'. lia.
Qed.

Lemma join_returns_on_an_empty_queue_witness :
  option_map (fun g' => PyQueue.items (save_queue g'))
    (queue_join [SaverGet; CameraFrame third 2 (pixel_image 120);
                 SaverFinish (Ok tt); SaverPass (Raise RuntimeError);
                 SaverTest; SaverGet; SaverFinish (Ok tt)]
                (loop_globals
                   (main_loop sample_pow
                      [Background (CameraFrame front 1 (pixel_image 60));
                       Background SaverTest;
                       Background (CameraFrame third 1 (pixel_image 60))]
                      (initial_globals 0) sample_locals [])))
  = Some [].
Proof.
  destruct (queue_join _ _) as [g'|] eqn:Hj.
  - cbn [option_map]. f_equal.
    apply (join_returns_on_an_empty_queue sample_pow
             [Background (CameraFrame front 1 (pixel_image 60));
              Background SaverTest;
              Background (CameraFrame third 1 (pixel_image 60))]
             0 sample_locals []
             [SaverGet; CameraFrame third 2 (pixel_image 120);
              SaverFinish (Ok tt); SaverPass (Raise RuntimeError);
              SaverTest; SaverGet; SaverFinish (Ok tt)]).
    exact Hj.
  - vm_compute in Hj. discriminate Hj.
Defined.

(** ** File names of the saved frames *)

(** X6. Frames with different numbers, or of different streams, are saved
    under different paths: no sampled frame overwrites the file of
    another (frame numbers are not negative). *)
Theorem png_paths_do_not_collide (s s' : store_name) (a b : Image) :
  (0 <= frame a)%Z -> (0 <= frame b)%Z ->
  s <> s' \/ frame a <> frame b ->
  png_path s a <> png_path s' b.
Proof.
  intros Ha Hb Hdiff Heq. rewrite !png_path_parts in Heq.
  assert (Hs : s = s').
  { destruct s, s'; try reflexivity; cbn in Heq; discriminate Heq. }
  subst s'. destruct Hdiff as [Hd|Hd]; [congruence|]. apply Hd.
  apply string_app_inv_head, string_app_inv_head, string_app_inv_tail in Heq.
  pose proof (format_06d_read_back Ha) as Ra.
  pose proof (format_06d_read_back Hb) as Rb.
  rewrite Heq, Rb in Ra. injection Ra as Ra. lia.
Qed.

Lemma png_paths_do_not_collide_witness :
  png_path front (pixel_image 60) <> png_path front (pixel_image 1000060)
  /\ png_path front (pixel_image 60) <> png_path third (pixel_image 60).
Proof.
  split; apply png_paths_do_not_collide; cbn;
    try (intros H; discriminate H);
    [right | left]; intros H; discriminate H.
Defined.

(** ** The trigger loop as a partition *)

Lemma trigger_loop_filter i p todo :
  forall t,
    let t' := trigger_loop i (Some p) t todo in
    t_walkers t'
    = t_walkers t ++ map sw_walker (filter (is_near i p) todo)
    /\ t_controllers t'
       = t_controllers t ++ map sw_ctrl (filter (is_near i p) todo)
    /\ t_remaining t' = t_remaining t ++ filter (is_far i p) todo.
Proof.
  induction todo as [|sw todo IH]; intros t; cbv zeta.
  - cbn. rewrite !app_nil_r. auto.
  - change (trigger_loop i (Some p) t (sw :: todo))
      with (trigger_loop i (Some p) (trigger_one i (Some p) t sw) todo).
    destruct (IH (trigger_one i (Some p) t sw)) as (-> & -> & ->).
    unfold trigger_one, is_near, is_far. cbn [filter].
    destruct (in_distance i (sw_walker sw) p) as [d|e].
    + destruct (Qle_bool (sw_trig sw) d);
        cbn [negb t_walkers t_controllers t_remaining map];
        rewrite <- ?app_assoc; auto.
    + cbn. auto.
Qed.

Lemma trigger_loop_unbound i todo :
  forall t,
    let t' := trigger_loop i None t todo in
    t_walkers t' = t_walkers t /\ t_controllers t' = t_controllers t
    /\ t_remaining t' = t_remaining t.
Proof.
  induction todo as [|sw todo IH]; intros t; cbv zeta; [auto|].
  change (trigger_loop i None t (sw :: todo))
    with (trigger_loop i None (trigger_one i None t sw) todo).
  destruct (IH (trigger_one i None t sw)) as (-> & -> & ->). auto.
Qed.

(** X7. The trigger loop splits the staged walkers in their order: those
    whose distance to the ego vehicle is below their trigger distance go,
    with their controllers, to the end of [walkers] and
    [walker_controllers] (whether or not the controller commands succeed);
    those at the trigger distance or beyond stay staged; those whose
    distance cannot be read are in no list afterwards. With [ego_location]
    not bound yet, every staged walker is dropped. *)
Theorem trigger_splits_staged_walkers (i : TickIn) (l : Locals) :
  let l' := fst (trigger i l) in
  match ego_location l with
  | Some p =>
      walkers l'
      = walkers l ++ map sw_walker (filter (is_near i p) (staged_walkers l))
      /\ walker_controllers l'
         = walker_controllers l
           ++ map sw_ctrl (filter (is_near i p) (staged_walkers l))
      /\ staged_walkers l' = filter (is_far i p) (staged_walkers l)
      /\ forall sw d,
           in_distance i (sw_walker sw) p = Ok d ->
           (is_near i p sw = true <-> (d < sw_trig sw)%Q)
           /\ (is_far i p sw = true <-> (sw_trig sw <= d)%Q)
  | None =>
      walkers l' = walkers l
      /\ walker_controllers l' = walker_controllers l
      /\ staged_walkers l' = []
  end.
Proof.
  cbv zeta. unfold trigger. cbn [fst set_crossers walkers walker_controllers
                                 staged_walkers].
  destruct (ego_location l) as [p|].
  - destruct (trigger_loop_filter i p (staged_walkers l)
                (mkTrig (walkers l) (walker_controllers l) [] []))
      as (Hw & Hc & Hr).
    cbn in Hw, Hc, Hr. repeat split; try assumption;
      unfold is_near, is_far in *; rewrite H in *.
    + intros Hn. apply negb_true_iff in Hn. apply Qnot_le_lt. intros Hle.
      apply Qle_bool_iff in Hle. congruence.
    + intros Hlt. apply negb_true_iff.
      destruct (Qle_bool (sw_trig sw) d) eqn:Hb; [|reflexivity].
      apply Qle_bool_iff in Hb. exfalso. exact (Qlt_not_le _ _ Hlt Hb).
    + apply Qle_bool_iff.
    + apply Qle_bool_iff.
  - destruct (trigger_loop_unbound i (staged_walkers l)
                (mkTrig (walkers l) (walker_controllers l) [] []))
      as (Hw & Hc & Hr).
    cbn in Hw, Hc, Hr. auto.
Qed.

(** ** Invariants of the loop *)

(** A property of the locals kept by the four steps of the loop body is
    kept by the pass. *)
Lemma tick_preserves float_pow (P : Locals -> Prop) :
  (forall evs l, P l -> P (process_events evs l)) ->
  (forall snap i l, P l -> P (telemetry_block float_pow snap i l)) ->
  (forall si l snap, staging_due l snap = true -> P l ->
                     P (fst (fst (stage si l)))) ->
  (forall i l, P l -> P (fst (trigger i l))) ->
  forall g i l, P l -> P (fst (fst (tick float_pow g i l))).
Proof.
  intros Hev Htel Hstage Htrig g i l HP.
  generalize (tick_outcome_holds float_pow g i l).
  generalize (tick float_pow g i l). intros r H.
  destruct H as [Hs | snap Hs Hw | snap l1 Hs Hw Hl1 Hd
                 | snap l1 l2 ev2 Hs Hw Hl1 Hd Hst
                 | snap l1 l2 ev2 fl Hs Hw Hl1 Hd Hst Hfl];
    cbn [fst]; try (apply Hev, HP); try subst l1.
  - apply Htrig, Htel, Hev, HP.
  - apply Htrig.
    replace l2 with (fst (fst (stage (in_staging i)
                                 (telemetry_block float_pow snap i
                                    (process_events (in_events i) l)))))
      by (rewrite Hst; reflexivity).
    apply (Hstage _ _ snap Hd), Htel, Hev, HP.
  - replace l2 with (fst (fst (stage (in_staging i)
                                 (telemetry_block float_pow snap i
                                    (process_events (in_events i) l)))))
      by (rewrite Hst; reflexivity).
    apply (Hstage _ _ snap Hd), Htel, Hev, HP.
Qed.

Lemma trigger_loop_parallel i el todo :
  forall t,
    length (t_walkers t) = length (t_controllers t) ->
    length (t_walkers (trigger_loop i el t todo))
    = length (t_controllers (trigger_loop i el t todo)).
Proof.
  induction todo as [|sw todo IH]; intros t Ht; [exact Ht|].
  change (trigger_loop i el t (sw :: todo))
    with (trigger_loop i el (trigger_one i el t sw) todo).
  apply IH.
  destruct (trigger_one_cases i el t sw)
    as [(-> & -> & _) | [(-> & -> & _) | (-> & -> & _)]];
    rewrite ?length_app, ?Ht; reflexivity.
Qed.

(** X8. At every loop test of a run, [walkers] and [walker_controllers]
    have the same length (every triggered walker has its controller in the
    list the cleanup destroys), and the walkers staged or triggered are at
    most as many as [spawn_attempts], which counts the walkers ever staged
    and never goes down. *)
Theorem triggered_walkers_keep_their_controllers
    (float_pow : Q -> Q -> Q) (occ : list occurrence) (g : Globals)
    (a : Args) (orig : option WorldSettings) (ss vs : list actor)
    (capacity : nat) (tr : list event) (i : TickIn) :
  let l := loop_locals (main_loop float_pow occ g
                          (initial_locals a orig ss vs capacity) tr) in
  length (walkers l) = length (walker_controllers l)
  /\ crossers l <= spawn_attempts l
  /\ spawn_attempts l <= spawn_attempts (fst (fst (tick float_pow g i l))).
Proof.
  intros l.
  assert (Hinv : length (walkers l) = length (walker_controllers l)
                 /\ crossers l <= spawn_attempts l).
  { subst l.
    pose (P := fun l : Locals =>
                 length (walkers l) = length (walker_controllers l)
                 /\ crossers l <= spawn_attempts l).
    apply (main_loop_invariant float_pow P); [|split; cbn; lia].
    intros g' i' l' _. apply (tick_preserves float_pow P); unfold P; clear.
    - intros evs l [H1 H2]. cbv beta. unfold crossers in *.
      destruct (process_events_fields evs l) as (-> & -> & -> & _ & -> & _).
      auto.
    - intros snap i l [H1 H2]. cbv beta. unfold crossers in *.
      destruct (telemetry_block_fields float_pow snap i l)
        as (-> & -> & -> & _ & -> & _).
      auto.
    - intros si l snap _ [H1 H2]. cbv beta.
      destruct (stage si l) as [[l' ev] fl] eqn:Hst. cbn [fst].
      destruct (stage_cases _ _ Hst) as [-> | (sw & -> & _)]; [auto|].
      unfold crossers in *. cbn. rewrite length_app. cbn. split; [auto|lia].
    - intros i l [H1 H2]. cbv beta. split.
      + unfold trigger. cbn [fst set_crossers walkers walker_controllers].
        apply trigger_loop_parallel. exact H1.
      + pose proof (crossers_trigger i l).
        destruct (trigger_fields i l) as (_ & -> & _). lia. }
  destruct Hinv as [H1 H2]. split; [exact H1|]. split; [exact H2|].
  apply (tick_preserves float_pow
           (fun l' => spawn_attempts l <= spawn_attempts l')); [| | | |lia].
  - intros evs l0 H. cbv beta.
    destruct (process_events_fields evs l0) as (_ & _ & _ & _ & -> & _).
    exact H.
  - intros snap i0 l0 H. cbv beta.
    destruct (telemetry_block_fields float_pow snap i0 l0)
      as (_ & _ & _ & _ & -> & _).
    exact H.
  - intros si l0 snap _ H. cbv beta.
    destruct (stage si l0) as [[l' ev] fl] eqn:Hst. cbn [fst].
    destruct (stage_cases _ _ Hst) as [-> | (sw & -> & _)]; [auto|].
    cbn. lia.
  - intros i0 l0 H. cbv beta. destruct (trigger_fields i0 l0) as (_ & -> & _). exact H.
Qed.

(** ** What the cleanup destroys *)

Lemma existsb_eqb_In (a : actor) (ids : list actor) :
  existsb (Z.eqb a) ids = true <-> In a ids.
Proof.
  rewrite existsb_exists. split.
  - intros (x & Hx & He). apply Z.eqb_eq in He. now subst.
  - intros H. exists a. split; [exact H | apply Z.eqb_refl].
Qed.

Lemma existsb_destroys_map (a : actor) (ids : list actor) :
  existsb (destroys a) (map Destroy ids) = existsb (Z.eqb a) ids.
Proof.
  induction ids as [|x ids IH]; [reflexivity|]. cbn. now rewrite IH.
Qed.

Lemma safe_is_alive_iff (is_alive : actor -> result bool) (a : actor) :
  safe_is_alive is_alive a = true
  <-> is_alive a = Ok true \/ is_alive a = Raise AttributeError.
Proof.
  unfold safe_is_alive.
  destruct (is_alive a) as [[|]|[]]; split; auto;
    try discriminate; intros [H|H]; discriminate H.
Qed.

Lemma cleanup_destroys_iff (ci : CleanupIn) (l : Locals) (b : actor) :
  existsb (destroys b) (cleanup ci l) = true
  <-> In b (tracked_actors l)
      /\ (safe_is_alive (in_alive ci) b = true
          \/ (safe_is_alive (in_alive_again ci) b = true
              /\ (exists e, in_batch ci = Raise e)
              /\ exists c, In c (tracked_actors l)
                           /\ safe_is_alive (in_alive ci) c = true)).
Proof.
  unfold cleanup, cleanup_until_join, cleanup_after_join.
  rewrite !existsb_app.
  replace (existsb (destroys b)
             (if Deque.truthy (telemetry l)
              then WriteTelemetryCsv (Deque.to_list (telemetry l))
                   :: match in_csv ci with
                      | Ok _ => [Log INFO "Telemetry saved"]
                      | Raise _ => [Log WARNING "Telemetry save failed"]
                      end
              else [])) with false
    by (destruct (Deque.truthy (telemetry l)), (in_csv ci); reflexivity).
  replace (existsb (destroys b)
             match original_settings l with
             | Some orig => [ApplySettings orig]
             | None => []
             end) with false
    by (destruct (original_settings l); reflexivity).
  cbn [existsb destroys orb]. rewrite !orb_false_r.
  destruct (filter (safe_is_alive (in_alive ci)) (tracked_actors l))
    as [|x xs] eqn:Ha.
  - cbn [existsb]. split; [discriminate|].
    assert (Hnone : forall c, In c (tracked_actors l) ->
                              safe_is_alive (in_alive ci) c = true -> False).
    { intros c Hc Hc'.
      assert (Hin : In c (filter (safe_is_alive (in_alive ci))
                                 (tracked_actors l)))
        by (apply filter_In; auto).
      rewrite Ha in Hin. exact Hin. }
    intros (Hin & [H | (_ & _ & c & Hc & Hc')]); exfalso; eauto.
  - assert (Hx : In x (tracked_actors l)
                 /\ safe_is_alive (in_alive ci) x = true)
      by (apply filter_In; rewrite Ha; left; reflexivity).
    destruct (in_batch ci) as [u|e]; cbn [existsb destroys orb];
      change ((b =? x)%Z || existsb (Z.eqb b) xs)%bool
        with (existsb (Z.eqb b) (x :: xs));
      rewrite <- Ha, ?orb_false_r, ?existsb_destroys_map, ?orb_true_iff,
        !existsb_eqb_In, !filter_In.
    + split; [tauto|]. intros (Hin & [H | (_ & (e & He) & _)]);
        [tauto | discriminate He].
    + split.
      * intros [H | H]; [tauto|]. split; [tauto|]. right.
        split; [tauto|]. split; [eauto|]. exists x. exact Hx.
      * intros (Hin & [H | (H & _)]); tauto.
Qed.

(** X9. The cleanup destroys exactly the actors of [sensors],
    [walker_controllers], [walkers] and [vehicles] that are alive:
    [safe_is_alive] holds of an actor whose [is_alive] reads true and of one
    whose [is_alive] attribute is missing ([getattr]'s default), and of no
    other. The alive ones are named in the batch; when the batch raises, the
    tracked actors that are alive when asked again are destroyed one by
    one. The cleanup does not look at [staged_walkers]: a walker still
    waiting for its trigger at shutdown, being in none of the four lists,
    is not destroyed. *)
Theorem cleanup_destroys_alive_tracked_actors
    (ci : CleanupIn) (l : Locals) (a : actor) :
  (forall is_alive x,
      safe_is_alive is_alive x = true
      <-> is_alive x = Ok true \/ is_alive x = Raise AttributeError)
  /\ (existsb (destroys a) (cleanup ci l) = true
      <-> In a (tracked_actors l)
          /\ (safe_is_alive (in_alive ci) a = true
              \/ (safe_is_alive (in_alive_again ci) a = true
                  /\ (exists e, in_batch ci = Raise e)
                  /\ exists c, In c (tracked_actors l)
                               /\ safe_is_alive (in_alive ci) c = true)))
  /\ (forall sw, In sw (staged_walkers l) ->
                 ~ In (sw_walker sw) (tracked_actors l) ->
                 existsb (destroys (sw_walker sw)) (cleanup ci l) = false).
Proof.
  split; [exact safe_is_alive_iff|].
  split; [apply cleanup_destroys_iff|].
  intros sw _ Hnot.
  destruct (existsb (destroys (sw_walker sw)) (cleanup ci l)) eqn:He;
    [|reflexivity].
  apply cleanup_destroys_iff in He. tauto.
Qed.

Lemma cleanup_destroys_alive_tracked_actors_witness :
  let ci := mkCleanupIn (Ok tt)
              (fun a => if (a =? 12)%Z then Raise AttributeError
                        else if (a =? 13)%Z then Raise RuntimeError
                        else Ok true)
              (Ok tt) (fun _ => Ok true) (Ok tt) in
  let l := loop_locals (main_loop sample_pow run_to_cap (initial_globals 0)
                          sample_locals []) in
  map sw_walker (staged_walkers l) = [101; 102]%Z
  /\ existsb (destroys 101%Z) (cleanup ci l) = false
  /\ existsb (destroys 12%Z) (cleanup ci l) = true
  /\ existsb (destroys 13%Z) (cleanup ci l) = false.
Proof.
  intros ci l. split; [reflexivity|].
  destruct (cleanup_destroys_alive_tracked_actors ci l 12%Z)
    as (_ & Hiff & Hstaged).
  split; [|split].
  - apply (Hstaged (mkStaged 101%Z 201%Z
                      (loc_add (mkLocation 30 0 0)
                               (vec_scale (mkVector3D 0 1 0)
                                          (inject_Z (- 1) * 3)))
                      JAYWALK_TRIGGER_DISTANCE)).
    + left. reflexivity.
    + cbn. intros H. repeat (destruct H as [H|H]; [discriminate H|]).
      exact H.
  - apply Hiff. split; [right; left; reflexivity | left; reflexivity].
  - destruct (existsb (destroys 13%Z) (cleanup ci l)) eqn:He; [|reflexivity].
    destruct (cleanup_destroys_alive_tracked_actors ci l 13%Z)
      as (_ & Hiff13 & _).
    apply Hiff13 in He.
    destruct He as (_ & [H | (_ & (e & He) & _)]); discriminate.
Defined.

(** ** When walkers are staged *)

Lemma render_no_walker_call g i l snap :
  forallb (fun e => negb (is_walker_call e)) (render g i l snap) = true.
Proof. unfold render. repeat destruct_match; reflexivity. Qed.

Lemma poll_snapshot_no_walker_call i :
  forallb (fun e => negb (is_walker_call e)) (snd (poll_snapshot i)) = true.
Proof. unfold poll_snapshot. destruct (in_snapshot i); reflexivity. Qed.

(** With [--no-walkers] and nothing staged, a pass leaves the walker lists
    empty and issues no call about a walker. *)
Lemma tick_no_walkers float_pow g i l :
  no_walkers (args l) = true ->
  walkers l = [] -> walker_controllers l = [] -> staged_walkers l = [] ->
  spawn_attempts l = 0 ->
  let r := tick float_pow g i l in
  (no_walkers (args (fst (fst r))) = true
   /\ walkers (fst (fst r)) = [] /\ walker_controllers (fst (fst r)) = []
   /\ staged_walkers (fst (fst r)) = [] /\ spawn_attempts (fst (fst r)) = 0)
  /\ forallb (fun e => negb (is_walker_call e)) (snd (fst r)) = true.
Proof.
  intros Hno Hw Hc Hs Ha. cbv zeta.
  assert (H0 : no_walkers (args (process_events (in_events i) l)) = true
               /\ walkers (process_events (in_events i) l) = []
               /\ walker_controllers (process_events (in_events i) l) = []
               /\ staged_walkers (process_events (in_events i) l) = []
               /\ spawn_attempts (process_events (in_events i) l) = 0).
  { destruct (process_events_fields (in_events i) l)
      as (-> & -> & -> & _ & -> & -> & _). auto. }
  assert (H1 : forall snap,
             let l1 := telemetry_block float_pow snap i
                         (process_events (in_events i) l) in
             no_walkers (args l1) = true
             /\ walkers l1 = [] /\ walker_controllers l1 = []
             /\ staged_walkers l1 = [] /\ spawn_attempts l1 = 0).
  { intros snap. cbv zeta.
    destruct (telemetry_block_fields float_pow snap i
                (process_events (in_events i) l))
      as (-> & -> & -> & _ & -> & -> & _). exact H0. }
  generalize (tick_outcome_holds float_pow g i l).
  generalize (tick float_pow g i l). intros r H.
  destruct H as [Hs' | snap Hs' Hw' | snap l1 Hs' Hw' Hl1 Hd
                 | snap l1 l2 ev2 Hs' Hw' Hl1 Hd Hst
                 | snap l1 l2 ev2 fl Hs' Hw' Hl1 Hd Hst Hfl];
    cbn [fst snd];
    try (subst l1; destruct (H1 snap) as (Hn1 & _);
         unfold staging_due in Hd; cbv zeta in Hn1; rewrite Hn1 in Hd;
         discriminate Hd).
  - split; [exact H0|].
    rewrite forallb_app, poll_snapshot_no_walker_call. reflexivity.
  - split; [exact H0|].
    rewrite forallb_app, poll_snapshot_no_walker_call. reflexivity.
  - subst l1. destruct (H1 snap) as (Hn1 & Hw1 & Hc1 & Hs1 & Ha1).
    cbv zeta in Hn1, Hw1, Hc1, Hs1, Ha1.
    unfold trigger. rewrite Hs1, Hw1, Hc1. cbn [trigger_loop fold_left
      fst snd t_walkers t_controllers t_remaining t_events set_crossers
      args walkers walker_controllers staged_walkers spawn_attempts].
    split; [auto|].
    rewrite !forallb_app, poll_snapshot_no_walker_call,
      render_no_walker_call. reflexivity.
Qed.

(** X10. In a run with [--no-walkers] no walker is ever staged or
    triggered: at every loop test [walkers], [walker_controllers] and
    [staged_walkers] are empty and [spawn_attempts] is zero, and the loop
    issues no spawn, controller or destroy call. *)
Theorem no_walkers_flag_disables_staging
    (float_pow : Q -> Q -> Q) (occ : list occurrence) (g : Globals)
    (a : Args) (orig : option WorldSettings) (ss vs : list actor)
    (capacity : nat) (tr : list event) :
  no_walkers a = true ->
  let r := main_loop float_pow occ g (initial_locals a orig ss vs capacity)
                     tr in
  walkers (loop_locals r) = []
  /\ walker_controllers (loop_locals r) = []
  /\ staged_walkers (loop_locals r) = []
  /\ spawn_attempts (loop_locals r) = 0
  /\ exists evs, loop_trace r = tr ++ evs
                 /\ forallb (fun e => negb (is_walker_call e)) evs = true.
Proof.
  intros Hno r. subst r.
  pose (P := fun l : Locals =>
               no_walkers (args l) = true
               /\ walkers l = [] /\ walker_controllers l = []
               /\ staged_walkers l = [] /\ spawn_attempts l = 0).
  destruct (@main_loop_trace_invariant float_pow P
              (fun e => negb (is_walker_call e)) occ) with
    (g := g) (l := initial_locals a orig ss vs capacity) (tr := tr)
    as ((_ & Hw & Hc & Hs & Ha) & Hev).
  - intros g' i l _ (Hn & Hw & Hc & Hs & Ha).
    apply (tick_no_walkers float_pow g' i l Hn Hw Hc Hs Ha).
  - unfold P. cbn. auto.
  - auto.
Qed.

Lemma no_walkers_flag_disables_staging_witness :
  spawn_attempts
    (loop_locals
       (main_loop sample_pow run_two_triggered (initial_globals 0)
          (initial_locals (mkArgs false true false false false) None
                          [11; 12; 13]%Z [1]%Z MAX_TELEMETRY_ROWS) []))
  = 0.
Proof.
  apply (no_walkers_flag_disables_staging sample_pow run_two_triggered
           (initial_globals 0) (mkArgs false true false false false) None
           [11; 12; 13]%Z [1]%Z MAX_TELEMETRY_ROWS []).
  reflexivity.
Defined.

Lemma forallb_negb_existsb {A : Type} (p : A -> bool) (xs : list A) :
  forallb (fun x => negb (p x)) xs = true -> existsb p xs = false.
Proof.
  induction xs as [|x xs IH]; [reflexivity|]. cbn.
  intros H. apply andb_true_iff in H. destruct H as [Hx Hxs].
  apply negb_true_iff in Hx. now rewrite Hx, IH.
Qed.

Lemma poll_snapshot_fst i snap :
  fst (poll_snapshot i) = Some snap -> in_snapshot i = Ok (Some snap).
Proof.
  unfold poll_snapshot. destruct (in_snapshot i) as [o|]; cbn;
    [now intros -> | discriminate].
Qed.

(** X11. A pass stages at most one walker, and it asks the simulator for a
    walker or a controller, or counts a staging, only when the guard of
    line 335 holds: it has its snapshot, the watchdog did not fire,
    [--no-walkers] is not set, the frame number is above 40 and a multiple
    of 200, and fewer than [MAX_CROSSERS] walkers are staged or
    triggered. *)
Theorem staging_happens_only_under_its_guard
    (float_pow : Q -> Q -> Q) (g : Globals) (i : TickIn) (l : Locals) :
  let r := tick float_pow g i l in
  existsb is_staging_call (snd (fst r)) = true
  \/ spawn_attempts (fst (fst r)) <> spawn_attempts l ->
  spawn_attempts (fst (fst r)) <= S (spawn_attempts l)
  /\ exists snap,
       in_snapshot i = Ok (Some snap)
       /\ watchdog_stalled NO_FRAME_TIMEOUT (in_now i) (_last_frame_time g)
          = false
       /\ no_walkers (args l) = false
       /\ (40 < snap_frame snap)%Z
       /\ (snap_frame snap mod 200 = 0)%Z
       /\ crossers l < MAX_CROSSERS.
Proof.
  cbv zeta.
  assert (Hsp0 : spawn_attempts (process_events (in_events i) l)
                 = spawn_attempts l)
    by (destruct (process_events_fields (in_events i) l)
          as (_ & _ & _ & _ & -> & _); reflexivity).
  assert (Hsp1 : forall snap,
             spawn_attempts (telemetry_block float_pow snap i
                               (process_events (in_events i) l))
             = spawn_attempts l).
  { intros snap.
    destruct (telemetry_block_fields float_pow snap i
                (process_events (in_events i) l))
      as (_ & _ & _ & _ & -> & _). exact Hsp0. }
  assert (Hdue : forall snap,
             staging_due (telemetry_block float_pow snap i
                            (process_events (in_events i) l)) snap = true ->
             no_walkers (args l) = false
             /\ (40 < snap_frame snap)%Z
             /\ (snap_frame snap mod 200 = 0)%Z
             /\ crossers l < MAX_CROSSERS).
  { intros snap Hd. pose proof (staging_due_below_cap _ _ Hd) as Hc.
    rewrite crossers_telemetry_block, crossers_process_events in Hc.
    unfold staging_due in Hd. rewrite !andb_true_iff in Hd.
    destruct Hd as (((Hn & H40) & Hm) & _).
    destruct (telemetry_block_fields float_pow snap i
                (process_events (in_events i) l))
      as (_ & _ & _ & _ & _ & Ha & _).
    destruct (process_events_fields (in_events i) l)
      as (_ & _ & _ & _ & _ & Ha0 & _).
    rewrite Ha, Ha0 in Hn. apply negb_true_iff in Hn.
    apply Z.ltb_lt in H40. apply Z.eqb_eq in Hm. auto. }
  assert (Hstage : forall snap l2 ev2 fl,
             stage (in_staging i)
                   (telemetry_block float_pow snap i
                      (process_events (in_events i) l)) = (l2, ev2, fl) ->
             spawn_attempts l2 <= S (spawn_attempts l)).
  { intros snap l2 ev2 fl Hst.
    destruct (stage_cases _ _ Hst) as [-> | (sw & -> & _)];
      cbn [spawn_attempts stage_walker]; rewrite Hsp1; lia. }
  generalize (tick_outcome_holds float_pow g i l).
  generalize (tick float_pow g i l). intros r H.
  destruct H as [Hs | snap Hs Hw | snap l1 Hs Hw Hl1 Hd
                 | snap l1 l2 ev2 Hs Hw Hl1 Hd Hst
                 | snap l1 l2 ev2 fl Hs Hw Hl1 Hd Hst Hfl];
    cbn [fst snd]; intros Hhyp; try subst l1.
  - exfalso. destruct Hhyp as [He|Hn]; [|congruence].
    rewrite forallb_negb_existsb in He; [discriminate|].
    rewrite forallb_app, poll_snapshot_no_staging_call. reflexivity.
  - exfalso. destruct Hhyp as [He|Hn]; [|congruence].
    rewrite forallb_negb_existsb in He; [discriminate|].
    rewrite forallb_app, poll_snapshot_no_staging_call. reflexivity.
  - exfalso. destruct Hhyp as [He|Hn].
    + rewrite forallb_negb_existsb in He; [discriminate|].
      rewrite !forallb_app, poll_snapshot_no_staging_call, trigger_no_spawn,
        render_no_spawn. reflexivity.
    + apply Hn.
      destruct (trigger_fields i (telemetry_block float_pow snap i
                                    (process_events (in_events i) l)))
        as (_ & -> & _).
      apply Hsp1.
  - destruct (trigger_fields i l2) as (_ & -> & _).
    split; [exact (Hstage _ _ _ _ Hst)|].
    exists snap. split; [exact (poll_snapshot_fst _ Hs)|].
    split; [exact Hw | exact (Hdue _ Hd)].
  - split; [exact (Hstage _ _ _ _ Hst)|].
    exists snap. split; [exact (poll_snapshot_fst _ Hs)|].
    split; [exact Hw | exact (Hdue _ Hd)].
Qed.

Lemma staging_happens_only_under_its_guard_witness :
  let i := sample_tick 200 0 (staging_spawns 101%Z (Ok 201%Z))
                       (fun _ => Ok 100%Q) in
  spawn_attempts
    (fst (fst (tick sample_pow (initial_globals 0) i sample_locals)))
  <= 1.
Proof.
  intros i.
  apply (staging_happens_only_under_its_guard sample_pow (initial_globals 0)
           i sample_locals).
  left. reflexivity.
Defined.

(** ** Leaving the loop on a quit event *)

Lemma tick_running float_pow g i l :
  running (fst (fst (tick float_pow g i l)))
  = if existsb is_quit (in_events i) then false else running l.
Proof.
  rewrite <- process_events_running.
  assert (H1 : forall snap,
             running (telemetry_block float_pow snap i
                        (process_events (in_events i) l))
             = running (process_events (in_events i) l)).
  { intros snap.
    destruct (telemetry_block_fields float_pow snap i
                (process_events (in_events i) l))
      as (_ & _ & _ & _ & _ & _ & ->). reflexivity. }
  assert (H2 : forall snap l2 ev2 fl,
             stage (in_staging i)
                   (telemetry_block float_pow snap i
                      (process_events (in_events i) l)) = (l2, ev2, fl) ->
             running l2 = running (process_events (in_events i) l)).
  { intros snap l2 ev2 fl Hst.
    destruct (stage_cases _ _ Hst) as [-> | (sw & -> & _)]; apply H1. }
  generalize (tick_outcome_holds float_pow g i l).
  generalize (tick float_pow g i l). intros r H.
  destruct H as [Hs | snap Hs Hw | snap l1 Hs Hw Hl1 Hd
                 | snap l1 l2 ev2 Hs Hw Hl1 Hd Hst
                 | snap l1 l2 ev2 fl Hs Hw Hl1 Hd Hst Hfl];
    cbn [fst]; try reflexivity; try subst l1.
  - destruct (trigger_fields i (telemetry_block float_pow snap i
                                  (process_events (in_events i) l)))
      as (_ & _ & _ & -> & _). apply H1.
  - destruct (trigger_fields i l2) as (_ & _ & _ & -> & _).
    exact (H2 _ _ _ _ Hst).
  - exact (H2 _ _ _ _ Hst).
Qed.

(** X12. A pass that sees a quit event (window close or Escape) still runs
    to its end, and it is the last one: the loop is left after it, by the
    quit or by the watchdog's [break], and nothing that would come after is
    processed. A pass without a quit event never clears [running]. *)
Theorem quit_event_ends_loop_after_the_pass
    (float_pow : Q -> Q -> Q) (i : TickIn) (rest : list occurrence)
    (g : Globals) (l : Locals) (tr : list event) :
  (existsb is_quit (in_events i) = true ->
   let r := main_loop float_pow (LoopTick i :: rest) g l tr in
   r = main_loop float_pow [LoopTick i] g l tr
   /\ loop_status r
      = (if watchdog_stalled NO_FRAME_TIMEOUT (in_now i) (_last_frame_time g)
            && negb (snapshot_failed i)
         then WatchdogStalled else QuitRequested)
   /\ loop_trace r = tr ++ snd (fst (tick float_pow g i l))
   /\ loop_locals r = fst (fst (tick float_pow g i l)))
  /\ (existsb is_quit (in_events i) = false ->
      running (fst (fst (tick float_pow g i l))) = running l).
Proof.
  split.
  - intros Hq. cbv zeta. cbn [main_loop].
    pose proof (tick_running float_pow g i l) as Hrun. rewrite Hq in Hrun.
    pose proof (tick_breaks_iff float_pow g i l) as Hbr.
    destruct (tick float_pow g i l) as [[l' ev] fl]. cbn [fst snd] in *.
    destruct fl; rewrite ?Hrun; cbn [loop_status loop_trace loop_locals
                                     fst snd];
      (split; [reflexivity|]); (split; [|auto]).
    + destruct (watchdog_stalled _ _ _), (snapshot_failed i);
        try reflexivity.
      exfalso. assert (Hb : Fallthrough = Break) by (apply Hbr; auto).
      discriminate Hb.
    + destruct (watchdog_stalled _ _ _), (snapshot_failed i);
        try reflexivity.
      exfalso. assert (Hb : Continue = Break) by (apply Hbr; auto).
      discriminate Hb.
    + destruct Hbr as [Hbr _]. destruct (Hbr eq_refl) as [-> ->].
      reflexivity.
  - intros Hq. rewrite tick_running, Hq. reflexivity.
Qed.

Lemma quit_event_ends_loop_after_the_pass_witness :
  loop_status
    (main_loop sample_pow
       [LoopTick (mkTickIn [QUIT] (Ok (Some (mkSnapshot 5 (1 # 2)))) 1
                   (Ok (mkLocation 0 0 0)) (Ok (mkVector3D 5 0 0))
                   (Ok (mkControl 0 (1 # 2) 0)) staging_nothing_ahead
                   (fun _ _ => Ok 100%Q) (fun _ => Ok tt) (fun _ => Ok tt)
                   (fun _ => Ok tt) (fun _ => 1%Q) (fun _ => Ok true) (Ok tt));
        LoopTick (sample_tick 6 2 staging_nothing_ahead (fun _ => Ok 100%Q))]
       (initial_globals 0) sample_locals [])
  = QuitRequested.
Proof.
  destruct (quit_event_ends_loop_after_the_pass sample_pow
              (mkTickIn [QUIT] (Ok (Some (mkSnapshot 5 (1 # 2)))) 1
                 (Ok (mkLocation 0 0 0)) (Ok (mkVector3D 5 0 0))
                 (Ok (mkControl 0 (1 # 2) 0)) staging_nothing_ahead
                 (fun _ _ => Ok 100%Q) (fun _ => Ok tt) (fun _ => Ok tt)
                 (fun _ => Ok tt) (fun _ => 1%Q) (fun _ => Ok true) (Ok tt))
              [LoopTick (sample_tick 6 2 staging_nothing_ahead
                                     (fun _ => Ok 100%Q))]
              (initial_globals 0) sample_locals []) as [H _].
  destruct (H eq_refl) as (_ & Hst & _). exact Hst.
Defined.

(** ** The set-up *)

Lemma try_spawn_ego_spec (n : nat) :
  forall k spawn,
    let r := try_spawn_ego n k spawn in
    snd r <= k + n
    /\ match fst r with
       | Some ego =>
           k < snd r /\ spawn (snd r - 1) = Some ego
           /\ forall j, k <= j < snd r - 1 -> spawn j = None
       | None => snd r = k + n /\ forall j, k <= j < k + n -> spawn j = None
       end.
Proof.
  induction n as [|n IH]; intros k spawn; cbv zeta.
  - cbn. split; [lia|]. split; [lia|]. intros j Hj. lia.
  - cbn [try_spawn_ego]. destruct (spawn k) as [ego|] eqn:Hk.
    + cbn [fst snd]. split; [lia|]. split; [lia|].
      replace (S k - 1) with k by lia. split; [exact Hk|].
      intros j Hj. lia.
    + destruct (IH (S k) spawn) as [Hle Hres]. cbv zeta in Hle, Hres.
      split; [lia|].
      destruct (fst (try_spawn_ego n (S k) spawn)) as [ego|].
      * destruct Hres as (Hlt & Hs & Hnone). split; [lia|].
        split; [exact Hs|]. intros j Hj.
        destruct (Nat.eq_dec j k) as [->|Hne]; [exact Hk|].
        apply Hnone. lia.
      * destruct Hres as (Heq & Hnone). split; [lia|]. intros j Hj.
        destruct (Nat.eq_dec j k) as [->|Hne]; [exact Hk|].
        apply Hnone. lia.
Qed.

(** X13. The ego vehicle is asked for at most six times. The set-up takes
    the first vehicle the simulator returns and stops asking; it raises
    [RuntimeError] after six refusals, and without asking at all when no
    vehicle blueprint is available. *)
Theorem ego_spawn_stops_at_first_success
    (tesla all_vehicles : list string) (n_points : nat)
    (spawn : nat -> option actor) :
  let r := spawn_ego tesla all_vehicles n_points spawn in
  snd r <= 6
  /\ (forall ego, fst r = Ok ego ->
        0 < snd r /\ spawn (snd r - 1) = Some ego
        /\ forall j, j < snd r - 1 -> spawn j = None)
  /\ (tesla = [] -> all_vehicles = [] -> r = (Raise RuntimeError, 0))
  /\ (tesla <> [] \/ all_vehicles <> [] -> n_points <> 0 ->
      (forall j, j < 6 -> spawn j = None) -> r = (Raise RuntimeError, 6))
  /\ (tesla <> [] \/ all_vehicles <> [] -> n_points <> 0 ->
      forall k ego, k < 6 -> spawn k = Some ego ->
                    exists ego', fst r = Ok ego').
Proof.
  cbv zeta. unfold spawn_ego.
  pose proof (try_spawn_ego_spec 6 0 spawn) as Hspec. cbv zeta in Hspec.
  destruct Hspec as [Hle Hres].
  set (veh_bps := match tesla with [] => all_vehicles | _ :: _ => tesla end).
  assert (Hbps : veh_bps = [] <-> tesla = [] /\ all_vehicles = []).
  { subst veh_bps. destruct tesla; split; intros H; try tauto;
      try discriminate; destruct H as [H _]; discriminate. }
  destruct veh_bps as [|bp bps].
  - destruct Hbps as [Hbps _]. destruct (Hbps eq_refl) as [-> ->].
    cbn. repeat split; try lia; try discriminate; try tauto.
    all: intros [H|H]; congruence.
  - assert (Hne : ~ (tesla = [] /\ all_vehicles = []))
      by (intros H; apply Hbps in H; discriminate).
    destruct (Nat.eqb_spec n_points 0) as [->|Hn].
    + cbn. repeat split; try lia; try discriminate; try tauto.
    + destruct (try_spawn_ego 6 0 spawn) as [[ego|] calls];
        cbn [fst snd] in *.
      * destruct Hres as (Hlt & Hs & Hnone).
        split; [lia|]. split.
        { intros ego' [= <-]. split; [lia|]. split; [exact Hs|].
          intros j Hj. apply Hnone. lia. }
        split; [tauto|]. split.
        { intros _ _ Hall. rewrite Hall in Hs by lia. discriminate. }
        intros _ _ k ego' _ _. eauto.
      * destruct Hres as (-> & Hnone). cbn.
        split; [lia|]. split; [discriminate|]. split; [tauto|].
        split; [reflexivity|].
        intros _ _ k ego' Hk Hs. rewrite Hnone in Hs by lia. discriminate.
Qed.

Lemma ego_spawn_stops_at_first_success_witness :
  spawn_ego ["vehicle.tesla.model3"%string] [] 5
            (fun k => if k <? 2 then None else Some 1%Z)
  = (Ok 1%Z, 3)
  /\ exists ego,
       fst (spawn_ego [] ["vehicle.audi.tt"%string] 5
                      (fun k => if k <? 5 then None else Some (Z.of_nat k)))
       = Ok ego.
Proof.
  split; [reflexivity|].
  destruct (ego_spawn_stops_at_first_success [] ["vehicle.audi.tt"%string] 5
              (fun k => if k <? 5 then None else Some (Z.of_nat k)))
    as (_ & _ & _ & _ & H).
  apply (H (or_intror (fun E => nil_cons (eq_sym E)))
           (fun E => Nat.neq_succ_0 _ E) 5 5%Z); [lia | reflexivity].
Defined.

Lemma set_autopilot_calls tm v first fallback :
  let auto := fst (set_autopilot tm v first fallback) in
  In (SetAutopilot v tm) auto
  /\ filter is_try_spawn_vehicle auto = []
  /\ forall v' b, In (SetAutopilot v' b) auto -> v' = v /\ (b = tm \/ b = false).
Proof.
  cbv zeta. unfold set_autopilot.
  destruct first; [|destruct fallback]; cbn [fst In filter
                                             is_try_spawn_vehicle];
    (split; [left; reflexivity|]); (split; [reflexivity|]);
    intros v' b H;
    repeat (destruct H as [H|H]; [inversion H; subst; auto|]);
    contradiction.
Qed.

Lemma spawn_other_vehicles_spec tm points :
  forall vehicles spawned vs n calls r,
    spawn_other_vehicles tm points vehicles spawned = (vs, n, calls, r) ->
    spawned <= MAX_OTHER_VEHICLES ->
    n <= MAX_OTHER_VEHICLES /\ spawned <= n
    /\ (exists news,
           vs = vehicles ++ news /\ length news = n - spawned
           /\ forall v, In v news -> In (SetAutopilot v tm) calls)
    /\ length (filter is_try_spawn_vehicle calls)
       <= length (filter (fun sp => negb (too_close sp)) points)
    /\ n - spawned <= length (filter is_try_spawn_vehicle calls)
    /\ forall v b, In (SetAutopilot v b) calls -> b = tm \/ b = false.
Proof.
  induction points as [|sp points IH];
    intros vehicles spawned vs n calls r Heq Hcap.
  - cbn in Heq. injection Heq as <- <- <- <-.
    split; [lia|]. split; [lia|]. split.
    { exists []. rewrite app_nil_r. split; [reflexivity|].
      split; [cbn; lia | intros v []]. }
    split; [cbn; lia|]. split; [lia | intros v b []].
  - cbn [spawn_other_vehicles] in Heq.
    destruct (Nat.leb_spec MAX_OTHER_VEHICLES spawned) as [Hfull|Hroom].
    { injection Heq as <- <- <- <-.
      split; [lia|]. split; [lia|]. split.
      { exists []. rewrite app_nil_r. split; [reflexivity|].
        split; [cbn; lia | intros v []]. }
      split; [cbn; lia|]. split; [lia | intros v b []]. }
    cbn [filter]. destruct (too_close sp); cbn [negb].
    { destruct (IH _ _ _ _ _ _ Heq Hcap) as (H1 & H2 & H3 & H4 & H5 & H6).
      repeat split; assumption. }
    destruct (sp_spawn sp) as [v|].
    + pose proof (set_autopilot_calls tm v (sp_autopilot sp)
                    (sp_autopilot_fallback sp)) as Hauto.
      cbv zeta in Hauto. destruct Hauto as (Hin & Hno & Hall).
      destruct (set_autopilot tm v (sp_autopilot sp)
                              (sp_autopilot_fallback sp)) as [auto ra].
      cbn [fst] in Hin, Hno, Hall.
      destruct ra as [u|e].
      * destruct (spawn_other_vehicles tm points (vehicles ++ [v])
                                       (S spawned))
          as [[[vs' n'] calls'] r'] eqn:Hrec.
        injection Heq as <- <- <- <-.
        destruct (IH _ _ _ _ _ _ Hrec) as (H1 & H2 & H3 & H4 & H5 & H6);
          [lia|].
        destruct H3 as (news & Hvs & Hlen & Hap).
        split; [exact H1|]. split; [lia|]. split.
        { exists (v :: news). rewrite Hvs, <- app_assoc.
          split; [reflexivity|]. split; [cbn [length]; lia|].
          intros v' [<-|Hv'].
          - right. apply in_or_app. left. exact Hin.
          - right. apply in_or_app. right. apply Hap, Hv'. }
        cbn [filter is_try_spawn_vehicle length].
        rewrite filter_app, Hno. cbn [app].
        split; [lia|]. split; [lia|].
        intros v' b [H|H]; [discriminate H|].
        apply in_app_or in H. destruct H as [H|H];
          [apply (Hall v' b H) | apply (H6 v' b H)].
      * injection Heq as <- <- <- <-.
        split; [lia|]. split; [lia|]. split.
        { exists [v]. split; [reflexivity|]. split; [cbn [length]; lia|].
          intros v' [<-|[]]. right. exact Hin. }
        cbn [filter is_try_spawn_vehicle length]. rewrite Hno.
        cbn [length]. split; [lia|]. split; [lia|].
        intros v' b [H|H]; [discriminate H | apply (Hall v' b H)].
    + destruct (spawn_other_vehicles tm points vehicles spawned)
        as [[[vs' n'] calls'] r'] eqn:Hrec.
      injection Heq as <- <- <- <-.
      destruct (IH _ _ _ _ _ _ Hrec Hcap) as (H1 & H2 & H3 & H4 & H5 & H6).
      split; [exact H1|]. split; [exact H2|]. split.
      { destruct H3 as (news & Hvs & Hlen & Hap). exists news.
        split; [exact Hvs|]. split; [exact Hlen|].
        intros v Hv. right. apply Hap, Hv. }
      cbn [filter is_try_spawn_vehicle length].
      split; [lia|]. split; [lia|].
      intros v b [H|H]; [discriminate H | apply (H6 v b H)].
Qed.

(** The loop over the spawn points, as a trace: it asks at the first [k]
    usable points, in order. *)
Lemma spawn_other_vehicles_trace tm points :
  forall vehicles spawned vs n calls r,
    spawn_other_vehicles tm points vehicles spawned = (vs, n, calls, r) ->
    exists k,
      k <= length (usable_points points)
      /\ calls = flat_map (point_calls tm) (firstn k (usable_points points))
      /\ vs = vehicles
              ++ flat_map point_vehicle (firstn k (usable_points points))
      /\ n = spawned
             + length (flat_map point_vehicle
                                (firstn k (usable_points points)))
      /\ (forall j, j < k ->
             spawned + length (flat_map point_vehicle
                                 (firstn j (usable_points points)))
             < MAX_OTHER_VEHICLES)
      /\ match r with
         | Ok _ =>
             (MAX_OTHER_VEHICLES <= n \/ k = length (usable_points points))
             /\ forall sp e, In sp (firstn k (usable_points points)) ->
                             ~ autopilot_fails_at sp e
         | Raise e =>
             exists pre sp,
               firstn k (usable_points points) = pre ++ [sp]
               /\ autopilot_fails_at sp e
               /\ forall sp' e', In sp' pre -> ~ autopilot_fails_at sp' e'
         end.
Proof.
  induction points as [|sp points IH];
    intros vehicles spawned vs n calls r Heq.
  - cbn in Heq. injection Heq as <- <- <- <-. exists 0. cbn.
    rewrite app_nil_r, Nat.add_0_r.
    split; [lia|]. split; [reflexivity|]. split; [reflexivity|].
    split; [reflexivity|]. split; [intros j Hj; lia|].
    split; [right; reflexivity | intros sp e []].
  - cbn [spawn_other_vehicles] in Heq.
    destruct (Nat.leb_spec MAX_OTHER_VEHICLES spawned) as [Hfull|Hroom].
    { injection Heq as <- <- <- <-. exists 0. cbn [firstn flat_map length].
      rewrite app_nil_r, Nat.add_0_r.
      split; [lia|]. split; [reflexivity|]. split; [reflexivity|].
      split; [reflexivity|]. split; [intros j Hj; lia|].
      split; [left; exact Hfull | intros sp' e []]. }
    unfold usable_points. cbn [filter].
    destruct (too_close sp) eqn:Hclose; cbn [negb].
    { exact (IH _ _ _ _ _ _ Heq). }
    fold (usable_points points).
    destruct (sp_spawn sp) as [v|] eqn:Hsp.
    + unfold set_autopilot in Heq.
      assert (Hcalls : forall rest,
                 TrySpawnVehicle
                 :: (SetAutopilot v tm
                     :: match sp_autopilot sp with
                        | Ok _ => []
                        | Raise _ => [SetAutopilot v false]
                        end) ++ rest
                 = point_calls tm sp ++ rest)
        by (intros rest; unfold point_calls; rewrite Hsp; reflexivity).
      assert (Hveh : point_vehicle sp = [v])
        by (unfold point_vehicle; rewrite Hsp; reflexivity).
      assert (Hgo : forall vs' n' calls' r',
                 spawn_other_vehicles tm points (vehicles ++ [v])
                                      (S spawned) = (vs', n', calls', r') ->
                 (forall e, ~ autopilot_fails_at sp e) ->
                 exists k,
                   k <= length (sp :: usable_points points)
                   /\ TrySpawnVehicle
                      :: (SetAutopilot v tm
                          :: match sp_autopilot sp with
                             | Ok _ => []
                             | Raise _ => [SetAutopilot v false]
                             end) ++ calls'
                      = flat_map (point_calls tm)
                                 (firstn k (sp :: usable_points points))
                   /\ vs' = vehicles
                            ++ flat_map point_vehicle
                                 (firstn k (sp :: usable_points points))
                   /\ n' = spawned
                           + length (flat_map point_vehicle
                                       (firstn k (sp :: usable_points points)))
                   /\ (forall j, j < k ->
                          spawned
                          + length (flat_map point_vehicle
                                      (firstn j (sp :: usable_points points)))
                          < MAX_OTHER_VEHICLES)
                   /\ match r' with
                      | Ok _ =>
                          (MAX_OTHER_VEHICLES <= n'
                           \/ k = length (sp :: usable_points points))
                          /\ forall sp0 e,
                               In sp0 (firstn k (sp :: usable_points points)) ->
                               ~ autopilot_fails_at sp0 e
                      | Raise e =>
                          exists pre sp0,
                            firstn k (sp :: usable_points points)
                            = pre ++ [sp0]
                            /\ autopilot_fails_at sp0 e
                            /\ forall sp' e', In sp' pre ->
                                              ~ autopilot_fails_at sp' e'
                      end).
      { intros vs' n' calls' r' Hrec Hnofail.
        destruct (IH _ _ _ _ _ _ Hrec)
          as (k & Hk & Hc & Hv & Hn & Hlt & Hr).
        exists (S k). cbn [firstn flat_map length].
        rewrite Hveh, Hcalls, Hc, Hv, Hn, <- app_assoc.
        cbn [app length].
        split; [lia|]. split; [reflexivity|]. split; [reflexivity|].
        split; [lia|]. split.
        { intros [|j] Hj; cbn [firstn flat_map length]; [lia|].
          rewrite Hveh. cbn [app length].
          specialize (Hlt j). lia. }
        destruct r' as [u|e].
        - destruct Hr as [Hstop Hno]. split.
          + destruct Hstop as [H|H]; [left; lia | right; lia].
          + intros sp0 e [<-|Hin]; [apply Hnofail | apply (Hno _ _ Hin)].
        - destruct Hr as (pre & sp0 & Hpre & Hfail & Hno).
          exists (sp :: pre), sp0. rewrite Hpre.
          split; [reflexivity|]. split; [exact Hfail|].
          intros sp' e' [<-|Hin]; [apply Hnofail | apply (Hno _ _ Hin)]. }
      destruct (sp_autopilot sp) as [u|e0] eqn:Hauto.
      * destruct (spawn_other_vehicles tm points (vehicles ++ [v])
                                       (S spawned))
          as [[[vs' n'] calls'] r'] eqn:Hrec.
        injection Heq as <- <- <- <-.
        apply (Hgo _ _ _ _ eq_refl).
        intros e (_ & (e1 & He1) & _). congruence.
      * destruct (sp_autopilot_fallback sp) as [u|e] eqn:Hfb.
        -- destruct (spawn_other_vehicles tm points (vehicles ++ [v])
                                          (S spawned))
             as [[[vs' n'] calls'] r'] eqn:Hrec.
           injection Heq as <- <- <- <-.
           apply (Hgo _ _ _ _ eq_refl).
           intros e (_ & _ & He). congruence.
        -- injection Heq as <- <- <- <-. exists 1.
           cbn [firstn flat_map length]. unfold point_calls.
           rewrite Hveh, Hsp, Hauto. cbn [app length].
           split; [lia|]. split; [reflexivity|]. split; [reflexivity|].
           split; [lia|]. split.
           { intros [|j] Hj; [cbn; lia | lia]. }
           exists [], sp. split; [reflexivity|]. split.
           ++ split; [eauto|]. split; [eauto | exact Hfb].
           ++ intros sp' e' [].
    + destruct (spawn_other_vehicles tm points vehicles spawned)
        as [[[vs' n'] calls'] r'] eqn:Hrec.
      injection Heq as <- <- <- <-.
      destruct (IH _ _ _ _ _ _ Hrec) as (k & Hk & Hc & Hv & Hn & Hlt & Hr).
      assert (Hveh : point_vehicle sp = [])
        by (unfold point_vehicle; rewrite Hsp; reflexivity).
      assert (Hnofail : forall e, ~ autopilot_fails_at sp e)
        by (intros e ((v & Hv') & _); congruence).
      exists (S k). cbn [firstn flat_map length].
      unfold point_calls at 1. rewrite Hveh, Hsp, Hc, Hv, Hn.
      cbn [app length].
      split; [lia|]. split; [reflexivity|]. split; [reflexivity|].
      split; [reflexivity|]. split.
      { intros [|j] Hj; cbn [firstn flat_map length]; [lia|].
        rewrite Hveh. cbn [app]. specialize (Hlt j). lia. }
      destruct r' as [u|e].
      * destruct Hr as [Hstop Hno]. split.
        -- destruct Hstop as [H|H]; [left; lia | right; lia].
        -- intros sp0 e [<-|Hin]; [apply Hnofail | apply (Hno _ _ Hin)].
      * destruct Hr as (pre & sp0 & Hpre & Hfail & Hno).
        exists (sp :: pre), sp0. rewrite Hpre.
        split; [reflexivity|]. split; [exact Hfail|].
        intros sp' e' [<-|Hin]; [apply Hnofail | apply (Hno _ _ Hin)].
Qed.

(** X14. The traffic manager is bound exactly when [--tm-off] is not given
    and both getting it and setting its leading distance succeed. The loop
    over the spawn points then asks the simulator at the usable points (not
    within 8 m of the ego vehicle; a point whose distance cannot be read
    counts as usable), in their order, and only while it has fewer than
    [MAX_OTHER_VEHICLES] vehicles: it stops at the point that gives the
    last one, or at the end of the points. Every vehicle the simulator
    returns is appended to [vehicles], in order, and counted, and nothing
    else is. Each gets one autopilot request, with the traffic manager's
    port exactly when one is bound, and a second one without a port when
    the first raises; when that raises too, the exception leaves the
    loop, the vehicle being in [vehicles] already. *)
Theorem other_vehicles_are_capped_and_tracked
    (a : Args) (got sync dist : result unit) (points : list SpawnPoint)
    (ego : actor) :
  let tm := fst (setup_tm a got sync dist) in
  let usable := filter (fun sp => negb (too_close sp)) points in
  let '(vs, n, calls, r) := spawn_other_vehicles tm points [ego] 0 in
  (tm = true
   <-> tm_off a = false /\ (exists u, got = Ok u) /\ (exists u, dist = Ok u))
  /\ n <= MAX_OTHER_VEHICLES
  /\ exists k,
       k <= length usable
       /\ calls = flat_map (point_calls tm) (firstn k usable)
       /\ vs = ego :: flat_map point_vehicle (firstn k usable)
       /\ n = length (flat_map point_vehicle (firstn k usable))
       /\ (forall j, j < k ->
              length (flat_map point_vehicle (firstn j usable))
              < MAX_OTHER_VEHICLES)
       /\ match r with
          | Ok _ =>
              (n = MAX_OTHER_VEHICLES \/ k = length usable)
              /\ forall sp e, In sp (firstn k usable) ->
                              ~ autopilot_fails_at sp e
          | Raise e =>
              exists pre sp,
                firstn k usable = pre ++ [sp]
                /\ autopilot_fails_at sp e
                /\ forall sp' e', In sp' pre -> ~ autopilot_fails_at sp' e'
          end.
Proof.
  intros tm usable.
  destruct (spawn_other_vehicles tm points [ego] 0)
    as [[[vs n] calls] r] eqn:Heq.
  destruct (@spawn_other_vehicles_spec _ _ _ _ _ _ _ _ Heq (Nat.le_0_l _))
    as (Hcap & _).
  destruct (@spawn_other_vehicles_trace _ _ _ _ _ _ _ _ Heq)
    as (k & Hk & Hc & Hv & Hn & Hlt & Hr).
  fold usable in Hk, Hc, Hv, Hn, Hlt, Hr. cbn [Nat.add app] in Hv, Hn, Hlt.
  split.
  { subst tm. unfold setup_tm. split.
    - destruct (tm_off a); [discriminate|].
      destruct got as [u|e]; [|discriminate].
      destruct dist as [u'|e']; [|discriminate]. eauto.
    - intros (Hoff & (u & ->) & (u' & ->)). rewrite Hoff. reflexivity. }
  split; [exact Hcap|].
  exists k. split; [exact Hk|]. split; [exact Hc|]. split; [exact Hv|].
  split; [exact Hn|]. split; [exact Hlt|].
  destruct r as [u|e]; [|exact Hr].
  destruct Hr as [[H|H] Hno]; (split; [|exact Hno]); [left; lia | right; exact H].
Qed.

Lemma other_vehicles_are_capped_and_tracked_witness :
  let points := [mkSpawnPoint (Ok 3%Q) (Some 2%Z) (Ok tt) (Ok tt);
                 mkSpawnPoint (Raise RuntimeError) (Some 3%Z)
                              (Raise RuntimeError) (Ok tt);
                 mkSpawnPoint (Ok 20%Q) None (Ok tt) (Ok tt)] in
  spawn_other_vehicles false points [1%Z] 0
  = ([1; 3]%Z, 1,
     [TrySpawnVehicle; SetAutopilot 3%Z false; SetAutopilot 3%Z false;
      TrySpawnVehicle], Ok tt)
  /\ snd (fst (fst (spawn_other_vehicles false points [1%Z] 0)))
     <= MAX_OTHER_VEHICLES.
Proof.
  intros points. split; [reflexivity|].
  pose proof (other_vehicles_are_capped_and_tracked
                (mkArgs false false false true false) (Ok tt) (Ok tt) (Ok tt)
                points 1%Z) as H.
  cbv zeta in H.
  change (fst (setup_tm (mkArgs false false false true false)
                        (Ok tt) (Ok tt) (Ok tt))) with false in H.
  destruct H as (_ & H & _). exact H.
Defined.


(** ** What the loop leaves alone *)

Lemma trigger_one_no_cleanup_call i el t sw :
  forallb (fun e => negb (is_cleanup_call e)) (t_events t) = true ->
  forallb (fun e => negb (is_cleanup_call e))
          (t_events (trigger_one i el t sw)) = true.
Proof.
  intros H. unfold trigger_one, controller_commands.
  repeat destruct_match; cbn [t_events];
    rewrite ?forallb_app, ?H; reflexivity.
Qed.

Lemma trigger_no_cleanup_call i l :
  forallb (fun e => negb (is_cleanup_call e)) (snd (trigger i l)) = true.
Proof.
  unfold trigger. cbn [snd].
  generalize (mkTrig (walkers l) (walker_controllers l) [] [])
             (eq_refl : forallb (fun e => negb (is_cleanup_call e))
                                (t_events (mkTrig (walkers l)
                                             (walker_controllers l) [] []))
                        = true).
  generalize (staged_walkers l) as todo.
  induction todo as [|sw todo IH]; intros t H; [exact H|].
  change (trigger_loop i (ego_location l) t (sw :: todo))
    with (trigger_loop i (ego_location l)
            (trigger_one i (ego_location l) t sw) todo).
  apply IH, trigger_one_no_cleanup_call, H.
Qed.

Lemma stage_no_cleanup_call si l :
  forallb (fun e => negb (is_cleanup_call e)) (snd (fst (stage si l))) = true.
Proof. unfold stage, stage_body. repeat destruct_match; reflexivity. Qed.

Lemma render_no_cleanup_call g i l snap :
  forallb (fun e => negb (is_cleanup_call e)) (render g i l snap) = true.
Proof. unfold render. repeat destruct_match; reflexivity. Qed.

Lemma poll_snapshot_no_cleanup_call i :
  forallb (fun e => negb (is_cleanup_call e)) (snd (poll_snapshot i)) = true.
Proof. unfold poll_snapshot. destruct (in_snapshot i); reflexivity. Qed.

Lemma tick_no_cleanup_call float_pow g i l :
  forallb (fun e => negb (is_cleanup_call e))
          (snd (fst (tick float_pow g i l))) = true.
Proof.
  generalize (tick_outcome_holds float_pow g i l).
  generalize (tick float_pow g i l). intros r H.
  destruct H as [Hs | snap Hs Hw | snap l1 Hs Hw Hl1 Hd
                 | snap l1 l2 ev2 Hs Hw Hl1 Hd Hst
                 | snap l1 l2 ev2 fl Hs Hw Hl1 Hd Hst Hfl];
    cbn [fst snd];
    try (assert (Hev2 : forallb (fun e => negb (is_cleanup_call e)) ev2
                        = true)
           by (replace ev2 with (snd (fst (stage (in_staging i) l1)))
                 by (rewrite Hst; reflexivity);
               apply stage_no_cleanup_call));
    rewrite ?forallb_app, ?poll_snapshot_no_cleanup_call, ?Hev2,
      ?trigger_no_cleanup_call, ?render_no_cleanup_call; reflexivity.
Qed.

Lemma tick_setup_state float_pow g i l :
  setup_state (fst (fst (tick float_pow g i l))) = setup_state l.
Proof.
  pose (P := fun l' : Locals => setup_state l' = setup_state l).
  apply (tick_preserves float_pow P); unfold P; cbv beta.
  - intros evs l0 <-. unfold process_events.
    destruct (existsb is_quit evs); reflexivity.
  - intros snap i0 l0 <-.
    destruct (telemetry_block_cases float_pow snap i0 l0) as [-> | [p ->]];
      reflexivity.
  - intros si l0 snap _ <-.
    destruct (stage si l0) as [[l' ev] fl] eqn:Hst.
    destruct (stage_cases _ _ Hst) as [-> | (sw & -> & _)]; reflexivity.
  - intros i0 l0 <-. reflexivity.
  - reflexivity.
Qed.

(** X15. The loop leaves to the cleanup what the set-up made: parsed
    arguments, saved settings and the [sensors] and [vehicles] lists are at
    the end of the loop what they were at its start, whatever happened in
    between; and no pass writes the telemetry file, waits for the save queue
    or the saver thread, sends a destroy batch, applies server settings or
    shuts pygame down. *)
Theorem loop_keeps_setup_state
    (float_pow : Q -> Q -> Q) (occ : list occurrence) (g : Globals)
    (l : Locals) (tr : list event) :
  let r := main_loop float_pow occ g l tr in
  args (loop_locals r) = args l
  /\ original_settings (loop_locals r) = original_settings l
  /\ sensors (loop_locals r) = sensors l
  /\ vehicles (loop_locals r) = vehicles l
  /\ exists evs, loop_trace r = tr ++ evs
                 /\ forallb (fun e => negb (is_cleanup_call e)) evs = true.
Proof.
  intros r. subst r.
  pose (P := fun l' : Locals => setup_state l' = setup_state l).
  destruct (@main_loop_trace_invariant float_pow P
              (fun e => negb (is_cleanup_call e)) occ) with
    (g := g) (l := l) (tr := tr) as (HP & Hev).
  - intros g' i l' _ HP. split.
    + unfold P. rewrite tick_setup_state. exact HP.
    + apply tick_no_cleanup_call.
  - reflexivity.
  - unfold P, setup_state in HP. injection HP as -> -> -> ->.
    repeat split. exact Hev.
Qed.

(** X16. Server settings over a whole run. The set-up applies only the
    asynchronous settings (no synchronous mode, no fixed time step), the
    loop applies none, and the cleanup applies settings exactly when the
    set-up read the settings twice and applied its own without an
    exception; what it applies then is the answer of the first
    [get_settings]. When any of the three calls of the set-up raised,
    nothing is restored. *)
Theorem settings_restored_iff_setup_succeeded
    (float_pow : Q -> Q -> Q) (got again : result WorldSettings)
    (applied : result unit) (a : Args) (ss vs : list actor) (capacity : nat)
    (occ : list occurrence) (g : Globals) (tr : list event)
    (ci : CleanupIn) :
  let su := setup_settings got again applied in
  let r := main_loop float_pow occ g
             (initial_locals a (fst su) ss vs capacity) tr in
  (forall s, In (ApplySettings s) (snd su) -> s = mkSettings false 0)
  /\ (exists evs, loop_trace r = tr ++ evs
                  /\ filter is_restore evs = [])
  /\ filter is_restore (cleanup ci (loop_locals r))
     = match fst su with
       | Some orig => [ApplySettings orig]
       | None => []
       end
  /\ forall orig,
       fst su = Some orig
       <-> got = Ok orig /\ (exists s, again = Ok s) /\ applied = Ok tt.
Proof.
  intros su r.
  assert (Hsu : forall orig,
             fst su = Some orig
             <-> got = Ok orig /\ (exists s, again = Ok s)
                 /\ applied = Ok tt).
  { intros orig. subst su. unfold setup_settings.
    destruct got as [o|e]; [destruct again as [s|e];
                            [destruct applied as [[]|e]|]|]; cbn [fst];
      split;
      try (intros [= <-]; repeat split; eauto);
      try (intros (H1 & (s' & H2) & H3); congruence);
      try discriminate. }
  split.
  { intros s Hin. subst su. unfold setup_settings in Hin.
    destruct got as [o|e]; [destruct again as [s'|e];
                            [destruct applied as [u|e]|]|]; cbn [snd] in Hin;
      repeat (destruct Hin as [Hin|Hin]; [try discriminate Hin|]);
      try contradiction; injection Hin as <-; reflexivity. }
  assert (Hinv : setup_state (loop_locals r)
                 = setup_state (initial_locals a (fst su) ss vs capacity)
                 /\ exists evs, loop_trace r = tr ++ evs
                      /\ forallb (fun e => negb (is_cleanup_call e)) evs
                         = true).
  { subst r.
    apply (@main_loop_trace_invariant float_pow
             (fun l' => setup_state l'
                        = setup_state (initial_locals a (fst su) ss vs
                                                      capacity))
             (fun e => negb (is_cleanup_call e)) occ).
    - intros g' i l' _ HP. split.
      + rewrite tick_setup_state. exact HP.
      + apply tick_no_cleanup_call.
    - reflexivity. }
  destruct Hinv as (Hst & evs & Htr & Hevs).
  split.
  { exists evs. split; [exact Htr|].
    clear Htr. induction evs as [|e evs IH]; [reflexivity|].
    cbn [forallb] in Hevs. apply andb_true_iff in Hevs.
    destruct Hevs as [He Hevs]. cbn [filter].
    destruct e; try discriminate He; cbn [is_restore]; apply IH, Hevs. }
  split; [|exact Hsu].
  assert (Ho : original_settings (loop_locals r) = fst su)
    by (unfold setup_state in Hst; cbn in Hst; congruence).
  unfold cleanup, cleanup_until_join, cleanup_after_join.
  rewrite Ho. rewrite !filter_app.
  assert (Hpre : filter is_restore
                   (if Deque.truthy (telemetry (loop_locals r))
                    then WriteTelemetryCsv
                           (Deque.to_list (telemetry (loop_locals r)))
                         :: match in_csv ci with
                            | Ok _ => [Log INFO "Telemetry saved"]
                            | Raise _ => [Log WARNING "Telemetry save failed"]
                            end
                    else []) = [])
    by (destruct (Deque.truthy _); [destruct (in_csv ci)|]; reflexivity).
  rewrite Hpre.
  assert (Hdes : forall ids ids2,
             filter is_restore
               (match ids with
                | [] => []
                | _ :: _ =>
                    ApplyBatchSync ids
                    :: match in_batch ci with
                       | Ok _ => []
                       | Raise _ => Log WARNING "Batch destroy failed"
                                    :: map Destroy ids2
                       end
                end) = []).
  { intros ids ids2. destruct ids as [|x xs]; [reflexivity|].
    cbn [filter is_restore]. destruct (in_batch ci); [reflexivity|].
    cbn [filter is_restore].
    induction ids2 as [|y ys IH]; [reflexivity | exact IH]. }
  cbv zeta. rewrite Hdes.
  destruct (fst su); reflexivity.
Qed.

Lemma settings_restored_iff_setup_succeeded_witness :
  filter is_restore
    (cleanup sample_cleanup_in
       (loop_locals
          (main_loop sample_pow run_two_triggered (initial_globals 0)
             (initial_locals (mkArgs false false false false false)
                (fst (setup_settings (Ok (mkSettings true (1 # 20)))
                                     (Ok (mkSettings true (1 # 20)))
                                     (Ok tt)))
                [11; 12; 13]%Z [1]%Z MAX_TELEMETRY_ROWS) [])))
  = [ApplySettings (mkSettings true (1 # 20))]
  /\ fst (setup_settings (Ok (mkSettings true (1 # 20)))
                         (Raise RuntimeError) (Ok tt)) = None.
Proof.
  pose proof (settings_restored_iff_setup_succeeded sample_pow
                (Ok (mkSettings true (1 # 20)))
                (Ok (mkSettings true (1 # 20))) (Ok tt)
                (mkArgs false false false false false)
                [11; 12; 13]%Z [1]%Z MAX_TELEMETRY_ROWS run_two_triggered
                (initial_globals 0) [] sample_cleanup_in) as H.
  cbv zeta in H. destruct H as (_ & _ & H & _).
  split; [exact H | reflexivity].
Defined.

(** ** How a pass ends *)

Lemma forallb_weaken {A : Type} (p q : A -> bool) (xs : list A) :
  (forall x, p x = true -> q x = true) ->
  forallb p xs = true -> forallb q xs = true.
Proof.
  intros Hpq. induction xs as [|x xs IH]; [reflexivity|].
  cbn [forallb]. rewrite !andb_true_iff. intros [Hx Hxs].
  split; [apply Hpq, Hx | apply IH, Hxs].
Qed.

Lemma poll_snapshot_step_calls i :
  forallb is_step_call (snd (poll_snapshot i)) = true.
Proof. unfold poll_snapshot. destruct (in_snapshot i); reflexivity. Qed.

Lemma stage_step_calls si l :
  forallb is_step_call (snd (fst (stage si l))) = true.
Proof. unfold stage, stage_body. repeat destruct_match; reflexivity. Qed.

Lemma trigger_one_step_calls i el t sw :
  forallb is_step_call (t_events t) = true ->
  forallb is_step_call (t_events (trigger_one i el t sw)) = true.
Proof.
  intros H. unfold trigger_one, controller_commands.
  repeat destruct_match; cbn [t_events];
    rewrite ?forallb_app, ?H; reflexivity.
Qed.

Lemma trigger_step_calls i l :
  forallb is_step_call (snd (trigger i l)) = true.
Proof.
  unfold trigger. cbn [snd].
  generalize (mkTrig (walkers l) (walker_controllers l) [] [])
             (eq_refl : forallb is_step_call
                                (t_events (mkTrig (walkers l)
                                             (walker_controllers l) [] []))
                        = true).
  generalize (staged_walkers l) as todo.
  induction todo as [|sw todo IH]; intros t H; [exact H|].
  change (trigger_loop i (ego_location l) t (sw :: todo))
    with (trigger_loop i (ego_location l)
            (trigger_one i (ego_location l) t sw) todo).
  apply IH, trigger_one_step_calls, H.
Qed.

Lemma stage_continue si l l' ev :
  stage si l = (l', ev, Continue) ->
  exists st w, ev = [TrySpawnWalker st; SpawnController w; Destroy w].
Proof.
  unfold stage, stage_body.
  repeat destruct_match; intros H; inversion H; subst; eauto.
Qed.

Lemma render_shape g i l snap :
  exists pre,
    render g i l snap = pre ++ [DisplayFlip; ClockTick SIM_FPS]
    /\ forallb (fun e => negb (is_pacing e)) pre = true.
Proof.
  unfold render. eexists. split; [rewrite !app_assoc; reflexivity|].
  rewrite !forallb_app.
  destruct (third_image g), (front_image g), (in_hud i); reflexivity.
Qed.

(** X17. How a pass of the loop ends. A pass that reaches the end of the
    body has a snapshot and ends with [display.flip()] and
    [clock.tick(SIM_FPS)], its only wait. A pass without a snapshot draws
    nothing and ends with the sleep of 0.05 s. A pass that the watchdog
    ends draws nothing and waits nowhere. A pass that the staging step
    leaves by [continue] (the controller of a new walker could not be
    spawned) ends with the destruction of that walker: it draws nothing
    and neither sleeps nor ticks the clock, so the next pass starts at
    once. *)
Theorem pass_renders_sleeps_or_leaves
    (float_pow : Q -> Q -> Q) (g : Globals) (i : TickIn) (l : Locals) :
  let r := tick float_pow g i l in
  let evs := snd (fst r) in
  match snd r with
  | Fallthrough =>
      snapshot_failed i = false
      /\ exists pre,
           evs = pre ++ [DisplayFlip; ClockTick SIM_FPS]
           /\ forallb (fun e => negb (is_pacing e)) pre = true
  | Continue =>
      forallb (fun e => negb (is_render e)) evs = true
      /\ if snapshot_failed i
         then evs = snd (poll_snapshot i) ++ [Sleep (5 # 100)]
         else forallb (fun e => negb (is_pacing e)) evs = true
              /\ exists pre st w,
                   evs = pre ++ [TrySpawnWalker st; SpawnController w;
                                 Destroy w]
  | Break =>
      snapshot_failed i = false
      /\ forallb (fun e => negb (is_pacing e || is_render e)) evs = true
  end.
Proof.
  assert (Hpace : forall evs, forallb is_step_call evs = true ->
                    forallb (fun e => negb (is_pacing e)) evs = true)
    by (intros evs; apply forallb_weaken; intros []; auto).
  assert (Hdraw : forall evs, forallb is_step_call evs = true ->
                    forallb (fun e => negb (is_render e)) evs = true)
    by (intros evs; apply forallb_weaken; intros []; auto).
  assert (Hboth : forall evs, forallb is_step_call evs = true ->
                    forallb (fun e => negb (is_pacing e || is_render e)) evs
                    = true)
    by (intros evs; apply forallb_weaken; intros []; auto).
  pose proof (poll_snapshot_step_calls i) as Hpoll.
  cbv zeta.
  generalize (tick_outcome_holds float_pow g i l).
  generalize (tick float_pow g i l). intros r H.
  destruct H as [Hs | snap Hs Hw | snap l1 Hs Hw Hl1 Hd
                 | snap l1 l2 ev2 Hs Hw Hl1 Hd Hst
                 | snap l1 l2 ev2 fl Hs Hw Hl1 Hd Hst Hfl];
    cbn [fst snd]; unfold snapshot_failed; rewrite Hs.
  - split; [|reflexivity].
    rewrite forallb_app, (Hdraw _ Hpoll). reflexivity.
  - split; [reflexivity|].
    rewrite forallb_app, (Hboth _ Hpoll). reflexivity.
  - split; [reflexivity|].
    destruct (render_shape g i (fst (trigger i l1)) snap)
      as (pre & -> & Hpre).
    exists (snd (poll_snapshot i) ++ [] ++ snd (trigger i l1) ++ pre).
    split; [rewrite <- !app_assoc; reflexivity|].
    rewrite !forallb_app, (Hpace _ Hpoll),
      (Hpace _ (trigger_step_calls i l1)), Hpre. reflexivity.
  - split; [reflexivity|].
    assert (Hev2 : forallb is_step_call ev2 = true)
      by (replace ev2 with (snd (fst (stage (in_staging i) l1)))
            by (rewrite Hst; reflexivity);
          apply stage_step_calls).
    destruct (render_shape g i (fst (trigger i l2)) snap)
      as (pre & -> & Hpre).
    exists (snd (poll_snapshot i) ++ ev2 ++ snd (trigger i l2) ++ pre).
    split; [rewrite <- !app_assoc; reflexivity|].
    rewrite !forallb_app, (Hpace _ Hpoll), (Hpace _ Hev2),
      (Hpace _ (trigger_step_calls i l2)), Hpre. reflexivity.
  - assert (Hev2 : forallb is_step_call ev2 = true)
      by (replace ev2 with (snd (fst (stage (in_staging i) l1)))
            by (rewrite Hst; reflexivity);
          apply stage_step_calls).
    destruct fl; [contradiction | |].
    + rewrite !forallb_app, (Hdraw _ Hpoll), (Hdraw _ Hev2),
        (Hpace _ Hpoll), (Hpace _ Hev2).
      split; [reflexivity|]. split; [reflexivity|].
      destruct (stage_continue _ _ Hst) as (st & w & ->).
      exists (snd (poll_snapshot i)), st, w. reflexivity.
    + exfalso. apply (@stage_never_breaks (in_staging i) l1).
      rewrite Hst. reflexivity.
Qed.

(** ** Runs with saving switched off *)

Lemma background_step_saving_off b g :
  saving_off g -> saving_off (background_step false b g).
Proof.
  intros [HN Hq]. destruct b as [s now image | | | saved | saved];
    cbn [background_step].
  - split.
    + rewrite callback_keeps_interval. exact HN.
    + rewrite (callback_interval_zero s now image g HN). exact Hq.
  - destruct g as [fi ti lt fc q N sv]. cbn in HN, Hq. subst N q.
    destruct sv; split; reflexivity.
  - destruct g as [fi ti lt fc q N sv]. cbn in HN, Hq. subst N q.
    destruct sv; split; reflexivity.
  - destruct g as [fi ti lt fc q N sv]. cbn in HN, Hq. subst N q.
    destruct sv; split; reflexivity.
  - destruct g as [fi ti lt fc q N sv]. cbn in HN, Hq. subst N q.
    destruct sv; split; reflexivity.
Qed.

Lemma main_loop_saving_off float_pow occ :
  forall g l tr,
    saving_off g ->
    saving_off (loop_globals (main_loop float_pow occ g l tr)).
Proof.
  induction occ as [|o occ IH]; intros g l tr Hb; [exact Hb|].
  destruct o as [b|i]; cbn [main_loop].
  - apply IH, background_step_saving_off, Hb.
  - destruct (tick float_pow g i l) as [[l' ev] fl].
    destruct fl; try (destruct (running l'); [apply IH, Hb|]); exact Hb.
Qed.

(** X18. With [--no-save] nothing is ever queued for the saver: whatever
    frames arrive and whatever the loop does, the save queue is empty at
    every loop test, so [save_queue.join()] in the cleanup returns at once,
    and a run ends with its cleanup as soon as its loop has ended. *)
Theorem no_save_run_never_waits_for_the_saver
    (float_pow : Q -> Q -> Q) (a : Args) (t t0 : Q) (occ : list occurrence)
    (l : Locals) (during_join : list background) (ci : CleanupIn) :
  no_save a = true ->
  let g0 := set_last_frame_time (apply_no_save a (initial_globals t)) t0 in
  let r := main_loop float_pow occ g0 l [] in
  save_queue (loop_globals r) = PyQueue.empty
  /\ queue_join during_join (loop_globals r) = Some (loop_globals r)
  /\ (loop_status r <> Looping ->
      main float_pow t0 occ during_join ci
           (apply_no_save a (initial_globals t)) l
      = Some (loop_trace r ++ cleanup ci (loop_locals r))).
Proof.
  intros Hno g0 r.
  assert (Hoff : saving_off (loop_globals r)).
  { subst r. apply main_loop_saving_off. subst g0.
    unfold apply_no_save. rewrite Hno. split; reflexivity. }
  assert (Hjoin : queue_join during_join (loop_globals r)
                  = Some (loop_globals r)).
  { destruct Hoff as [_ Hq].
    destruct during_join; cbn [queue_join]; rewrite Hq; reflexivity. }
  split; [apply Hoff|]. split; [exact Hjoin|].
  intros Hst. unfold main. fold g0. fold r.
  destruct r as [[[g1 l1] tr1] st]. cbn [loop_status loop_globals
    loop_trace loop_locals fst snd] in *.
  destruct st; [contradiction | |]; rewrite Hjoin; reflexivity.
Qed.

Lemma no_save_run_never_waits_for_the_saver_witness :
  exists tr,
    main sample_pow 0
         [Background (CameraFrame front 1 (pixel_image 60));
          LoopTick (failed_poll_tick [QUIT] 2)]
         [CameraFrame front 3 (pixel_image 120)] sample_cleanup_in
         (apply_no_save (mkArgs true false false false false)
                        (initial_globals 0))
         sample_locals
    = Some tr.
Proof.
  eexists.
  apply (no_save_run_never_waits_for_the_saver sample_pow
           (mkArgs true false false false false) 0 0
           [Background (CameraFrame front 1 (pixel_image 60));
            LoopTick (failed_poll_tick [QUIT] 2)]
           sample_locals [CameraFrame front 3 (pixel_image 120)]
           sample_cleanup_in eq_refl).
  vm_compute. discriminate.
Defined.

(** ** The sensor set-up *)

(** X19. The sensor set-up tracks what it spawns, with one exception. Every
    entry of [sensors] is a sensor the simulator spawned, and when the
    set-up ends without an exception [sensors] holds all of them, the
    cameras last. A spawned sensor is missing from [sensors] only when it
    is the front camera and the spawn of the third camera raised: line 252
    adds both cameras after both spawns. The exception then leads to the
    cleanup, which issues no destroy for that camera. *)
Theorem lone_front_camera_is_not_tracked
    (si : SensorsIn) (a : Args) (orig : option WorldSettings) (ego : actor)
    (capacity : nat) (ci : CleanupIn) :
  let sensors := fst (fst (setup_sensors si)) in
  let spawned := snd (fst (setup_sensors si)) in
  let l := initial_locals a orig sensors [ego] capacity in
  (forall x, In x sensors -> In x spawned)
  /\ (snd (setup_sensors si) = Ok tt ->
      sensors = spawned
      /\ exists cs cam_front cam_third,
           sensors = cs ++ [cam_front; cam_third] /\ length cs <= 1
           /\ in_cam_front si = Ok cam_front
           /\ in_cam_third si = Ok cam_third)
  /\ (forall x, In x spawned -> ~ In x sensors ->
                in_cam_front si = Ok x
                /\ (exists e, in_cam_third si = Raise e
                              /\ snd (setup_sensors si) = Raise e)
                /\ (x <> ego ->
                    existsb (destroys x) (cleanup ci l) = false)).
Proof.
  intros sensors spawned l.
  assert (Hnot : forall x, ~ In x sensors -> x <> ego ->
                           existsb (destroys x) (cleanup ci l) = false).
  { intros x Hx Hego.
    destruct (existsb (destroys x) (cleanup ci l)) eqn:He; [|reflexivity].
    apply cleanup_destroys_iff in He. destruct He as [Hin _].
    unfold tracked_actors, l in Hin.
    cbn [initial_locals sensors walker_controllers walkers
         vehicles app] in Hin.
    apply in_app_or in Hin.
    destruct Hin as [Hin|[Hin|[]]]; [tauto | congruence]. }
  subst sensors spawned. clearbody l. revert Hnot.
  unfold setup_sensors.
  destruct (in_camera_bps si) as [u|e]; cbn [fst snd].
  { destruct (in_cam_front si) as [f|e]; cbn [fst snd].
    - destruct (in_cam_third si) as [t|e]; cbn [fst snd].
      + assert (Hlen : length match in_collision_spawn si with
                              | Ok cs => [cs]
                              | Raise _ => []
                              end <= 1)
          by (destruct (in_collision_spawn si); cbn; lia).
        destruct (in_front_listen si) as [u1|e];
          [destruct (in_third_listen si) as [u2|e]|]; cbn [fst snd];
          intros Hnot; (split; [tauto|]);
          (split; [|intros x Hx Hn; tauto]);
          try discriminate.
        intros _. split; [reflexivity|]. eauto 8.
      + intros Hnot. split; [intros x Hx; apply in_or_app; tauto|].
        split; [discriminate|]. intros x Hx Hn.
        apply in_app_or in Hx. destruct Hx as [Hx|[<-|[]]]; [tauto|].
        split; [reflexivity|]. split; [eauto | apply Hnot, Hn].
    - intros Hnot. split; [tauto|]. split; [discriminate|].
      intros x Hx Hn. tauto. }
  intros Hnot. split; [tauto|]. split; [discriminate|].
  intros x Hx Hn. tauto.
Qed.

Lemma lone_front_camera_is_not_tracked_witness :
  let si := mkSensorsIn (Ok 11%Z) (Ok tt) (Ok tt) (Ok 12%Z)
                        (Raise RuntimeError) (Ok tt) (Ok tt) in
  setup_sensors si = ([11%Z], [11%Z; 12%Z], Raise RuntimeError)
  /\ existsb (destroys 12%Z)
             (cleanup sample_cleanup_in
                (initial_locals (mkArgs false false false false false) None
                                [11%Z] [1%Z] MAX_TELEMETRY_ROWS))
     = false.
Proof.
  intros si. split; [reflexivity|].
  destruct (lone_front_camera_is_not_tracked si
              (mkArgs false false false false false) None 1%Z
              MAX_TELEMETRY_ROWS sample_cleanup_in) as (_ & _ & H).
  destruct (H 12%Z) as (_ & _ & Hd).
  - right. left. reflexivity.
  - intros [E|[]]. discriminate E.
  - apply Hd. discriminate.
Defined.

(** ** Staging after the controller is attached *)

(** X20. A pass of the staging step that attached a controller [c] to
    its new walker [w] destroys nothing and goes on to the trigger loop.
    When the destination can be computed, the walker is staged with this
    controller and the trigger distance [JAYWALK_TRIGGER_DISTANCE], and the
    attempt counter goes up by one. When computing the destination raises
    (line 370), the handler of line 373 logs it: nothing is staged or
    counted, and walker and controller stay in the simulator, in no list of
    the script. *)
Theorem attached_walker_is_staged_unless_destination_fails
    (si : StagingIn) (l l' : Locals) (ev : list event) (fl : flow)
    (w c : actor) :
  stage si l = (l', ev, fl) ->
  In (SpawnController w) ev ->
  in_spawn_ctrl si w = Ok c ->
  fl = Fallthrough
  /\ forallb (fun e => negb (is_destroy e)) ev = true
  /\ match in_dest_offset si with
     | Ok _ =>
         exists dest,
           l' = stage_walker l (mkStaged w c dest JAYWALK_TRIGGER_DISTANCE)
           /\ spawn_attempts l' = S (spawn_attempts l)
     | Raise _ =>
         l' = l
         /\ exists st,
              ev = [TrySpawnWalker st; SpawnController w;
                    Log DEBUG "walker staging error"]
     end.
Proof.
  unfold stage, stage_body.
  repeat destruct_match; intros H; inversion H; subst; clear H;
    intros Hin Hc; cbn [In app] in Hin;
    repeat (destruct Hin as [Hin|Hin]; try discriminate Hin);
    try contradiction;
    injection Hin as ->; try congruence.
  all: split; [reflexivity|]; split; [reflexivity|].
  all: eauto.
  all: match goal with
       | H : in_spawn_ctrl _ _ = Ok ?x, H' : in_spawn_ctrl _ _ = Ok ?y
         |- _ => assert (x = y) by congruence; subst x
       end.
  all: eexists; split; reflexivity.
Qed.

Lemma attached_walker_is_staged_unless_destination_fails_witness :
  let si := mkStagingIn (fun p => Ok (mkWaypoint p (mkVector3D 0 1 0)))
              (fun wp d =>
                 Ok [mkWaypoint (loc_add (wp_location wp) (mkVector3D d 0 0))
                                (wp_right wp)])
              1 3 false
              (fun p => Ok (Some (mkWaypoint p (mkVector3D 0 1 0)))) (Ok tt)
              (fun _ => Ok (Some 101%Z)) (fun _ => Ok 201%Z)
              (Raise RuntimeError) in
  let l := set_ego_location sample_locals (mkLocation 0 0 0) in
  snd (stage si l) = Fallthrough /\ fst (fst (stage si l)) = l.
Proof.
  intros si l.
  destruct (@attached_walker_is_staged_unless_destination_fails
              si l (fst (fst (stage si l))) (snd (fst (stage si l)))
              (snd (stage si l)) 101%Z 201%Z) as (Hfl & _ & H).
  - reflexivity.
  - right. left. reflexivity.
  - reflexivity.
  - cbn [in_dest_offset si] in H. destruct H as [Hl _].
    split; assumption.
Defined.
